(* ===== verification/_CoqProject ===== *)
-Q . S2P
Prelude.v
JsNumber.v
Rounding.v
Nearest.v
ParseInt.v
NumberString.v
HustleTypes.v
Income.v
AppState.v
Format.v
Display.v
NetDisplay.v
Refinement.v
View.v
Page.v
