(* ===== verification/Prelude.v ===== *)
(** * Side Hustle Income Estimator (2026): a verification development

    ** The program

    The repository is one React component, [App] in [src/src/App.tsx].  It
    keeps a record [HustleInput] (hours per week, hustle type, hourly rate,
    monthly expenses) in [useState]; the [onChange] handlers of a select and
    three number inputs replace one field each through [handleChange]; on
    every render the component derives five figures (weekly, monthly gross,
    annual gross, monthly net, annual net) with JavaScript Number arithmetic,
    formats them with [toLocaleString] as whole US dollars, looks the current
    type up in a constant table for a rate-range hint, and returns one JSX
    tree.  The numeric handlers store [parseInt(e.target.value) || 0].

    ** The library (files in dependency order)

    - [Prelude] (this file): dyadic values [m * 2^e] with their equivalence
      [dy_eq] (an [Equivalence] with a [Proper] product, used by setoid
      rewriting), powers of two, the exhaustive range check [forall_range]
      with its soundness lemma, decimal digit lists on [Decimal.uint], list
      and string lemmas, the hint database [jsmodel] and the tactic
      [pow2_facts].
    - [JsNumber]: JavaScript Numbers as IEEE 754 binary64, the Standard
      Library's executable [SpecFloat] at [prec = 53], [emax = 1024] (no
      axioms).  Module [Binary64] names [mul], [sub], [div], the conversion
      𝔽 of an integer [of_Z], decimal literals [literal], [truthy] and
      [or_else] ([||]); module [Binary64Facts] proves the rounding facts:
      rounding a value that needs no rounding is exact, the canonical
      representation is unique, products and differences of integers whose
      result has at most 53 bits are exact ([mul_of_Z], [sub_of_Z]), the
      double of a nonzero integer never underflows to zero ([of_Z_nonzero]).
    - [Rounding]: the rounding error of [SpecFloat]'s [binary_round_aux],
      [binary_round] and [binary_normalize], and from them of [SFsub] and
      [SFmul] on finite doubles: the result is canonical, of the exact
      sign, within one unit of its last place of the exact value
      ([sub_error], [mul_error]), and a difference that lies on the grid is
      exact.  Values are compared as integers at a scale [2^L] ([val_at]).
    - [Nearest]: correct rounding.  The location bits [SpecFloat] keeps
      while shifting mean what they should ([loc_spec], [shr_loc]),
      [round_nearest_even] moves by at most half a unit, so
      [binary_round_aux] and the division behind [literal] return a double
      within half a unit in the last place of the exact value, and such a
      double is nearest among all valid doubles ([half_ulp_nearest]).  The
      model of a numeric literal is thereby the Number ECMA-262 gives it
      ([literal_nearest]).
    - [ParseInt]: [parseInt] of ECMA-262 with radix undefined (white space,
      sign, [0x] prefix, longest digit prefix, signed zero, 𝔽 rounding) and
      the handler expression [parse_field] = [parseInt(v) || 0] of lines 66,
      70, 74.
    - [NumberString]: Number::toString of ECMA-262 in radix 10, the text
      React writes for a Number prop ([value] of the inputs, [key] of the
      tips).  Step 5 (the fewest significant digits that round back to the
      double, the closest on a choice) is an executable search: the double
      is written exactly as [N * 10^(-t)] and precisions [1 .. digits N]
      are tried, each with the decimals just below and above it, so the
      search is bounded by the digit count of [N] and needs no other fuel;
      [format_decimal] is the plain or exponent layout of steps 6-12.
    - [HustleTypes]: the constant tables [HUSTLE_TIPS], [HUSTLE_TYPES]
      (lines 10-24) and the lookup [selectedHustle] (line 40).
    - [Income]: the record [HustleInput] (lines 3-8) and the derivation of
      lines 31-36 as [derive_in], written once over the interface
      [IncomeArith] (a product, a difference, the constants [4.33] and
      [12]) in the source's order.  The page's instance [number_arith] is
      binary64 ([mul], [sub], [weeksPerMonth = literal 433 2]); [derive]
      runs it on the stored record.
    - [AppState]: [field] ([keyof HustleInput]), [handleChange] (line 28) as
      the updater it gives [setValues], [initialValues] (line 27), the user
      events and their handlers [on_event] (lines 53-77), [run] for a
      sequence of events, and the reachability relations [reachable] and
      [reachable_ui] (events a browser can produce) as inductive step
      relations.
    - [Format]: [fmt] (line 38), ECMA-402 currency formatting for en-US/USD
      with no fraction digits (sign first, ties away from zero, groups of
      three).
    - [Display]: the abstract specification.  [IncomeSpec.spec_derived]
      is spec.md section 3 written out on its own over exact rationals [Q]
      ([4.33] as [433 # 100]); [IncomeSpec.exact_arith] is the second
      instance of [IncomeArith], and [derive_q], [derive_in] at it, is
      proved equal to [spec_derived] ([derive_q_spec]); [fmt_q] shows a
      rational in whole dollars (respecting [Qeq], a [Proper] instance used
      by setoid rewriting), and [derive_exact] gives the same figures as
      whole cents.  The lemmas relate what the page shows for the weekly
      and gross figures to them ([gross_display]).
    - [NetDisplay]: the same for the two net figures ([net_display]), from an
      evaluated closeness check of the monthly gross ([gross_close]), the
      error bounds of [Rounding] and the stability of whole-dollar rounding
      near an amount of cents that is not a half dollar ([amount_close]).
    - [Refinement]: the headline theorem [display_refines], which puts
      [Display] and [NetDisplay] together: the five amounts shown equal
      [fmt_q] of the specification's exact figures.
    - [View]: [render] (lines 42-162), the JSX tree as data, every
      attribute and inline [style] object included, with observations
      ([keys_ok], [textContent], [child_at], [value_of_id], [css_at]);
      [attr_text] is React's ['' + value] of a prop, through
      [NumberString.toString] for Numbers, and keys are compared as these
      strings.
    - [Page]: the composition of all of the above along one edit: typed
      text, [parse_field], [on_event], [derive], [fmt], [render].

    ** What is proved

    - Refinement: for all integer hours 0-80, rates 0-500 and expenses
      0-10000 (the ranges of the input widgets) the five amounts shown
      equal the specification's formulas computed exactly and rounded to
      whole dollars, sign
      included ([Refinement.display_refines]); the literal [4.33], and
      every decimal literal the model reads, is the nearest double to its
      value ([Nearest.literal_nearest]); the weekly figure is exact for
      every integer product of at most 53 bits
      ([Income.weekly_income_exact]).
    - End to end: from any state, once the decimal texts of such inputs are
      typed into the three fields, the eight places of the rendered page
      that print an amount show those exact figures
      ([Page.typed_inputs_shown]).
    - Round trips: the double of every safe integer (below [2^53]) prints
      as its decimal text ([NumberString.toString_of_Z]), so the text React
      writes into each number input reads back through its handler as the
      stored value ([Page.input_text_roundtrip]).
    - Termination and soundness of Number::toString's digit search: for
      every valid positive double the bounded search succeeds
      ([NumberString.shortest_total]) and its digits round back to the
      double ([NumberString.shortest_sound]).
    - Invariants by rule induction over [reachable]: the numeric fields
      always hold doubles of integers; with browser events the type always
      has a hint.
    - Ordering: edits of different fields commute, the last edit of a field
      wins, the type never affects a figure; the fold of the updaters is
      equivalent to the per-field reference semantics
      ([AppState.run_final_state]).
    - Liveness and characterisation of the reachable states: from any state
      four browser events reach any listed type with any integer inputs
      ([AppState.any_input_reachable]), and a record is reachable through
      browser events exactly when its type is listed and its numeric fields
      hold doubles of integers ([AppState.reachable_ui_iff]).
    - Parsing: the handler never stores NaN or [-0], reads back decimal
      text, truncates at the first non-digit, and maps non-numeric text to 0.
    - View: React keys are distinct, empty fields show exactly the value 0.
    - Findings, as theorems: a reachable state makes the weekly figure NaN
      (310-digit hours against a zero rate), a zero hours field against a
      negative rate gives [-0] (shown "-$0"), "1e3" is stored as 1, and a
      negative expense prints as "--$50", and a negative net is printed as
      "-$..." in the same green as a positive one
      ([Page.negative_net_green]).

    ** Bounds and evaluation

    The refinement of the gross figures is proved by evaluating a checker
    with [vm_compute] over every weekly amount [0..40000] (80 hours times
    500 per hour, the bounds of the input widgets); [forall_range_spec]
    turns the run into a universal statement.  The net figures depend on the
    expenses too (4 * 10^8 inputs), so only the monthly gross is evaluated
    for each weekly amount ([NetDisplay.gross_close]: within [2^-30] of the
    exact value, exact at whole and half dollars); the rest is proved: the
    subtraction adds at most [2^-35] (its result is below [2^18]) and the
    product by 12 at most [2^-31] (below [2^22]), and an error below a cent
    cannot change the rounding of a whole number of cents that is not a
    half dollar.  Everything is compared at the scale [2^-160], below the
    smallest exponent that occurs ([-156]).  No definition needs fuel: all
    recursion is structural (on strings, lists, [positive], [Decimal.uint]).

    ** Not modelled

    React's scheduler and reconciliation (updates are modelled as the fold of
    the queued updaters), the DOM and the style sheet that gives the
    [className]s their look ([render] keeps the class names and the inline
    [style] objects as data), the guard with which React's number inputs skip writing a
    [value] that loosely equals the field's current text, and the
    non-ASCII white space of [parseInt].  For Number::toString the model is
    executable for every double and agrees with JavaScript on the values
    evaluated, but the minimality of its digit count is proved only for
    safe integers. *)

From Stdlib Require Import ZArith Lia List String Ascii Bool.
From Stdlib Require Import Morphisms RelationClasses DecimalN DecimalFacts.
Import ListNotations.

Declare Scope dyadic_scope.
Delimit Scope dyadic_scope with dy.
Open Scope Z_scope.

(** ** Dyadic values

    A finite IEEE number denotes [m * 2^e] for integers [m], [e].  Two pairs
    denote the same value when they agree after both are scaled to the smaller
    exponent.  This is the equivalence the exactness lemmas of [JsNumber] are
    stated up to. *)

Definition dyadic : Type := (Z * Z)%type.

Definition dy_eq (x y : dyadic) : Prop :=
  let '(m1, e1) := x in
  let '(m2, e2) := y in
  m1 * 2 ^ (e1 - Z.min e1 e2) = m2 * 2 ^ (e2 - Z.min e1 e2).

Definition dy_mul (x y : dyadic) : dyadic :=
  let '(m1, e1) := x in
  let '(m2, e2) := y in
  (m1 * m2, e1 + e2).

Notation "x =dy= y" := (dy_eq x y) (at level 70, no associativity) : dyadic_scope.
Notation "x *dy* y" := (dy_mul x y) (at level 40, left associativity) : dyadic_scope.

Create HintDb jsmodel.

(** ** Exhaustive checks over integer ranges

    [forall_range f lo n] tests [f] on [lo, lo + 1, ..., lo + n - 1]; its
    soundness lemma turns a [vm_compute] run into a statement for every
    integer of the range. *)
Fixpoint forall_range (f : Z -> bool) (lo : Z) (n : nat) : bool :=
  match n with
  | O => true
  | S n' => f lo && forall_range f (lo + 1) n'
  end.

(** ** Decimal digits

    The Standard Library's [Decimal.uint] lists the decimal digits of a
    natural number, most significant first ([N.to_uint], [N.of_uint]).  The
    printers of the development render it as a string of ASCII digits. *)

Fixpoint uint_digits (u : Decimal.uint) : list Z :=
  match u with
  | Decimal.Nil => []
  | Decimal.D0 u' => 0 :: uint_digits u'
  | Decimal.D1 u' => 1 :: uint_digits u'
  | Decimal.D2 u' => 2 :: uint_digits u'
  | Decimal.D3 u' => 3 :: uint_digits u'
  | Decimal.D4 u' => 4 :: uint_digits u'
  | Decimal.D5 u' => 5 :: uint_digits u'
  | Decimal.D6 u' => 6 :: uint_digits u'
  | Decimal.D7 u' => 7 :: uint_digits u'
  | Decimal.D8 u' => 8 :: uint_digits u'
  | Decimal.D9 u' => 9 :: uint_digits u'
  end.

Definition digit_char (d : Z) : ascii := ascii_of_nat (Z.to_nat (48 + d)).

Fixpoint string_of_digits (ds : list Z) : string :=
  match ds with
  | [] => EmptyString
  | d :: ds' => String (digit_char d) (string_of_digits ds')
  end.

(** The decimal digits of [n], as [String(n)] prints a nonnegative integer. *)
Definition digits_of_N (n : N) : list Z := uint_digits (N.to_uint n).

(** Horner evaluation of a digit list in radix [R], most significant first. *)
Definition digits_value (R : Z) (ds : list Z) : Z :=
  fold_left (fun acc d => acc * R + d) ds 0.


(** ** Powers of two *)

Lemma pow2_pos (k : Z) : 0 <= k -> 0 < 2 ^ k.
Proof. intros; apply Z.pow_pos_nonneg; lia. Qed.

Lemma pow2_add (a b : Z) : 0 <= a -> 0 <= b -> 2 ^ (a + b) = 2 ^ a * 2 ^ b.
Proof. intros; apply Z.pow_add_r; lia. Qed.

#[export] Hint Resolve pow2_pos : jsmodel.

(** Side conditions on exponents are linear: [lia] closes them. *)
#[export] Hint Extern 1 (0 <= _) => lia : jsmodel.

(** [pow2_facts] records the positivity of every power of two with a
    nonnegative exponent in the goal and the hypotheses, so that [nia] and
    [lia] can use it. *)
Ltac pow2_fact k :=
  lazymatch goal with
  | _ : 0 < 2 ^ k |- _ => fail
  | _ => let H := fresh "Hpow" in assert (H : 0 < 2 ^ k) by (auto with jsmodel)
  end.

Ltac pow2_facts :=
  repeat match goal with
  | |- context [2 ^ ?k] => pow2_fact k
  | _ : context [2 ^ ?k] |- _ => pow2_fact k
  end.

(** Scaling both sides to any exponent below both gives the same test. *)
Lemma dy_eq_at (m1 e1 m2 e2 L : Z) :
  L <= e1 -> L <= e2 ->
  (dy_eq (m1, e1) (m2, e2) <-> m1 * 2 ^ (e1 - L) = m2 * 2 ^ (e2 - L)).
Proof.
  intros H1 H2; cbn.
  set (M := Z.min e1 e2).
  assert (HL : L <= M) by (unfold M; lia).
  replace (e1 - L) with ((e1 - M) + (M - L)) by lia.
  replace (e2 - L) with ((e2 - M) + (M - L)) by lia.
  rewrite !pow2_add by (unfold M; lia).
  assert (Hp : 0 < 2 ^ (M - L)) by (apply pow2_pos; lia).
  split; intros H.
  - rewrite !Z.mul_assoc, H; reflexivity.
  - rewrite !Z.mul_assoc in H. apply Z.mul_reg_r in H; lia.
Qed.

#[export] Instance dy_eq_equiv : Equivalence dy_eq.
Proof.
  split.
  - intros [m e]; cbn; reflexivity.
  - intros [m1 e1] [m2 e2] H.
    apply (dy_eq_at _ _ _ _ (Z.min e1 e2)) in H; [| lia | lia].
    apply (dy_eq_at _ _ _ _ (Z.min e1 e2)); [lia | lia | congruence].
  - intros [m1 e1] [m2 e2] [m3 e3] H12 H23.
    remember (Z.min e1 (Z.min e2 e3)) as L eqn:HL.
    apply (dy_eq_at _ _ _ _ L) in H12; [| lia ..].
    apply (dy_eq_at _ _ _ _ L) in H23; [| lia ..].
    apply (dy_eq_at _ _ _ _ L); [lia .. | congruence].
Qed.

#[export] Instance dy_mul_proper : Proper (dy_eq ==> dy_eq ==> dy_eq) dy_mul.
Proof.
  intros [m1 e1] [m1' e1'] H1 [m2 e2] [m2' e2'] H2; cbn [dy_mul].
  remember (Z.min e1 e1') as L1 eqn:HL1.
  remember (Z.min e2 e2') as L2 eqn:HL2.
  apply (dy_eq_at _ _ _ _ L1) in H1; [| lia ..].
  apply (dy_eq_at _ _ _ _ L2) in H2; [| lia ..].
  apply (dy_eq_at _ _ _ _ (L1 + L2)); [lia .. |].
  replace (e1 + e2 - (L1 + L2)) with ((e1 - L1) + (e2 - L2)) by lia.
  replace (e1' + e2' - (L1 + L2)) with ((e1' - L1) + (e2' - L2)) by lia.
  rewrite !pow2_add by lia.
  transitivity ((m1 * 2 ^ (e1 - L1)) * (m2 * 2 ^ (e2 - L2))); [ring|].
  rewrite H1, H2; ring.
Qed.

(** An integer [n] is the dyadic [(n, 0)]; shifting the mantissa left by [k]
    while lowering the exponent by [k] keeps the value. *)
Lemma dy_eq_shift (m e k : Z) : 0 <= k -> dy_eq (m * 2 ^ k, e - k) (m, e).
Proof.
  intros Hk. apply (dy_eq_at _ _ _ _ (e - k)); [lia | lia |].
  rewrite Z.sub_diag, Z.pow_0_r, Z.mul_1_r. f_equal; f_equal; lia.
Qed.

#[export] Hint Resolve dy_eq_shift : jsmodel.

Lemma dy_eq_opp (m1 e1 m2 e2 : Z) :
  dy_eq (m1, e1) (m2, e2) -> dy_eq (- m1, e1) (- m2, e2).
Proof. cbn. intros H. rewrite !Z.mul_opp_l, H. reflexivity. Qed.

(** Differences of two values taken at one exponent. *)
Lemma dy_eq_sub (x y e a b : Z) :
  dy_eq (x, e) (a, 0) -> dy_eq (y, e) (b, 0) -> dy_eq (x - y, e) (a - b, 0).
Proof.
  intros Hx Hy.
  apply (dy_eq_at _ _ _ _ (Z.min e 0)) in Hx; [| lia ..].
  apply (dy_eq_at _ _ _ _ (Z.min e 0)) in Hy; [| lia ..].
  apply (dy_eq_at _ _ _ _ (Z.min e 0)); [lia .. |].
  rewrite !Z.mul_sub_distr_r. congruence.
Qed.

Lemma dy_eq_zero_l (e n : Z) : dy_eq (0, e) (n, 0) -> n = 0.
Proof.
  intros H. unfold dy_eq in H.
  pose proof (pow2_pos (0 - Z.min e 0) ltac:(lia)).
  rewrite Z.mul_0_l in H. symmetry in H. apply Z.mul_eq_0 in H. lia.
Qed.

(** The sign of a nonzero dyadic is the sign of its mantissa. *)
Lemma dy_eq_sign (k e n : Z) : dy_eq (k, e) (n, 0) -> (0 < k <-> 0 < n).
Proof.
  intros H. unfold dy_eq in H.
  pose proof (pow2_pos (e - Z.min e 0) ltac:(lia)).
  pose proof (pow2_pos (0 - Z.min e 0) ltac:(lia)).
  remember (2 ^ (e - Z.min e 0)) as P. remember (2 ^ (0 - Z.min e 0)) as Q.
  split; intros; nia.
Qed.

Lemma ltb_mul_sign (a b : Z) : a <> 0 -> b <> 0 -> xorb (a <? 0) (b <? 0) = (a * b <? 0).
Proof.
  intros Ha Hb.
  destruct (Z.ltb_spec a 0), (Z.ltb_spec b 0), (Z.ltb_spec (a * b) 0); cbn; nia.
Qed.

Lemma forall_range_spec (f : Z -> bool) (n : nat) : forall lo,
  forall_range f lo n = true -> forall x, lo <= x < lo + Z.of_nat n -> f x = true.
Proof.
  induction n as [| n IH]; intros lo H x Hx; [lia |].
  cbn in H. apply andb_prop in H as [H0 H1].
  destruct (Z.eq_dec x lo) as [-> | Hne]; [exact H0 |].
  apply (IH (lo + 1) H1). lia.
Qed.

Lemma uint_digits_acc (u : Decimal.uint) (acc : positive) :
  fold_left (fun a d => a * 10 + d) (uint_digits u) (Zpos acc)
  = Zpos (Pos.of_uint_acc u acc).
Proof.
  revert acc; induction u; intros acc; cbn [uint_digits fold_left Pos.of_uint_acc];
    try reflexivity; rewrite <- IHu; f_equal; lia.
Qed.

Lemma digits_of_N_value (n : N) : digits_value 10 (digits_of_N n) = Z.of_N n.
Proof.
  rewrite <- (DecimalN.Unsigned.of_to n) at 2. unfold digits_of_N, digits_value.
  generalize (N.to_uint n) as u. intros u.
  induction u; cbn [uint_digits fold_left N.of_uint Pos.of_uint];
    rewrite ?Z.mul_0_l, ?Z.add_0_l, ?uint_digits_acc; try reflexivity.
  exact IHu.
Qed.

Lemma uint_digits_range (u : Decimal.uint) : Forall (fun d => 0 <= d <= 9) (uint_digits u).
Proof. induction u; cbn; constructor; auto; lia. Qed.

Lemma digits_of_N_cons (n : N) : exists d ds, digits_of_N n = d :: ds.
Proof.
  unfold digits_of_N. destruct n as [| p]; [eexists _, _; reflexivity |].
  cbn [N.to_uint]. pose proof (DecimalPos.Unsigned.to_uint_nonnil p) as Hnn.
  destruct (Pos.to_uint p); [contradiction | eexists _, _; reflexivity ..].
Qed.

Lemma string_append_empty_r (s : string) : append s EmptyString = s.
Proof. induction s as [| c s IH]; cbn; [reflexivity | now rewrite IH]. Qed.

(** ** Lists *)

(** Under a key function without duplicates, the key determines the element. *)
Lemma NoDup_map_key {A B} (f : A -> B) (l : list A) (x y : A) :
  NoDup (map f l) -> In x l -> In y l -> f x = f y -> x = y.
Proof.
  induction l as [| a l IH]; cbn; [tauto |].
  intros Hnd Hx Hy Hf. inversion Hnd as [| ? ? Hnin Hnd']; subst.
  destruct Hx as [<- | Hx], Hy as [<- | Hy]; auto.
  - exfalso. apply Hnin. rewrite Hf. apply in_map, Hy.
  - exfalso. apply Hnin. rewrite <- Hf. apply in_map, Hx.
Qed.
