(* ===== verification/JsNumber.v ===== *)
(** * JavaScript numbers as IEEE 754 binary64

    Every numeric value of [App.tsx] is a JavaScript Number: an IEEE 754
    double.  This file instantiates the Standard Library's executable
    specification of binary floating point ([SpecFloat], a transcription of
    Flocq's [Binary] module, with round-to-nearest-even) at [prec = 53] and
    [emax = 1024], names the operations the program uses ([*], [-], the
    literal [4.33], the conversion of a mathematical integer to a Number, and
    truthiness for [||]), and proves the exactness facts the income formulas
    rely on: the product and the difference of two integers whose result is
    at most [2^53] in magnitude are computed without rounding. *)

From Stdlib Require Import ZArith Lia Bool SpecFloat Setoid Morphisms RelationClasses.
From S2P Require Import Prelude.
Open Scope Z_scope.

Module Binary64.

Definition prec : Z := 53.
Definition emax : Z := 1024.

(** A Number.  [S754_nan] is NaN, [S754_zero s] is [+0] or [-0],
    [S754_finite s m e] is [(-1)^s * m * 2^e]. *)
Definition number : Type := spec_float.

Abbreviation fexp := (SpecFloat.fexp prec emax).

Definition mul (x y : number) : number := SFmul prec emax x y.
Definition sub (x y : number) : number := SFsub prec emax x y.
Definition div (x y : number) : number := SFdiv prec emax x y.

(** 𝔽(n) of ECMA-262: the Number nearest to the mathematical integer [n]
    (ties to even), [+0] for [0], an infinity past the largest double. *)
Definition of_Z (n : Z) : number := binary_normalize prec emax n 0 false.

(** A decimal literal [m / 10^k], such as [4.33]: the source text denotes the
    Number nearest to its mathematical value, and a correctly rounded
    division of the two exactly representable integers is that Number
    ([Nearest.literal_nearest] proves it for [m], [10^k] below [2^53]). *)
Definition literal (m : Z) (k : nat) : number :=
  div (of_Z m) (of_Z (10 ^ Z.of_nat k)).

Definition NaN : number := S754_nan.
Definition pos_zero : number := S754_zero false.
Definition neg_zero : number := S754_zero true.

(** ToBoolean on a Number: false exactly for [+0], [-0] and NaN. *)
Definition truthy (x : number) : bool :=
  match x with
  | S754_zero _ | S754_nan => false
  | _ => true
  end.

(** [x || y] on Numbers: [x] when it is truthy, else [y]. *)
Definition or_else (x y : number) : number := if truthy x then x else y.

Definition is_nan (x : number) : bool :=
  match x with S754_nan => true | _ => false end.

(** SameValue on Numbers: identity of the binary64 datum, so [NaN] is
    the same as [NaN] and [+0] differs from [-0]. *)
Definition number_eqb (x y : number) : bool :=
  match x, y with
  | S754_zero a, S754_zero b | S754_infinity a, S754_infinity b => Bool.eqb a b
  | S754_nan, S754_nan => true
  | S754_finite a m e, S754_finite b m' e' => Bool.eqb a b && Pos.eqb m m' && Z.eqb e e'
  | _, _ => false
  end.

(** Magnitude and canonical exponent of a finite [m * 2^e]. *)
Definition mag (m : positive) (e : Z) : Z := Zpos (digits2_pos m) + e.
Definition shift_of (m : positive) (e : Z) : Z := fexp (mag m e) - e.
Definition canonical_at (m : positive) (e : Z) : Prop := shift_of m e = 0.
(** Rounding [m * 2^e] loses nothing: the canonical exponent is not below
    [e] and the bits shifted out are zero. *)
Definition exact_at (m : positive) (e : Z) : Prop :=
  0 <= shift_of m e /\ (2 ^ shift_of m e | Zpos m).

(** [Number.isFinite]: a zero or a finite double, not an infinity nor NaN. *)
Definition is_finite (x : number) : bool :=
  match x with
  | S754_zero _ | S754_finite _ _ _ => true
  | _ => false
  end.

(** A nonzero result of the given sign: finite or an infinity. *)
Definition signed_nonzero (sx : bool) (x : number) : Prop :=
  match x with
  | S754_finite s _ _ | S754_infinity s => s = sx
  | _ => False
  end.

End Binary64.

Declare Scope js_scope.
Delimit Scope js_scope with js.
Notation "x * y" := (Binary64.mul x y) : js_scope.
Notation "x - y" := (Binary64.sub x y) : js_scope.
Notation "x || y" := (Binary64.or_else x y) : js_scope.

Module Binary64Facts.
Import Binary64.

(** ** Digits *)

Lemma digits2_log2 (p : positive) : Zpos (digits2_pos p) = Z.log2 (Zpos p) + 1.
Proof.
  induction p as [p IH | p IH |]; cbn [digits2_pos]; rewrite ?Pos2Z.inj_succ.
  - change (Zpos p~1) with (2 * Zpos p + 1). rewrite Z.log2_succ_double by lia. lia.
  - change (Zpos p~0) with (2 * Zpos p). rewrite Z.log2_double by lia. lia.
  - reflexivity.
Qed.

Lemma mag_log2 (m : positive) (e : Z) : mag m e = Z.log2 (Zpos m) + 1 + e.
Proof. unfold mag. rewrite digits2_log2. lia. Qed.

Lemma fexp_eq (x : Z) : fexp x = Z.max (x - 53) (-1074).
Proof. reflexivity. Qed.

(** The magnitude depends only on the value. *)
Lemma mag_dy (m1 m2 : positive) (e1 e2 : Z) :
  dy_eq (Zpos m1, e1) (Zpos m2, e2) -> mag m1 e1 = mag m2 e2.
Proof.
  intros H. apply (dy_eq_at _ _ _ _ (Z.min e1 e2)) in H; [| lia ..].
  rewrite !mag_log2.
  apply (f_equal Z.log2) in H.
  rewrite !Z.log2_mul_pow2 in H by lia. lia.
Qed.

(** ** Iterated right shifts *)

Lemma iter_pos_nat {A} (f : A -> A) (p : positive) (x : A) :
  iter_pos f p x = Nat.iter (Pos.to_nat p) f x.
Proof.
  revert x; induction p as [p IH | p IH |]; intros x; cbn [iter_pos].
  - rewrite !IH, Pos2Nat.inj_xI, <- Nat.iter_add, Nat.iter_succ_r. f_equal; lia.
  - rewrite !IH, Pos2Nat.inj_xO, <- Nat.iter_add. f_equal; lia.
  - reflexivity.
Qed.

Lemma shr_1_double (q : Z) : 0 <= q ->
  shr_1 {| shr_m := 2 * q; shr_r := false; shr_s := false |}
  = {| shr_m := q; shr_r := false; shr_s := false |}.
Proof. intros Hq. destruct q as [| p | p]; [reflexivity | reflexivity | lia]. Qed.

Lemma shr_1_iter_exact (k : nat) (n : Z) : 0 <= n ->
  Nat.iter k shr_1 {| shr_m := n * 2 ^ Z.of_nat k; shr_r := false; shr_s := false |}
  = {| shr_m := n; shr_r := false; shr_s := false |}.
Proof.
  revert n; induction k as [| k IH]; intros n Hn.
  - cbn. rewrite Z.mul_1_r. reflexivity.
  - rewrite Nat.iter_succ_r.
    replace (n * 2 ^ Z.of_nat (S k)) with (2 * (n * 2 ^ Z.of_nat k))
      by (rewrite Nat2Z.inj_succ, Z.pow_succ_r by lia; ring).
    rewrite shr_1_double by (pow2_facts; nia).
    apply IH, Hn.
Qed.

(** ** Rounding a value that needs no rounding *)

Lemma shr_exact (m n e s : Z) : 0 <= s -> 0 <= n -> m = n * 2 ^ s ->
  shr {| shr_m := m; shr_r := false; shr_s := false |} e s
  = ({| shr_m := n; shr_r := false; shr_s := false |}, e + s).
Proof.
  intros Hs Hn ->. destruct s as [| p | p]; [| | lia].
  - cbn. rewrite Z.mul_1_r, Z.add_0_r. reflexivity.
  - cbn [shr]. rewrite iter_pos_nat.
    pose proof (shr_1_iter_exact (Pos.to_nat p) n Hn) as H.
    rewrite positive_nat_Z in H. rewrite H. reflexivity.
Qed.

Lemma shr_fexp_exact (m : positive) (e n : Z) :
  0 <= shift_of m e -> 0 <= n -> Zpos m = n * 2 ^ shift_of m e ->
  shr_fexp prec emax (Zpos m) e loc_Exact
  = ({| shr_m := n; shr_r := false; shr_s := false |}, e + shift_of m e).
Proof. intros Hs Hn Hm. apply shr_exact; assumption. Qed.

(** Dividing out the shifted bits lands on the canonical exponent. *)
Lemma shift_of_div (m n : positive) (e : Z) :
  0 <= shift_of m e -> Zpos m = Zpos n * 2 ^ shift_of m e ->
  shift_of n (e + shift_of m e) = 0.
Proof.
  intros Hs Hm. unfold shift_of at 1. rewrite mag_log2.
  assert (Hl : Z.log2 (Zpos m) = Z.log2 (Zpos n) + shift_of m e)
    by (rewrite Hm, Z.log2_mul_pow2 by lia; lia).
  replace (Z.log2 (Zpos n) + 1 + (e + shift_of m e)) with (mag m e)
    by (rewrite mag_log2; lia).
  unfold shift_of. lia.
Qed.

Lemma round_aux_exact (sx : bool) (m n : positive) (e : Z) :
  0 <= shift_of m e -> Zpos m = Zpos n * 2 ^ shift_of m e ->
  binary_round_aux prec emax sx (Zpos m) e loc_Exact
  = if e + shift_of m e <=? emax - prec
    then S754_finite sx n (e + shift_of m e) else S754_infinity sx.
Proof.
  intros Hs Hm. unfold binary_round_aux.
  rewrite (shr_fexp_exact m e (Zpos n)) by (assumption || lia).
  cbn [shr_m loc_of_shr_record round_nearest_even].
  pose proof (shift_of_div m n e Hs Hm) as H0.
  rewrite (shr_fexp_exact n (e + shift_of m e) (Zpos n)) by (rewrite ?H0; lia).
  rewrite H0, Z.add_0_r. reflexivity.
Qed.

(** Two canonical representations of one value are the same. *)
Lemma canonical_unique (m1 m2 : positive) (e1 e2 : Z) :
  canonical_at m1 e1 -> canonical_at m2 e2 ->
  dy_eq (Zpos m1, e1) (Zpos m2, e2) -> m1 = m2 /\ e1 = e2.
Proof.
  unfold canonical_at, shift_of. intros C1 C2 H.
  pose proof (mag_dy _ _ _ _ H) as Hmag.
  rewrite Hmag in C1. assert (He : e1 = e2) by lia. subst e2.
  cbn in H. rewrite Z.min_id, Z.sub_diag in H. cbn in H.
  split; [lia | reflexivity].
Qed.

(** ** Integers of at most 53 bits are exact *)

Lemma pow2_divide (a b x : Z) : 0 <= a <= b -> (2 ^ a | x * 2 ^ b).
Proof.
  intros H. exists (x * 2 ^ (b - a)).
  rewrite <- Z.mul_assoc, <- pow2_add by lia. f_equal. f_equal. lia.
Qed.

Lemma log2_le_53 (v : positive) : Zpos v <= 2 ^ 53 ->
  Z.log2 (Zpos v) <= 53 /\ (Z.log2 (Zpos v) = 53 -> Zpos v = 2 ^ 53).
Proof.
  intros Hv. pose proof (Z.log2_spec (Zpos v) ltac:(lia)) as [Hlo Hhi].
  split.
  - apply (Z.log2_le_mono _ _) in Hv. rewrite Z.log2_pow2 in Hv; lia.
  - intros H53. rewrite H53 in Hlo. lia.
Qed.

(** If [m * 2^e] is an integer of at most 53 bits and the canonical exponent
    is not below [e], the bits rounding shifts out are zero. *)
Lemma int_exact (m v : positive) (e : Z) :
  dy_eq (Zpos m, e) (Zpos v, 0) -> Zpos v <= 2 ^ 53 -> 0 <= shift_of m e ->
  exact_at m e.
Proof.
  intros H Hv Hs. split; [exact Hs |].
  pose proof (log2_le_53 v Hv) as [Hl H53].
  assert (Hmag : mag m e = Z.log2 (Zpos v) + 1)
    by (rewrite (mag_dy _ _ _ _ H), mag_log2; lia).
  unfold shift_of in *. rewrite Hmag in *. rewrite fexp_eq in *.
  destruct (Z.le_gt_cases 0 e) as [He | He].
  - apply (dy_eq_at _ _ _ _ 0) in H; [| lia ..].
    rewrite Z.sub_0_r, Z.sub_diag, Z.mul_1_r in H.
    destruct (Z.eq_dec (Z.max (Z.log2 (Zpos v) + 1 - 53) (-1074) - e) 0) as [E | E].
    + rewrite E. apply Z.divide_1_l.
    + assert (Hl53 : Z.log2 (Zpos v) = 53) by lia.
      replace (Z.max (Z.log2 (Zpos v) + 1 - 53) (-1074) - e) with 1 by lia.
      assert (e = 0) by lia. subst e. rewrite Z.mul_1_r in H.
      rewrite H, (H53 Hl53). exists (2 ^ 52). reflexivity.
  - apply (dy_eq_at _ _ _ _ e) in H; [| lia ..].
    rewrite Z.sub_diag, Z.mul_1_r in H. rewrite H.
    destruct (Z.eq_dec (Z.log2 (Zpos v)) 53) as [E | E].
    + rewrite E, (H53 E), <- pow2_add by lia.
      rewrite <- (Z.mul_1_l (2 ^ (53 + (0 - e)))). apply pow2_divide. lia.
    + apply pow2_divide. lia.
Qed.

Lemma pos_iter_xO (m d : positive) : Zpos (Pos.iter xO m d) = Zpos m * 2 ^ Zpos d.
Proof.
  induction d as [| d IH] using Pos.peano_ind.
  - cbn [Pos.iter]. lia.
  - rewrite Pos.iter_succ, Pos2Z.inj_succ, Z.pow_succ_r by lia.
    change (Zpos (Pos.iter xO m d)~0) with (2 * Zpos (Pos.iter xO m d)).
    rewrite IH. ring.
Qed.

(** [shl_align] rewrites [m * 2^e] at a lower exponent and keeps its value. *)
Lemma shl_align_dy (m : positive) (e e' : Z) :
  dy_eq (Zpos (fst (shl_align m e e')), snd (shl_align m e e')) (Zpos m, e)
  /\ (e' < e -> snd (shl_align m e e') = e')
  /\ (e <= e' -> shl_align m e e' = (m, e)).
Proof.
  unfold shl_align. destruct (e' - e) as [| d | d] eqn:E; cbn [fst snd].
  - split; [reflexivity | split; intros; [lia | reflexivity]].
  - split; [reflexivity | split; intros; [lia | reflexivity]].
  - split; [| split; intros; [reflexivity | lia]].
    rewrite pos_iter_xO. replace e' with (e - Zpos d) by lia. apply dy_eq_shift. lia.
Qed.

(** The canonical double of an integer of at most 53 bits: rounding yields a
    canonical finite number of the same value. *)
Lemma round_aux_int (sx : bool) (m v : positive) (e : Z) :
  dy_eq (Zpos m, e) (Zpos v, 0) -> Zpos v <= 2 ^ 53 -> 0 <= shift_of m e ->
  exists n f, binary_round_aux prec emax sx (Zpos m) e loc_Exact = S754_finite sx n f
    /\ canonical_at n f /\ dy_eq (Zpos n, f) (Zpos v, 0).
Proof.
  intros H Hv Hs. destruct (int_exact m v e H Hv Hs) as [_ [w Hw]].
  assert (Hw0 : 0 < w) by (pow2_facts; nia).
  destruct w as [| n | n]; [lia | | lia].
  pose proof (log2_le_53 v Hv) as [Hl _].
  assert (Hmag : mag m e = Z.log2 (Zpos v) + 1)
    by (rewrite (mag_dy _ _ _ _ H), mag_log2; lia).
  exists n, (e + shift_of m e).
  rewrite (round_aux_exact sx m n e Hs Hw).
  assert (Hb : e + shift_of m e <= emax - prec).
  { unfold shift_of. rewrite Hmag, fexp_eq. unfold emax, prec. lia. }
  apply Z.leb_le in Hb. rewrite Hb.
  split; [reflexivity | split].
  - exact (shift_of_div m n e Hs Hw).
  - rewrite <- H, Hw. symmetry.
    pose proof (dy_eq_shift (Zpos n) (e + shift_of m e) (shift_of m e) Hs) as Hd.
    rewrite Z.add_simpl_r in Hd. exact Hd.
Qed.

(** Rounding depends only on the value when the value is a small integer. *)
Lemma round_aux_int_eq (sx : bool) (m v : positive) (e : Z) :
  dy_eq (Zpos m, e) (Zpos v, 0) -> Zpos v <= 2 ^ 53 -> 0 <= shift_of m e ->
  binary_round_aux prec emax sx (Zpos m) e loc_Exact = binary_round prec emax sx v 0.
Proof.
  intros H Hv Hs.
  destruct (round_aux_int sx m v e H Hv Hs) as (n1 & f1 & E1 & C1 & D1).
  unfold binary_round.
  destruct (shl_align_dy v 0 (fexp (mag v 0))) as (Dv & Hlt & Hge).
  destruct (shl_align v 0 (fexp (mag v 0))) as [mv ev] eqn:Ev; cbn [fst snd] in *.
  assert (Hsv : 0 <= shift_of mv ev).
  { destruct (Z.lt_ge_cases (fexp (mag v 0)) 0) as [Hc | Hc].
    - unfold shift_of. rewrite (mag_dy _ _ _ _ Dv), (Hlt Hc). lia.
    - specialize (Hge Hc). injection Hge as -> ->. unfold shift_of. lia. }
  destruct (round_aux_int sx mv v ev Dv Hv Hsv) as (n2 & f2 & E2 & C2 & D2).
  change (mag v 0) with (Zpos (digits2_pos v) + 0) in Ev.
  rewrite Ev, E1, E2.
  destruct (canonical_unique n1 n2 f1 f2 C1 C2 (transitivity D1 (symmetry D2))) as [-> ->].
  reflexivity.
Qed.

Lemma round_int_eq (sx : bool) (m v : positive) (e : Z) :
  dy_eq (Zpos m, e) (Zpos v, 0) -> Zpos v <= 2 ^ 53 ->
  binary_round prec emax sx m e = binary_round prec emax sx v 0.
Proof.
  intros H Hv. unfold binary_round at 1.
  destruct (shl_align_dy m e (fexp (mag m e))) as (Dm & Hlt & Hge).
  destruct (shl_align m e (fexp (mag m e))) as [m' e'] eqn:Em; cbn [fst snd] in *.
  change (Zpos (digits2_pos m) + e) with (mag m e). rewrite Em.
  apply round_aux_int_eq; [now rewrite Dm | exact Hv |].
  destruct (Z.lt_ge_cases (fexp (mag m e)) e) as [Hc | Hc].
  - unfold shift_of. rewrite (mag_dy _ _ _ _ Dm), (Hlt Hc). lia.
  - specialize (Hge Hc). injection Hge as -> ->. unfold shift_of. lia.
Qed.

(** The double of a nonzero integer of at most 53 bits is finite, canonical,
    carries the integer's sign, and denotes the integer. *)
Lemma of_Z_finite (n : Z) : n <> 0 -> Z.abs n <= 2 ^ 53 ->
  exists p f, of_Z n = S754_finite (n <? 0) p f
    /\ canonical_at p f /\ dy_eq (Zpos p, f) (Z.abs n, 0).
Proof.
  intros Hn Hb.
  destruct n as [| v | v]; [lia | |]; cbn [Z.abs] in *;
    unfold of_Z, binary_normalize, binary_round;
    destruct (shl_align_dy v 0 (fexp (mag v 0))) as (Dv & Hlt & Hge);
    destruct (shl_align v 0 (fexp (mag v 0))) as [mv ev] eqn:Ev; cbn [fst snd] in *;
    change (Zpos (digits2_pos v) + 0) with (mag v 0); rewrite Ev;
    (assert (Hsv : 0 <= shift_of mv ev);
     [ destruct (Z.lt_ge_cases (fexp (mag v 0)) 0) as [Hc | Hc];
       [ unfold shift_of; rewrite (mag_dy _ _ _ _ Dv), (Hlt Hc); lia
       | specialize (Hge Hc); injection Hge as -> ->; unfold shift_of; lia ]
     | apply round_aux_int; assumption ]).
Qed.

(** A product of two canonical mantissas is never below its canonical
    exponent, so rounding it only ever shifts right. *)
Lemma shift_of_mul (p1 p2 : positive) (f1 f2 : Z) :
  canonical_at p1 f1 -> canonical_at p2 f2 -> 0 <= shift_of (p1 * p2) (f1 + f2).
Proof.
  unfold canonical_at, shift_of. rewrite !mag_log2, !fexp_eq.
  pose proof (Z.log2_mul_below (Zpos p1) (Zpos p2) ltac:(lia) ltac:(lia)).
  pose proof (Z.log2_nonneg (Zpos p1)). pose proof (Z.log2_nonneg (Zpos p2)).
  rewrite Pos2Z.inj_mul. lia.
Qed.

Lemma of_Z_round (n : Z) : n <> 0 ->
  of_Z n = binary_round prec emax (n <? 0) (Z.to_pos (Z.abs n)) 0.
Proof. intros Hn. destruct n; [lia | reflexivity | reflexivity]. Qed.

(** Normalizing a mantissa whose value is a small integer yields that
    integer's double. *)
Lemma normalize_int (k e n : Z) :
  dy_eq (k, e) (n, 0) -> Z.abs n <= 2 ^ 53 ->
  binary_normalize prec emax k e false = of_Z n.
Proof.
  intros H Hn. destruct k as [| k | k]; cbn [binary_normalize].
  - rewrite (dy_eq_zero_l e n H). reflexivity.
  - apply dy_eq_sign in H as Hs. destruct n as [| v | v]; [lia | | lia].
    apply round_int_eq; assumption.
  - apply dy_eq_opp in H. apply dy_eq_sign in H as Hs.
    destruct n as [| v | v]; [lia | lia |]. apply round_int_eq; assumption.
Qed.

(** A double of a small integer, realigned to a lower exponent, still
    denotes the integer once its sign is applied. *)
Lemma aligned_dy (p : positive) (f ez n : Z) :
  dy_eq (Zpos p, f) (Z.abs n, 0) -> ez <= f ->
  dy_eq (cond_Zopp (n <? 0) (Zpos (fst (shl_align p f ez))), ez) (n, 0).
Proof.
  intros D Hle.
  destruct (shl_align_dy p f ez) as (Ds & Hlt & Hge).
  assert (Hsnd : snd (shl_align p f ez) = ez).
  { destruct (Z.lt_ge_cases ez f) as [Hc | Hc]; [exact (Hlt Hc) |].
    rewrite (Hge ltac:(lia)). cbn. lia. }
  rewrite Hsnd in Ds. rewrite D in Ds.
  destruct (Z.ltb_spec n 0); cbn [cond_Zopp].
  - apply dy_eq_opp in Ds. rewrite Z.abs_neq in Ds by lia.
    rewrite Z.opp_involutive in Ds. exact Ds.
  - rewrite Z.abs_eq in Ds by lia. exact Ds.
Qed.

(** ** The products and differences the income formulas compute *)

(** A product of two nonzero integers whose result has at most 53 bits is
    computed exactly. *)
Lemma mul_of_Z (a b : Z) : a <> 0 -> b <> 0 -> Z.abs (a * b) <= 2 ^ 53 ->
  mul (of_Z a) (of_Z b) = of_Z (a * b).
Proof.
  intros Ha Hb Hab. rewrite Z.abs_mul in Hab.
  assert (Hba : Z.abs a <= 2 ^ 53) by nia. assert (Hbb : Z.abs b <= 2 ^ 53) by nia.
  destruct (of_Z_finite a Ha Hba) as (pa & fa & Ea & Ca & Da).
  destruct (of_Z_finite b Hb Hbb) as (pb & fb & Eb & Cb & Db).
  rewrite Ea, Eb. unfold mul. cbn [SFmul].
  rewrite ltb_mul_sign, (of_Z_round (a * b)) by nia.
  apply round_aux_int_eq.
  - change (Zpos (pa * pb), fa + fb) with (dy_mul (Zpos pa, fa) (Zpos pb, fb)).
    rewrite Da, Db. cbn [dy_mul]. rewrite Z2Pos.id by nia. rewrite Z.abs_mul.
    reflexivity.
  - rewrite Z2Pos.id by nia. rewrite Z.abs_mul. exact Hab.
  - apply shift_of_mul; assumption.
Qed.

(** A difference of two integers of at most 53 bits whose result has at most
    53 bits is computed exactly. *)
Lemma sub_of_Z (a b : Z) :
  Z.abs a <= 2 ^ 53 -> Z.abs b <= 2 ^ 53 -> Z.abs (a - b) <= 2 ^ 53 ->
  sub (of_Z a) (of_Z b) = of_Z (a - b).
Proof.
  intros Ha Hb Hab.
  destruct (Z.eq_dec b 0) as [-> | Hb0].
  { rewrite Z.sub_0_r. destruct (Z.eq_dec a 0) as [-> | Ha0]; [reflexivity |].
    destruct (of_Z_finite a Ha0 Ha) as (pa & fa & -> & _). reflexivity. }
  destruct (of_Z_finite b Hb0 Hb) as (pb & fb & Eb & Cb & Db).
  destruct (Z.eq_dec a 0) as [-> | Ha0].
  - destruct (of_Z_finite (0 - b) ltac:(lia) ltac:(lia)) as (p & f & E & C & D).
    rewrite Eb, E. replace (Z.abs (0 - b)) with (Z.abs b) in D by lia.
    destruct (canonical_unique p pb f fb C Cb (transitivity D (symmetry Db))) as [-> ->].
    replace (0 - b <? 0) with (negb (b <? 0))
      by (destruct (Z.ltb_spec b 0), (Z.ltb_spec (0 - b) 0); cbn; lia).
    reflexivity.
  - destruct (of_Z_finite a Ha0 Ha) as (pa & fa & Ea & Ca & Da).
    rewrite Ea, Eb. unfold sub, SFsub.
    apply normalize_int; [| exact Hab].
    apply dy_eq_sub; apply aligned_dy; (assumption || lia).
Qed.

(** ** Rounding never loses a value above the subnormal range *)

Lemma shr_1_m (mrs : shr_record) : 0 <= shr_m mrs -> shr_m (shr_1 mrs) = shr_m mrs / 2.
Proof.
  destruct mrs as [m r s']; cbn [shr_m]. intros Hm.
  destruct m as [| [p | p |] | p]; cbn [shr_1 shr_m]; try lia.
  - reflexivity.
  - apply (Z.div_unique _ _ _ 1); lia.
  - apply (Z.div_unique _ _ _ 0); lia.
  - reflexivity.
Qed.

Lemma shr_1_iter_floor (k : nat) (mrs : shr_record) : 0 <= shr_m mrs ->
  shr_m (Nat.iter k shr_1 mrs) = shr_m mrs / 2 ^ Z.of_nat k.
Proof.
  revert mrs; induction k as [| k IH]; intros mrs Hm.
  - cbn. rewrite Z.div_1_r. reflexivity.
  - rewrite Nat.iter_succ_r.
    assert (H1 : 0 <= shr_m (shr_1 mrs)) by (rewrite shr_1_m by lia; apply Z.div_pos; lia).
    rewrite (IH _ H1), shr_1_m by lia.
    pose proof (pow2_pos (Z.of_nat k) ltac:(lia)).
    rewrite Z.div_div by lia.
    rewrite Nat2Z.inj_succ, Z.pow_succ_r by lia. f_equal; ring.
Qed.

Lemma shr_floor (mrs : shr_record) (e n : Z) : 0 <= shr_m mrs ->
  shr_m (fst (shr mrs e n)) = shr_m mrs / 2 ^ Z.max n 0
  /\ snd (shr mrs e n) = e + Z.max n 0.
Proof.
  intros Hm. destruct n as [| p | p]; cbn [shr fst snd].
  - rewrite Z.div_1_r. split; [reflexivity | lia].
  - rewrite iter_pos_nat, shr_1_iter_floor, positive_nat_Z by exact Hm.
    split; reflexivity.
  - cbn. rewrite Z.div_1_r. split; [reflexivity | lia].
Qed.

Lemma round_nearest_even_ge (mx : Z) (lx : location) : mx <= round_nearest_even mx lx.
Proof.
  destruct lx as [| [] ]; cbn; try lia. destruct (Z.even mx); lia.
Qed.

Lemma shift_lt_digits (m : positive) (e : Z) :
  SpecFloat.emin prec emax < mag m e -> 1 <= Zpos m / 2 ^ Z.max (shift_of m e) 0.
Proof.
  intros Hmin. unfold shift_of in *. rewrite fexp_eq. rewrite mag_log2 in *.
  change (SpecFloat.emin prec emax) with (-1074) in Hmin.
  pose proof (Z.log2_nonneg (Zpos m)).
  pose proof (Z.log2_spec (Zpos m) ltac:(lia)) as [Hlo _].
  apply Z.div_le_lower_bound; [apply pow2_pos; lia |]. rewrite Z.mul_1_r.
  eapply Z.le_trans; [| exact Hlo]. apply Z.pow_le_mono_r; lia.
Qed.

(** Rounding [m * 2^e] with [m > 0] and the value not below the smallest
    subnormal gives a nonzero number of sign [sx]: it never underflows to a
    zero and never produces NaN. *)
Lemma round_aux_nonzero (sx : bool) (m : positive) (e : Z) :
  SpecFloat.emin prec emax < mag m e ->
  signed_nonzero sx (binary_round_aux prec emax sx (Zpos m) e loc_Exact).
Proof.
  intros Hmin. unfold binary_round_aux, shr_fexp.
  change (Zdigits2 (Zpos m)) with (Zpos (digits2_pos m)).
  change (Zpos (digits2_pos m) + e) with (mag m e).
  pose proof (shr_floor {| shr_m := Zpos m; shr_r := false; shr_s := false |} e
                (fexp (mag m e) - e) ltac:(cbn; lia)) as [Hm1 He1].
  destruct (shr _ e (fexp (mag m e) - e)) as [mrs1 e1] eqn:E1. cbn [fst snd shr_m] in *.
  pose proof (shift_lt_digits m e Hmin) as Hge1. unfold shift_of in Hge1.
  set (r := round_nearest_even (shr_m mrs1) (loc_of_shr_record mrs1)).
  assert (Hr : 1 <= r) by (pose proof (round_nearest_even_ge (shr_m mrs1) (loc_of_shr_record mrs1)); unfold r; lia).
  pose proof (shr_floor (shr_record_of_loc r loc_Exact) e1
                (fexp (Zdigits2 r + e1) - e1) ltac:(cbn; lia)) as [Hm2 _].
  destruct (shr _ e1 _) as [mrs2 e2]. cbn [fst snd shr_record_of_loc shr_m] in *.
  assert (H2 : 1 <= shr_m mrs2).
  { rewrite Hm2. apply Z.div_le_lower_bound; [apply pow2_pos; lia |]. rewrite Z.mul_1_r.
    destruct r as [| q | q]; [lia | | lia]. cbn [Zdigits2].
    rewrite digits2_log2, fexp_eq.
    pose proof (Z.log2_spec (Zpos q) ltac:(lia)) as [Hlo _].
    assert (He1' : e1 >= -1074).
    { rewrite He1. rewrite fexp_eq. lia. }
    pose proof (Z.log2_nonneg (Zpos q)).
    eapply Z.le_trans; [| exact Hlo]. apply Z.pow_le_mono_r; lia. }
  destruct (shr_m mrs2) as [| p | p]; [lia | | lia].
  destruct (e2 <=? emax - prec); cbn; reflexivity.
Qed.

(** The double of a nonzero integer is never a zero and never NaN. *)
Lemma of_Z_nonzero (n : Z) : n <> 0 -> signed_nonzero (n <? 0) (of_Z n).
Proof.
  intros Hn. rewrite (of_Z_round n Hn). unfold binary_round.
  set (v := Z.to_pos (Z.abs n)).
  destruct (shl_align_dy v 0 (fexp (mag v 0))) as (Dv & _ & _).
  change (Zpos (digits2_pos v) + 0) with (mag v 0).
  destruct (shl_align v 0 (fexp (mag v 0))) as [mz ez]. cbn [fst snd] in Dv.
  apply round_aux_nonzero. rewrite (mag_dy _ _ _ _ Dv), mag_log2.
  pose proof (Z.log2_nonneg (Zpos v)). change (SpecFloat.emin prec emax) with (-1074). lia.
Qed.

Lemma signed_nonzero_truthy (sx : bool) (x : number) : signed_nonzero sx x -> truthy x = true.
Proof. destruct x; cbn; tauto. Qed.

(** [of_Z n || 0] is [of_Z n]: the only falsy double of an integer is [+0]. *)
Lemma or_else_of_Z (n : Z) : or_else (of_Z n) (of_Z 0) = of_Z n.
Proof.
  unfold or_else. destruct (Z.eq_dec n 0) as [-> | Hn]; [reflexivity |].
  rewrite (signed_nonzero_truthy _ _ (of_Z_nonzero n Hn)). reflexivity.
Qed.

(** Products of nonnegative integers of at most 53 bits, zero included, are
    exact. *)
Lemma mul_of_Z_nonneg (a b : Z) : 0 <= a <= 2 ^ 53 -> 0 <= b <= 2 ^ 53 -> a * b <= 2 ^ 53 ->
  mul (of_Z a) (of_Z b) = of_Z (a * b).
Proof.
  intros Ha Hb Hab.
  destruct (Z.eq_dec (a * b) 0) as [H0 | H0]; [| apply mul_of_Z; lia].
  rewrite H0. destruct (Z.eq_dec a 0) as [-> | Ha0].
  - destruct (Z.eq_dec b 0) as [-> | Hb0]; [reflexivity |].
    destruct (of_Z_finite b Hb0 ltac:(lia)) as (p & f & -> & _).
    replace (b <? 0) with false by (symmetry; apply Z.ltb_ge; lia). reflexivity.
  - assert (b = 0) as -> by nia.
    destruct (of_Z_finite a Ha0 ltac:(lia)) as (p & f & -> & _).
    replace (a <? 0) with false by (symmetry; apply Z.ltb_ge; lia). reflexivity.
Qed.

(** [number_eqb] decides equality of Numbers. *)
Lemma number_eqb_eq (x y : number) : number_eqb x y = true <-> x = y.
Proof.
  split.
  - destruct x, y; cbn; try discriminate; try (intros; reflexivity);
      rewrite ?Bool.andb_true_iff, ?Bool.eqb_true_iff, ?Pos.eqb_eq, ?Z.eqb_eq;
      intros; repeat match goal with H : _ /\ _ |- _ => destruct H end; subst; reflexivity.
  - intros <-. destruct x; cbn; rewrite ?Bool.eqb_reflx, ?Pos.eqb_refl, ?Z.eqb_refl; reflexivity.
Qed.

End Binary64Facts.
