(* ===== verification/Rounding.v ===== *)
(** * How far a rounded binary64 result is from the exact one

    [JsNumber.v] shows that the income formulas are exact while every
    intermediate value is an integer of at most 53 bits.  The monthly gross
    [weekly * 4.33] is not an integer, and the net figures subtract and
    multiply it further, so their doubles carry a rounding error.  This file
    bounds that error for the two operations the net figures use: a
    difference ([SFsub]) and a product ([SFmul]) of finite doubles are within
    one unit of the last place of the exact value, and the difference is
    exact when the exact value lies on the grid of the result.

    Values are compared as integers at a fixed scale [2^L] below every
    exponent involved: [val_at L x] is the double [x] divided by [2^L]. *)

From Stdlib Require Import ZArith Lia Bool SpecFloat.
From S2P Require Import Prelude JsNumber.
Open Scope Z_scope.

Module Rounding.
Import Binary64 Binary64Facts.

(** The value of a double in units of [2^L]: exact when [L] is not above
    its exponent; [0] for zeros, infinities and NaN. *)
Definition val_at (L : Z) (x : number) : Z :=
  match x with
  | S754_finite s m e => cond_Zopp s (Zpos m * 2 ^ (e - L))
  | _ => 0
  end.

(** A finite double of sign [s], canonical, with exponent at least [lo]. *)
Definition rounded (lo : Z) (s : bool) (x : number) : Prop :=
  exists n f, x = S754_finite s n f /\ lo <= f /\ canonical_at n f.

(** ** Helpers shared by the error bounds *)

Lemma mag_below (p : positive) (e L B : Z) : L <= e ->
  Zpos p * 2 ^ (e - L) < 2 ^ (B - L) -> mag p e <= B.
Proof.
  intros HL Hlt. rewrite mag_log2. pose proof (pow2_pos (e - L) ltac:(lia)).
  assert (Hl : Z.log2 (Zpos p * 2 ^ (e - L)) < B - L)
    by (apply Z.log2_lt_pow2; [nia | exact Hlt]).
  rewrite Z.log2_mul_pow2 in Hl by lia. lia.
Qed.

Lemma cond_Zopp_dist (s : bool) (a b : Z) :
  Z.abs (cond_Zopp s a - cond_Zopp s b) = Z.abs (a - b).
Proof.
  destruct s; cbn [cond_Zopp]; [| reflexivity].
  replace (- a - - b) with (- (a - b)) by ring. apply Z.abs_opp.
Qed.

Lemma cond_Zopp_mul (s : bool) (a b : Z) : cond_Zopp s a * b = cond_Zopp s (a * b).
Proof. destruct s; cbn [cond_Zopp]; ring. Qed.

Lemma abs_cond_Zopp (s : bool) (a : Z) : Z.abs (cond_Zopp s a) = Z.abs a.
Proof. destruct s; cbn [cond_Zopp]; [apply Z.abs_opp | reflexivity]. Qed.

(** ** The two shifts of [binary_round_aux] *)

Lemma round_nearest_even_le (mx : Z) (lx : location) : round_nearest_even mx lx <= mx + 1.
Proof. destruct lx as [| [] ]; cbn; try lia. destruct (Z.even mx); lia. Qed.

Lemma Zdigits2_log2 (r : Z) : 0 < r -> Zdigits2 r = Z.log2 r + 1.
Proof. destruct r as [| p | p]; try lia. intros _. apply digits2_log2. Qed.

(** After the first shift the mantissa [q] has the magnitude of [m]. *)
Lemma first_shift_mag (m : positive) (e : Z) : 0 <= shift_of m e ->
  1 <= Zpos m / 2 ^ shift_of m e ->
  Z.log2 (Zpos m / 2 ^ shift_of m e) + 1 + (e + shift_of m e) = mag m e.
Proof.
  intros Hs Hq. rewrite <- Z.shiftr_div_pow2 by exact Hs.
  rewrite Z.log2_shiftr by lia. rewrite mag_log2.
  assert (Z.log2 (Zpos m) >= shift_of m e).
  { destruct (Z.lt_ge_cases (Z.log2 (Zpos m)) (shift_of m e)) as [Hlt | ]; [| lia].
    rewrite Z.div_small in Hq; [lia |].
    pose proof (Z.log2_spec (Zpos m) ltac:(lia)) as [_ Hhi].
    split; [lia |]. eapply Z.lt_le_trans; [exact Hhi |]. apply Z.pow_le_mono_r; lia. }
  lia.
Qed.

(** Rounding up by one may carry into a new binary digit, and then only
    into a power of two: the second shift drops at most one bit, a zero. *)
Lemma second_shift (q r e1 : Z) : 1 <= q -> q <= r <= q + 1 ->
  fexp (Z.log2 q + 1 + e1) <= e1 ->
  Z.max (fexp (Z.log2 r + 1 + e1) - e1) 0 <= 1
  /\ (2 ^ Z.max (fexp (Z.log2 r + 1 + e1) - e1) 0 | r).
Proof.
  intros Hq Hr Hc. rewrite !fexp_eq in *.
  assert (Hz : r = q \/ Z.log2 r = Z.log2 q \/
              (Z.log2 r = Z.succ (Z.log2 q) /\ exists b, r = 2 ^ b)).
  { destruct (Z.eq_dec r q) as [| Hne]; [now left | right].
    assert (r = Z.succ q) as -> by lia.
    destruct (Z.log2_succ_or q) as [E | E]; [right | now left].
    split; [exact E | apply (Z.log2_eq_succ_is_pow2 q E)]. }
  destruct Hz as [-> | [E | [E [b Hb]]]]; rewrite ?E.
  - replace (Z.max (Z.max (Z.log2 q + 1 + e1 - 53) (-1074) - e1) 0) with 0 by lia.
    split; [lia | apply Z.divide_1_l].
  - replace (Z.max (Z.max (Z.log2 q + 1 + e1 - 53) (-1074) - e1) 0) with 0 by lia.
    split; [lia | apply Z.divide_1_l].
  - assert (Hb0 : 1 <= b).
    { destruct (Z.lt_ge_cases b 1) as [Hlt | ]; [| lia].
      destruct (Z.eq_dec b 0) as [-> | Hne];
        [rewrite Z.pow_0_r in Hb | rewrite Z.pow_neg_r in Hb by lia];
        assert (r = q) as -> by lia; lia. }
    split; [lia |]. rewrite Hb, <- (Z.mul_1_l (2 ^ b)). apply pow2_divide. lia.
Qed.

(** Rounding to the grid [2^g] moves a value [m * D * P] with [q = m / D]
    to [r * D * P] with [r] the floor [q] or [q + 1]: by at most [D * P]. *)
Lemma floor_error (m D P q r : Z) : 0 < D -> 0 <= P -> q = m / D -> q <= r <= q + 1 ->
  Z.abs (r * D * P - m * P) <= D * P.
Proof.
  intros HD HP -> Hr.
  pose proof (Z.mul_div_le m D HD). pose proof (Z.mul_succ_div_gt m D HD).
  replace (r * D * P - m * P) with ((r * D - m) * P) by ring.
  rewrite Z.abs_mul, (Z.abs_eq P) by lia.
  apply Z.mul_le_mono_nonneg_r; [lia |]. apply Z.abs_le. nia.
Qed.

(** ** Rounding a positive mantissa *)

Lemma shr_m_of_loc (m : Z) (l : location) : shr_m (shr_record_of_loc m l) = m.
Proof. destruct l as [| [] ]; reflexivity. Qed.

(** The shape of [binary_round_aux] on [m * 2^e] with the location [l] of
    the bits already dropped, [e] not above the canonical exponent and the
    value between the subnormal range and [2^1000]: a canonical finite
    double of sign [sx] whose value, on the grid [2^(fexp (mag m e))], is
    the mantissa after the first shift rounded to nearest even (the second
    shift only drops a zero bit). *)
Lemma round_aux_shape (sx : bool) (m : positive) (e : Z) (l : location) :
  SpecFloat.emin prec emax < mag m e -> 0 <= shift_of m e -> mag m e <= 1000 ->
  let mrs := fst (shr (shr_record_of_loc (Zpos m) l) e (shift_of m e)) in
  exists n f, binary_round_aux prec emax sx (Zpos m) e l = S754_finite sx n f
    /\ fexp (mag m e) <= f /\ canonical_at n f
    /\ Zpos n * 2 ^ (f - fexp (mag m e)) = round_nearest_even (shr_m mrs) (loc_of_shr_record mrs).
Proof.
  intros Hmin Hs Hmax mrs. unfold binary_round_aux, shr_fexp.
  change (Zdigits2 (Zpos m)) with (Zpos (digits2_pos m)).
  change (Zpos (digits2_pos m) + e) with (mag m e). fold (shift_of m e).
  pose proof (shr_floor (shr_record_of_loc (Zpos m) l) e (shift_of m e)
                ltac:(rewrite shr_m_of_loc; lia)) as [Hm1 He1].
  rewrite shr_m_of_loc in Hm1. unfold mrs in *.
  destruct (shr _ e (shift_of m e)) as [mrs1 e1]. cbn [fst snd] in *.
  rewrite Z.max_l in Hm1, He1 by exact Hs.
  pose proof (shift_lt_digits m e Hmin) as Hq. rewrite Z.max_l in Hq by exact Hs.
  pose proof (first_shift_mag m e Hs Hq) as Hmag.
  rewrite <- Hm1 in Hq, Hmag. rewrite <- He1 in Hmag.
  set (r := round_nearest_even (shr_m mrs1) (loc_of_shr_record mrs1)).
  assert (Hr : shr_m mrs1 <= r <= shr_m mrs1 + 1)
    by (split; [apply round_nearest_even_ge | apply round_nearest_even_le]).
  assert (He1' : e1 = fexp (mag m e)) by (unfold shift_of in He1; lia).
  assert (Hc : fexp (Z.log2 (shr_m mrs1) + 1 + e1) <= e1) by (rewrite Hmag; lia).
  destruct (second_shift _ r e1 Hq Hr Hc) as [HS2 [k Hk]].
  rewrite Zdigits2_log2 by lia.
  pose proof (shr_floor (shr_record_of_loc r loc_Exact) e1
                (fexp (Z.log2 r + 1 + e1) - e1) ltac:(cbn; lia)) as [Hm2 He2].
  destruct (shr _ e1 _) as [mrs2 e2]. cbn [fst snd shr_record_of_loc shr_m] in *.
  set (S2 := Z.max (fexp (Z.log2 r + 1 + e1) - e1) 0) in *.
  assert (HS2' : 0 <= S2) by lia. pose proof (pow2_pos S2 HS2') as HP2.
  assert (Hk1 : 1 <= k) by nia.
  rewrite Hk, Z.div_mul in Hm2 by lia. rewrite Hm2.
  destruct k as [| n | n]; try lia.
  assert (Hfin : e2 <= emax - prec)
    by (rewrite He2, He1'; rewrite fexp_eq in *; unfold emax, prec; lia).
  apply Z.leb_le in Hfin. rewrite Hfin.
  exists n, e2. split; [reflexivity |]. split; [lia |]. split.
  - unfold canonical_at, shift_of. rewrite mag_log2.
    assert (Hlr : Z.log2 r = S2 + Z.log2 (Zpos n)) by (rewrite Hk; apply Z.log2_mul_pow2; lia).
    assert (Hlq : Z.log2 (shr_m mrs1) <= Z.log2 r) by (apply Z.log2_le_mono; lia).
    unfold S2 in *. rewrite ?fexp_eq in *. lia.
  - rewrite Hk, He2, He1'. do 2 f_equal. lia.
Qed.

(** With no bits dropped yet ([loc_Exact]): the result is within one unit
    of the grid [2^(fexp (mag m e))] of the exact value. *)
Lemma round_aux_error (sx : bool) (m : positive) (e L : Z) :
  SpecFloat.emin prec emax < mag m e -> 0 <= shift_of m e -> L <= e -> mag m e <= 1000 ->
  exists n f, binary_round_aux prec emax sx (Zpos m) e loc_Exact = S754_finite sx n f
    /\ fexp (mag m e) <= f /\ canonical_at n f
    /\ Z.abs (Zpos n * 2 ^ (f - L) - Zpos m * 2 ^ (e - L)) <= 2 ^ (fexp (mag m e) - L).
Proof.
  intros Hmin Hs HL Hmax.
  destruct (round_aux_shape sx m e loc_Exact Hmin Hs Hmax) as (n & f & R & Hf & C & Hn).
  exists n, f. split; [exact R |]. split; [exact Hf |]. split; [exact C |].
  pose proof (shr_floor (shr_record_of_loc (Zpos m) loc_Exact) e (shift_of m e)
                ltac:(cbn; lia)) as [Hm1 _].
  rewrite Z.max_l in Hm1 by exact Hs. rewrite shr_m_of_loc in Hm1.
  set (mrs := fst (shr (shr_record_of_loc (Zpos m) loc_Exact) e (shift_of m e))) in *.
  pose proof (floor_error (Zpos m) (2 ^ shift_of m e) (2 ^ (e - L)) _ _
                ltac:(auto with jsmodel) ltac:(pow2_facts; lia) Hm1
                (conj (round_nearest_even_ge _ (loc_of_shr_record mrs))
                      (round_nearest_even_le _ (loc_of_shr_record mrs)))) as E.
  rewrite <- Hn in E.
  replace (f - L) with ((f - fexp (mag m e)) + (shift_of m e + (e - L))) by (unfold shift_of; lia).
  replace (fexp (mag m e) - L) with (shift_of m e + (e - L)) by (unfold shift_of; lia).
  rewrite !pow2_add, !Z.mul_assoc by (unfold shift_of in *; lia). exact E.
Qed.

(** [binary_round] aligns [m * 2^e] to the canonical exponent first, so the
    same bound holds for any [e]; and a value already on the grid
    [2^(fexp (mag m e))] is kept exactly. *)
Lemma round_error (sx : bool) (m : positive) (e L : Z) :
  SpecFloat.emin prec emax < mag m e -> L <= Z.min e (fexp (mag m e)) -> mag m e <= 1000 ->
  exists n f, binary_round prec emax sx m e = S754_finite sx n f
    /\ fexp (mag m e) <= f /\ canonical_at n f
    /\ Z.abs (Zpos n * 2 ^ (f - L) - Zpos m * 2 ^ (e - L)) <= 2 ^ (fexp (mag m e) - L)
    /\ ((2 ^ (fexp (mag m e) - L) | Zpos m * 2 ^ (e - L)) ->
        Zpos n * 2 ^ (f - L) = Zpos m * 2 ^ (e - L)).
Proof.
  intros Hmin HL Hmax. unfold binary_round.
  change (Zpos (digits2_pos m) + e) with (mag m e).
  destruct (shl_align_dy m e (fexp (mag m e))) as (D & Hlt & Hge).
  destruct (shl_align m e (fexp (mag m e))) as [m' e'] eqn:E; cbn [fst snd] in *.
  pose proof (mag_dy _ _ _ _ D) as Hmag.
  assert (He' : e' = Z.min e (fexp (mag m e))).
  { destruct (Z.lt_ge_cases (fexp (mag m e)) e) as [Hc | Hc];
      [rewrite (Hlt Hc); lia | injection (Hge Hc); lia]. }
  assert (Hs : 0 <= shift_of m' e') by (unfold shift_of; rewrite Hmag; lia).
  apply (proj1 (dy_eq_at (Zpos m') e' (Zpos m) e L ltac:(lia) ltac:(lia))) in D.
  destruct (round_aux_error sx m' e' L ltac:(lia) Hs ltac:(lia) ltac:(lia))
    as (n & f & R & Hf & C & Err).
  exists n, f. rewrite Hmag in *. rewrite <- D.
  split; [exact R |]. split; [exact Hf |]. split; [exact C |]. split; [exact Err |].
  intros [c Hc].
  assert (Hsh : fexp (mag m e) - L = shift_of m' e' + (e' - L))
    by (unfold shift_of; rewrite Hmag; lia).
  rewrite Hsh, pow2_add in Hc by lia.
  rewrite Z.mul_assoc in Hc. apply Z.mul_cancel_r in Hc; [| pow2_facts; lia].
  assert (Hc0 : 0 < c) by (pow2_facts; nia).
  destruct c as [| c | c]; try lia.
  rewrite (round_aux_exact sx m' c e' Hs Hc) in R.
  destruct (e' + shift_of m' e' <=? emax - prec); [| discriminate].
  injection R as <- <-. rewrite Hc, <- Z.mul_assoc, <- pow2_add by lia.
  f_equal. f_equal. lia.
Qed.

(** [binary_normalize] of a nonzero integer mantissa [k] at exponent [e],
    the value below [2^B]: a canonical double of the sign of [k] within
    [2^(B - 53)] of [k * 2^e], exact when [k * 2^e] is a multiple of
    [2^(B - 53)]. *)
Lemma normalize_error (k e L B : Z) :
  k <> 0 -> -1074 <= e -> L <= e - 52 -> -1000 <= B <= 1000 ->
  Z.abs k * 2 ^ (e - L) < 2 ^ (B - L) ->
  rounded (e - 52) (k <? 0) (binary_normalize prec emax k e false)
  /\ Z.abs (val_at L (binary_normalize prec emax k e false) - k * 2 ^ (e - L)) <= 2 ^ (B - 53 - L)
  /\ ((2 ^ (B - 53 - L) | k * 2 ^ (e - L)) ->
      val_at L (binary_normalize prec emax k e false) = k * 2 ^ (e - L)).
Proof.
  intros Hk He HL HB Hlt.
  assert (Hp : exists sx p, binary_normalize prec emax k e false = binary_round prec emax sx p e
            /\ sx = (k <? 0) /\ k = cond_Zopp sx (Zpos p)).
  { destruct k as [| p | p]; [lia | exists false, p | exists true, p]; repeat split. }
  destruct Hp as (sx & p & -> & Hsx & ->).
  assert (Habs : Z.abs (cond_Zopp sx (Zpos p)) = Zpos p) by (destruct sx; reflexivity).
  rewrite Habs in Hlt.
  pose proof (mag_below p e L B ltac:(lia) Hlt) as Hmag.
  assert (Hlo : e + 1 <= mag p e) by (rewrite mag_log2; pose proof (Z.log2_nonneg (Zpos p)); lia).
  assert (Hf : e + 1 - 53 <= fexp (mag p e) <= B - 53) by (rewrite fexp_eq; lia).
  destruct (round_error sx p e L ltac:(change (SpecFloat.emin prec emax) with (-1074); lia)
              ltac:(lia) ltac:(lia)) as (n & f & R & Hfn & C & Err & Ex).
  rewrite R, <- Hsx. cbn [val_at].
  assert (Hg : (2 ^ (fexp (mag p e) - L) | 2 ^ (B - 53 - L))).
  { rewrite <- (Z.mul_1_l (2 ^ (B - 53 - L))). apply pow2_divide. lia. }
  rewrite cond_Zopp_mul.
  split; [exists n, f; split; [reflexivity | split; [lia | exact C]] |]. split.
  - assert (HE : 2 ^ (fexp (mag p e) - L) <= 2 ^ (B - 53 - L)) by (apply Z.pow_le_mono_r; lia).
    rewrite cond_Zopp_dist. lia.
  - intros Hd. assert (Hd' : (2 ^ (fexp (mag p e) - L) | Zpos p * 2 ^ (e - L))).
    { eapply Z.divide_trans; [exact Hg |]. destruct sx; [| exact Hd].
      apply Z.divide_opp_r. exact Hd. }
    rewrite (Ex Hd'). reflexivity.
Qed.

(** ** Differences and products of finite doubles *)

(** A mantissa aligned down to a common exponent [ez] keeps its value. *)
Lemma aligned_val (s : bool) (m : positive) (e ez L : Z) : ez <= e -> L <= ez ->
  cond_Zopp s (Zpos (fst (shl_align m e ez))) * 2 ^ (ez - L) = val_at L (S754_finite s m e).
Proof.
  intros H1 H2. destruct (shl_align_dy m e ez) as (D & Hlt & Hge).
  assert (Hsnd : snd (shl_align m e ez) = ez).
  { destruct (Z.lt_ge_cases ez e) as [Hc | Hc]; [exact (Hlt Hc) |].
    rewrite (Hge ltac:(lia)). cbn. lia. }
  rewrite Hsnd in D.
  apply (proj1 (dy_eq_at (Zpos (fst (shl_align m e ez))) ez (Zpos m) e L H2 ltac:(lia))) in D.
  cbn [val_at]. rewrite cond_Zopp_mul, D. reflexivity.
Qed.

(** [x - y] of two finite doubles whose exact difference [D] is below
    [2^B]: [+0] when [D = 0]; otherwise a canonical double of the sign of
    [D], within [2^(B - 53)] of [D], and equal to [D] when [D] is a multiple
    of [2^(B - 53)]. *)
Lemma sub_error (sx sy : bool) (mx my : positive) (ex ey L B : Z) :
  -1074 <= Z.min ex ey -> L <= Z.min ex ey - 52 -> -1000 <= B <= 1000 ->
  let D := val_at L (S754_finite sx mx ex) - val_at L (S754_finite sy my ey) in
  Z.abs D < 2 ^ (B - L) ->
  (D = 0 /\ sub (S754_finite sx mx ex) (S754_finite sy my ey) = S754_zero false)
  \/ (D <> 0 /\ rounded (Z.min ex ey - 52) (D <? 0) (sub (S754_finite sx mx ex) (S754_finite sy my ey))
      /\ Z.abs (val_at L (sub (S754_finite sx mx ex) (S754_finite sy my ey)) - D) <= 2 ^ (B - 53 - L)
      /\ ((2 ^ (B - 53 - L) | D) -> val_at L (sub (S754_finite sx mx ex) (S754_finite sy my ey)) = D)).
Proof.
  intros He HL HB D HD. unfold sub. cbn [SFsub].
  set (ez := Z.min ex ey) in *.
  match goal with |- context [binary_normalize _ _ ?k0 _ false] => set (k := k0) end.
  assert (Hk : k * 2 ^ (ez - L) = D)
    by (unfold k, D; rewrite Z.mul_sub_distr_r, !aligned_val by lia; reflexivity).
  pose proof (pow2_pos (ez - L) ltac:(lia)) as HP.
  destruct (Z.eq_dec k 0) as [Hk0 | Hk0].
  - left. split; [rewrite <- Hk, Hk0; reflexivity | rewrite Hk0; reflexivity].
  - right. assert (Hb : Z.abs k * 2 ^ (ez - L) < 2 ^ (B - L))
      by (rewrite <- (Z.abs_eq (2 ^ (ez - L))), <- Z.abs_mul, Hk by lia; exact HD).
    replace (D <? 0) with (k <? 0)
      by (rewrite <- Hk; destruct (Z.ltb_spec k 0), (Z.ltb_spec (k * 2 ^ (ez - L)) 0); nia).
    rewrite <- Hk. split; [nia |]. apply (normalize_error k ez L B); assumption.
Qed.

(** [x * y] of two canonical finite doubles whose exact product [P] is below
    [2^B]: a canonical double of sign [xorb sx sy] within [2^(B - 53)] of
    [P]. *)
Lemma mul_error (sx sy : bool) (mx my : positive) (ex ey L B : Z) :
  canonical_at mx ex -> canonical_at my ey -> -1074 <= ex + ey -> L <= ex + ey ->
  -1021 <= B <= 1000 ->
  let P := cond_Zopp (xorb sx sy) (Zpos (mx * my) * 2 ^ (ex + ey - L)) in
  Z.abs P < 2 ^ (B - L) ->
  rounded (ex + ey) (xorb sx sy) (mul (S754_finite sx mx ex) (S754_finite sy my ey))
  /\ Z.abs (val_at L (mul (S754_finite sx mx ex) (S754_finite sy my ey)) - P) <= 2 ^ (B - 53 - L).
Proof.
  intros Cx Cy He HL HB P HP. unfold mul. cbn [SFmul].
  unfold P in HP. rewrite abs_cond_Zopp, Z.abs_eq in HP by (pow2_facts; lia).
  pose proof (mag_below (mx * my) (ex + ey) L B HL HP) as Hmag.
  pose proof (shift_of_mul mx my ex ey Cx Cy) as Hs.
  assert (Hlo : ex + ey + 1 <= mag (mx * my) (ex + ey))
    by (rewrite mag_log2; pose proof (Z.log2_nonneg (Zpos (mx * my))); lia).
  destruct (round_aux_error (xorb sx sy) (mx * my) (ex + ey) L
              ltac:(change (SpecFloat.emin prec emax) with (-1074); lia) Hs HL ltac:(lia))
    as (n & f & R & Hf & C & Err).
  rewrite R.
  assert (Hf' : ex + ey <= f) by (unfold shift_of in Hs; lia).
  split; [exists n, f; split; [reflexivity | split; [exact Hf' | exact C]] |].
  cbn [val_at]. unfold P. rewrite cond_Zopp_dist.
  assert (HE : 2 ^ (fexp (mag (mx * my) (ex + ey)) - L) <= 2 ^ (B - 53 - L))
    by (apply Z.pow_le_mono_r; [lia | rewrite fexp_eq; lia]).
  lia.
Qed.

(** The double of a nonzero integer of at most 53 bits: canonical, exponent
    at least [-52], and its value at any scale [2^L] with [L <= -52]. *)
Lemma val_of_Z (n L : Z) : n <> 0 -> Z.abs n <= 2 ^ 53 -> L <= -52 ->
  exists p f, of_Z n = S754_finite (n <? 0) p f /\ canonical_at p f /\ -52 <= f
    /\ val_at L (of_Z n) = n * 2 ^ (- L).
Proof.
  intros Hn Hb HL. destruct (of_Z_finite n Hn Hb) as (p & f & E & C & D).
  assert (Hf : -52 <= f).
  { assert (Hm : mag p f = Z.log2 (Z.abs n) + 1).
    { destruct n as [| v | v]; [lia | |]; cbn [Z.abs] in *;
        rewrite (mag_dy _ _ _ _ D), mag_log2; lia. }
    unfold canonical_at, shift_of in C. rewrite Hm, fexp_eq in C.
    pose proof (Z.log2_nonneg (Z.abs n)). lia. }
  exists p, f. split; [exact E |]. split; [exact C |]. split; [exact Hf |].
  rewrite E. cbn [val_at].
  apply (proj1 (dy_eq_at (Zpos p) f (Z.abs n) 0 L ltac:(lia) ltac:(lia))) in D.
  rewrite D, Z.sub_0_l. destruct (Z.ltb_spec n 0); cbn [cond_Zopp].
  - rewrite Z.abs_neq by lia. ring.
  - rewrite Z.abs_eq by lia. reflexivity.
Qed.

(** The exact product of two finite doubles, at scale [2^L]. *)
Lemma mul_val (sx sy : bool) (mx my : positive) (ex ey L : Z) :
  L <= ex -> L <= ey -> L <= ex + ey -> L <= 0 ->
  cond_Zopp (xorb sx sy) (Zpos (mx * my) * 2 ^ (ex + ey - L)) * 2 ^ (- L)
  = val_at L (S754_finite sx mx ex) * val_at L (S754_finite sy my ey).
Proof.
  intros Hx Hy Hxy HL.
  assert (H : 2 ^ (ex + ey - L) * 2 ^ (- L) = 2 ^ (ex - L) * 2 ^ (ey - L))
    by (rewrite <- !pow2_add by lia; f_equal; lia).
  cbn [val_at]. rewrite cond_Zopp_mul, Pos2Z.inj_mul, <- Z.mul_assoc, H.
  destruct sx, sy; cbn [cond_Zopp xorb]; ring.
Qed.

End Rounding.
