(* ===== verification/Nearest.v ===== *)
(** * Correct rounding: SpecFloat rounds to the nearest double

    [Rounding.v] bounds the error of a binary64 result by one unit in the
    last place, which is all the display refinement needs.  ECMA-262 asks
    for more: every operation, and the conversion of a numeric literal such
    as [4.33], rounds to the {e nearest} double.  This file proves that
    [SpecFloat]'s rounding meets that: the bits shifted out are tracked by a
    location ([loc_spec]: on the grid point, below, on or above the
    midpoint), [round_nearest_even] moves by at most half a unit, and so the
    result of [binary_round_aux], and of the division [SFdiv] the model of
    a literal uses, is within half a unit in the last place of the exact
    quotient. *)

From Stdlib Require Import ZArith Lia Bool SpecFloat.
From S2P Require Import Prelude JsNumber Rounding.
Open Scope Z_scope.

Module Nearest.
Import Binary64 Binary64Facts Rounding.

(** [loc_spec q num den l]: the rational [num / den] lies in [[q, q + 1)]
    and [l] says where: on [q], below the midpoint, on it, or above it. *)
Definition loc_spec (q num den : Z) (l : location) : Prop :=
  q * den <= num < (q + 1) * den /\
  match l with
  | loc_Exact => num = q * den
  | loc_Inexact Lt => q * den < num /\ 2 * (num - q * den) < den
  | loc_Inexact Eq => 2 * (num - q * den) = den
  | loc_Inexact Gt => den < 2 * (num - q * den)
  end.

(** The Number value for [num / den] (ECMA-262 6.1.6.1): a double no
    valid double is nearer to; values compared in units of [2^-1074], the
    smallest positive double. *)
Definition nearest_double (x : number) (num den : Z) : Prop :=
  forall (s : bool) (mz : positive) (ez : Z), valid_binary prec emax (S754_finite s mz ez) = true ->
    Z.abs (val_at (-1074) x * den - num * 2 ^ 1074)
    <= Z.abs (val_at (-1074) (S754_finite s mz ez) * den - num * 2 ^ 1074).

(** ** The location bits of a right shift *)

(** One bit shifted out: the old round bit joins the sticky bit, the
    dropped bit becomes the round bit. *)
Lemma shr_1_loc (mrs : shr_record) (num den : Z) : 0 <= shr_m mrs -> 0 < den ->
  loc_spec (shr_m mrs) num den (loc_of_shr_record mrs) ->
  loc_spec (shr_m (shr_1 mrs)) num (2 * den) (loc_of_shr_record (shr_1 mrs)).
Proof.
  destruct mrs as [m r s]. cbn [shr_m]. intros Hm Hd.
  destruct m as [| [p | p |] | p]; try lia;
    destruct r, s; cbn [shr_1 shr_m orb loc_of_shr_record]; unfold loc_spec; lia.
Qed.

Lemma shr_iter_loc (k : nat) : forall (mrs : shr_record) (num den : Z),
  0 <= shr_m mrs -> 0 < den ->
  loc_spec (shr_m mrs) num den (loc_of_shr_record mrs) ->
  loc_spec (shr_m (Nat.iter k shr_1 mrs)) num (2 ^ Z.of_nat k * den)
           (loc_of_shr_record (Nat.iter k shr_1 mrs)).
Proof.
  induction k as [| k IH]; intros mrs num den Hm Hd H.
  - rewrite Nat2Z.inj_0, Z.pow_0_r, Z.mul_1_l. exact H.
  - rewrite Nat.iter_succ_r.
    replace (2 ^ Z.of_nat (S k) * den) with (2 ^ Z.of_nat k * (2 * den))
      by (rewrite Nat2Z.inj_succ, Z.pow_succ_r by lia; ring).
    apply IH; [rewrite shr_1_m by lia; apply Z.div_pos; lia | lia |].
    apply shr_1_loc; assumption.
Qed.

(** A shift by [n] places divides the denominator's unit by [2^n]. *)
Lemma shr_loc (mrs : shr_record) (e n num den : Z) : 0 <= shr_m mrs -> 0 < den ->
  loc_spec (shr_m mrs) num den (loc_of_shr_record mrs) ->
  loc_spec (shr_m (fst (shr mrs e n))) num (2 ^ Z.max n 0 * den)
           (loc_of_shr_record (fst (shr mrs e n))).
Proof.
  intros Hm Hd H. destruct n as [| p | p]; cbn [shr fst].
  - rewrite Z.mul_1_l. exact H.
  - rewrite iter_pos_nat. replace (Z.max (Zpos p) 0) with (Z.of_nat (Pos.to_nat p)) by lia.
    apply shr_iter_loc; assumption.
  - rewrite Z.mul_1_l. exact H.
Qed.

(** Rounding to nearest, ties to even, moves a value by at most half a
    unit; a tie is rounded to an even mantissa. *)
Lemma round_nearest_half (q num den : Z) (l : location) : 0 < den ->
  loc_spec q num den l ->
  Z.abs (2 * (round_nearest_even q l * den - num)) <= den.
Proof.
  intros Hd [Hb Hl]. destruct l as [| [] ]; cbn [round_nearest_even].
  - lia.
  - destruct (Z.even q); lia.
  - lia.
  - lia.
Qed.

Lemma round_nearest_tie (q num den : Z) : 0 < den ->
  loc_spec q num den (loc_Inexact Eq) -> Z.even (round_nearest_even q (loc_Inexact Eq)) = true.
Proof.
  intros _ _. cbn [round_nearest_even]. destruct (Z.even q) eqn:E; [exact E |].
  rewrite Z.even_add, E. reflexivity.
Qed.

Lemma loc_of_record_of_loc (m : Z) (l : location) : loc_of_shr_record (shr_record_of_loc m l) = l.
Proof. destruct l as [| [] ]; reflexivity. Qed.

(** ** Rounding to nearest *)

(** [binary_round_aux] on the value [num / den * 2^e], given by its
    truncation [m] and the location [l] of the rest: the result is within
    half a unit of the grid [2^(fexp (mag m e))] of the value. *)
Lemma round_aux_nearest (sx : bool) (m : positive) (e : Z) (l : location) (num den L : Z) :
  SpecFloat.emin prec emax < mag m e -> 0 <= shift_of m e -> L <= e -> mag m e <= 1000 ->
  0 < den -> loc_spec (Zpos m) num den l ->
  exists n f, binary_round_aux prec emax sx (Zpos m) e l = S754_finite sx n f
    /\ fexp (mag m e) <= f /\ canonical_at n f
    /\ Z.abs (2 * (Zpos n * 2 ^ (f - L) * den - num * 2 ^ (e - L)))
       <= 2 ^ (fexp (mag m e) - L) * den.
Proof.
  intros Hmin Hs HL Hmax Hd Hl.
  destruct (round_aux_shape sx m e l Hmin Hs Hmax) as (n & f & R & Hf & C & Hn).
  exists n, f. split; [exact R |]. split; [exact Hf |]. split; [exact C |].
  set (mrs := fst (shr (shr_record_of_loc (Zpos m) l) e (shift_of m e))) in *.
  pose proof (shr_loc (shr_record_of_loc (Zpos m) l) e (shift_of m e) num den
                ltac:(rewrite shr_m_of_loc; lia) Hd
                ltac:(rewrite shr_m_of_loc, loc_of_record_of_loc; exact Hl)) as Hloc.
  fold mrs in Hloc. rewrite Z.max_l in Hloc by exact Hs.
  pose proof (round_nearest_half (shr_m mrs) num (2 ^ shift_of m e * den) _
                ltac:(pow2_facts; nia) Hloc) as Hh.
  rewrite <- Hn in Hh.
  assert (Hsplit : forall a, a * 2 ^ (f - L) = a * 2 ^ (f - fexp (mag m e)) * 2 ^ shift_of m e * 2 ^ (e - L))
    by (intros a; rewrite <- !Z.mul_assoc, <- !pow2_add by (unfold shift_of in *; lia);
        do 2 f_equal; unfold shift_of; lia).
  replace (fexp (mag m e) - L) with (shift_of m e + (e - L)) by (unfold shift_of; lia).
  rewrite pow2_add, Hsplit by lia.
  replace (2 * (Zpos n * 2 ^ (f - fexp (mag m e)) * 2 ^ shift_of m e * 2 ^ (e - L) * den - num * 2 ^ (e - L)))
    with (2 * (Zpos n * 2 ^ (f - fexp (mag m e)) * (2 ^ shift_of m e * den) - num) * 2 ^ (e - L)) by ring.
  rewrite Z.abs_mul, (Z.abs_eq (2 ^ (e - L))) by (pow2_facts; lia).
  replace (2 ^ shift_of m e * 2 ^ (e - L) * den) with ((2 ^ shift_of m e * den) * 2 ^ (e - L)) by ring.
  apply Z.mul_le_mono_nonneg_r; [pow2_facts; lia | exact Hh].
Qed.

(** ** Division *)

(** The location [SFdiv] computes from the remainder of the Euclidean
    division. *)
Lemma new_location_spec (num den : Z) : 0 < den ->
  loc_spec (num / den) num den (new_location den (num mod den)).
Proof.
  intros Hd. pose proof (Z.div_mod num den ltac:(lia)) as E.
  pose proof (Z.mod_pos_bound num den Hd) as B.
  set (q := num / den) in *. set (r := num mod den) in *.
  unfold loc_spec. split; [lia |].
  unfold new_location. destruct (Z.even den) eqn:Ev.
  - unfold new_location_even. destruct (Z.eqb_spec r 0); [lia |].
    destruct (Z.compare_spec (2 * r) den); lia.
  - unfold new_location_odd. destruct (Z.eqb_spec r 0); [lia |].
    assert (Ho : Z.odd den = true) by (rewrite <- Z.negb_even, Ev; reflexivity).
    apply Z.odd_spec in Ho as [k Hk].
    destruct (Z.compare_spec (2 * r + 1) den); lia.
Qed.

(** The double of a positive integer below [2^53]: a 53-bit mantissa at an
    exponent in [[-52, 0]]. *)
Lemma of_Z_shape (a : Z) : 1 <= a < 2 ^ 53 ->
  exists p f, of_Z a = S754_finite false p f /\ canonical_at p f /\ f = Z.log2 a - 52
    /\ Zpos p = a * 2 ^ (- f) /\ Zpos (digits2_pos p) = 53.
Proof.
  intros Ha. destruct (of_Z_finite a ltac:(lia) ltac:(lia)) as (p & f & E & C & D).
  replace (a <? 0) with false in E by (symmetry; apply Z.ltb_ge; lia).
  destruct a as [| v | v]; try lia. cbn [Z.abs] in D.
  assert (Hm : mag p f = Z.log2 (Zpos v) + 1) by (rewrite (mag_dy _ _ _ _ D), mag_log2; lia).
  pose proof (Z.log2_nonneg (Zpos v)).
  assert (Hl : Z.log2 (Zpos v) < 53) by (apply Z.log2_lt_pow2; lia).
  assert (Hf : f = Z.log2 (Zpos v) - 52)
    by (unfold canonical_at, shift_of in C; rewrite Hm, fexp_eq in C; lia).
  exists p, f. split; [exact E |]. split; [exact C |]. split; [exact Hf |]. split.
  - apply (proj1 (dy_eq_at (Zpos p) f (Zpos v) 0 f ltac:(lia) ltac:(lia))) in D.
    rewrite Z.sub_diag, Z.mul_1_r in D. rewrite D. now replace (0 - f) with (- f) by lia.
  - unfold mag in Hm. lia.
Qed.

(** [SFdiv_core_binary] on two 53-bit mantissas: the quotient of the first
    shifted by 53 bits, at the exponent 53 below the difference. *)
Lemma div_core_53 (pa pb : positive) (fa fb : Z) :
  Zpos (digits2_pos pa) = 53 -> Zpos (digits2_pos pb) = 53 -> -1021 <= fa - fb ->
  SFdiv_core_binary prec emax (Zpos pa) fa (Zpos pb) fb
  = (Zpos pa * 2 ^ 53 / Zpos pb, fa - fb - 53,
     new_location (Zpos pb) (Zpos pa * 2 ^ 53 mod Zpos pb)).
Proof.
  intros Ha Hb Hf. unfold SFdiv_core_binary.
  change (Zdigits2 (Zpos pa)) with (Zpos (digits2_pos pa)).
  change (Zdigits2 (Zpos pb)) with (Zpos (digits2_pos pb)). rewrite Ha, Hb.
  replace (Z.min (fexp (53 + fa - (53 + fb))) (fa - fb)) with (fa - fb - 53)
    by (rewrite fexp_eq; lia).
  replace (fa - fb - (fa - fb - 53)) with 53 by lia.
  rewrite Z.shiftl_mul_pow2 by lia.
  unfold Z.div, Z.modulo. destruct (Z.div_eucl (Zpos pa * 2 ^ 53) (Zpos pb)). reflexivity.
Qed.

(** Comparisons survive multiplying both sides by the same power of two. *)
Lemma pow_scale_le (x y i j k : Z) : 0 <= i -> 0 <= j -> 0 <= k ->
  x * 2 ^ (i + k) <= y * 2 ^ (j + k) <-> x * 2 ^ i <= y * 2 ^ j.
Proof.
  intros Hi Hj Hk. rewrite !pow2_add, !Z.mul_assoc by lia.
  symmetry. apply Z.mul_le_mono_pos_r. apply pow2_pos, Hk.
Qed.

Lemma pow_scale_lt (x y i j k : Z) : 0 <= i -> 0 <= j -> 0 <= k ->
  x * 2 ^ (i + k) < y * 2 ^ (j + k) <-> x * 2 ^ i < y * 2 ^ j.
Proof.
  intros Hi Hj Hk. rewrite !pow2_add, !Z.mul_assoc by lia.
  symmetry. apply Z.mul_lt_mono_pos_r. apply pow2_pos, Hk.
Qed.

(** The binade of [a / b] is that of [2^(log2 a - log2 b)] or the next. *)
Lemma quotient_binade (a b B L : Z) : 1 <= a -> 1 <= b -> L <= 0 -> L <= B - 1 ->
  2 ^ (B - 1 - L) * b <= a * 2 ^ (- L) < 2 ^ (B - L) * b ->
  Z.log2 a - Z.log2 b <= B <= Z.log2 a - Z.log2 b + 1.
Proof.
  intros Ha Hb HL0 HL [Hlo Hhi].
  pose proof (Z.log2_spec a ltac:(lia)) as [Ha1 Ha2].
  pose proof (Z.log2_spec b ltac:(lia)) as [Hb1 Hb2].
  pose proof (Z.log2_nonneg a). pose proof (Z.log2_nonneg b).
  split.
  - destruct (Z.le_gt_cases (Z.log2 a - Z.log2 b) B) as [| Hlt]; [assumption | exfalso].
    assert (H1 : 2 ^ (B - L) * b < 1 * 2 ^ (B - L + Z.succ (Z.log2 b))).
    { rewrite Z.mul_1_l, pow2_add by lia. apply Z.mul_lt_mono_pos_l; [pow2_facts; lia | exact Hb2]. }
    assert (H2 : 1 * 2 ^ (B - L + Z.succ (Z.log2 b)) <= a * 2 ^ (- L)).
    { rewrite Z.mul_1_l. apply Z.le_trans with (2 ^ (Z.log2 a - L)); [apply Z.pow_le_mono_r; lia |].
      replace (Z.log2 a - L) with (Z.log2 a + - L) by lia. rewrite pow2_add by lia.
      apply Z.mul_le_mono_nonneg_r; [pow2_facts; lia | exact Ha1]. }
    lia.
  - destruct (Z.le_gt_cases B (Z.log2 a - Z.log2 b + 1)) as [| Hlt]; [assumption | exfalso].
    assert (H1 : a * 2 ^ (- L) < 1 * 2 ^ (Z.succ (Z.log2 a) + - L)).
    { replace (- L) with (0 + - L) at 1 by lia. apply pow_scale_lt; try lia;
        rewrite Z.pow_0_r, Z.mul_1_r, Z.mul_1_l; exact Ha2. }
    assert (H2 : 1 * 2 ^ (Z.succ (Z.log2 a) + - L) <= 2 ^ (B - 1 - L) * b).
    { rewrite Z.mul_1_l. eapply Z.le_trans; [| apply Z.mul_le_mono_nonneg_l; [pow2_facts; lia | exact Hb1]].
      rewrite <- pow2_add by lia. apply Z.pow_le_mono_r; lia. }
    lia.
Qed.

(** The shifted numerator [pa * 2^53] of [a / b] against the binade
    [[2^(B-1), 2^B)] of the quotient, at the exponent [e' = fa - fb - 53]. *)
Lemma numerator_binade (a b pa pb fa fb B L : Z) :
  pa = a * 2 ^ (- fa) -> pb = b * 2 ^ (- fb) -> -52 <= fa <= 0 -> -52 <= fb <= 0 ->
  L <= -106 -> 0 <= B - 1 - (fa - fb - 53) ->
  2 ^ (B - 1 - L) * b <= a * 2 ^ (- L) < 2 ^ (B - L) * b ->
  2 ^ (B - 1 - (fa - fb - 53)) * pb <= pa * 2 ^ 53 < 2 ^ (B - (fa - fb - 53)) * pb.
Proof.
  intros Hpa Hpb Hfa Hfb HL HB [Hlo Hhi]. rewrite Hpa, Hpb.
  replace (2 ^ (B - 1 - (fa - fb - 53)) * (b * 2 ^ (- fb)))
    with (b * 2 ^ ((B - 1 - (fa - fb - 53)) + - fb)) by (rewrite pow2_add by lia; ring).
  replace (2 ^ (B - (fa - fb - 53)) * (b * 2 ^ (- fb)))
    with (b * 2 ^ ((B - (fa - fb - 53)) + - fb)) by (rewrite pow2_add by lia; ring).
  replace (a * 2 ^ (- fa) * 2 ^ 53) with (a * 2 ^ (- fa + 53)) by (rewrite pow2_add by lia; ring).
  split.
  - apply (pow_scale_le _ _ _ _ (fa - 53 - L)); try lia.
    replace (B - 1 - (fa - fb - 53) + - fb + (fa - 53 - L)) with (B - 1 - L) by lia.
    replace (- fa + 53 + (fa - 53 - L)) with (- L) by lia. lia.
  - apply (pow_scale_lt _ _ _ _ (fa - 53 - L)); try lia.
    replace (B - (fa - fb - 53) + - fb + (fa - 53 - L)) with (B - L) by lia.
    replace (- fa + 53 + (fa - 53 - L)) with (- L) by lia. lia.
Qed.

(** The Number [div (of_Z a) (of_Z b)], for positive integers below [2^53]
    whose quotient lies in the binade [[2^(B-1), 2^B)] of normal numbers:
    a canonical double within half a unit [2^(fexp B)] of [a / b]. *)
Lemma div_of_Z_nearest (a b B L : Z) : 1 <= a < 2 ^ 53 -> 1 <= b < 2 ^ 53 ->
  -1021 <= B <= 1000 -> L <= -106 -> L <= B - 1 ->
  2 ^ (B - 1 - L) * b <= a * 2 ^ (- L) < 2 ^ (B - L) * b ->
  exists n f, div (of_Z a) (of_Z b) = S754_finite false n f /\ fexp B <= f /\ canonical_at n f
    /\ Z.abs (2 * (Zpos n * 2 ^ (f - L) * b - a * 2 ^ (- L))) <= 2 ^ (fexp B - L) * b.
Proof.
  intros Ha Hb HB HL HLB HH.
  pose proof (quotient_binade a b B L ltac:(lia) ltac:(lia) ltac:(lia) HLB HH) as Hq.
  destruct (of_Z_shape a Ha) as (pa & fa & Ea & _ & Hfa & Hpa & Da).
  destruct (of_Z_shape b Hb) as (pb & fb & Eb & _ & Hfb & Hpb & Db).
  assert (Hla : Z.log2 a < 53) by (apply Z.log2_lt_pow2; lia).
  assert (Hlb : Z.log2 b < 53) by (apply Z.log2_lt_pow2; lia).
  pose proof (Z.log2_nonneg a). pose proof (Z.log2_nonneg b).
  unfold div. rewrite Ea, Eb. cbn [SFdiv xorb].
  rewrite div_core_53 by (assumption || lia).
  pose proof (numerator_binade a b (Zpos pa) (Zpos pb) fa fb B L Hpa Hpb ltac:(lia) ltac:(lia) HL
                ltac:(lia) HH) as [Hlo Hhi].
  set (num := Zpos pa * 2 ^ 53) in *. set (e' := fa - fb - 53) in *.
  pose proof (pow2_pos (B - 1 - e') ltac:(lia)) as HP.
  assert (Hql : 2 ^ (B - 1 - e') <= num / Zpos pb) by (apply Z.div_le_lower_bound; lia).
  assert (Hqh : num / Zpos pb < 2 ^ (B - e')) by (apply Z.div_lt_upper_bound; lia).
  pose proof (new_location_spec num (Zpos pb) ltac:(lia)) as Hloc.
  destruct (num / Zpos pb) as [| qp | qp] eqn:Eq; try lia.
  assert (Hmag : mag qp e' = B).
  { rewrite mag_log2. rewrite (Z.log2_unique (Zpos qp) (B - 1 - e')); [lia | lia |].
    replace (Z.succ (B - 1 - e')) with (B - e') by lia. lia. }
  destruct (round_aux_nearest false qp e' (new_location (Zpos pb) (num mod Zpos pb)) num (Zpos pb) L)
    as (n & f & R & Hf & C & Hn);
    [rewrite Hmag; change (SpecFloat.emin prec emax) with (-1074); lia
    | unfold shift_of; rewrite Hmag, fexp_eq; lia | lia | lia | lia | exact Hloc |].
  rewrite Hmag in *. exists n, f. split; [exact R |]. split; [exact Hf |]. split; [exact C |].
  apply (Z.mul_le_mono_pos_r _ _ (2 ^ (- fb))); [pow2_facts; lia |].
  rewrite <- (Z.abs_eq (2 ^ (- fb))) at 1 by (pow2_facts; lia). rewrite <- Z.abs_mul.
  replace (2 * (Zpos n * 2 ^ (f - L) * b - a * 2 ^ (- L)) * 2 ^ (- fb))
    with (2 * (Zpos n * 2 ^ (f - L) * Zpos pb - num * 2 ^ (e' - L))).
  - rewrite Hpb in Hn |- *.
    replace (2 ^ (fexp B - L) * b * 2 ^ (- fb)) with (2 ^ (fexp B - L) * (b * 2 ^ (- fb))) by ring.
    exact Hn.
  - unfold num, e'. rewrite Hpb, Hpa.
    replace (a * 2 ^ (- fa) * 2 ^ 53 * 2 ^ (fa - fb - 53 - L))
      with (a * 2 ^ (- L) * 2 ^ (- fb)) by (rewrite <- !Z.mul_assoc, <- !pow2_add by lia; do 2 f_equal; lia).
    ring.
Qed.

(** ** Nearest among all doubles *)

(** On a grid of step [G], the point within half a step of [num / den] is
    at least as near to it as any other point of the grid. *)
Lemma grid_nearest (N P G num den : Z) : 0 < G -> 0 < den -> (G | N) -> (G | P) ->
  Z.abs (2 * (N * den - num)) <= G * den -> Z.abs (N * den - num) <= Z.abs (P * den - num).
Proof.
  intros HG Hd [k Hk] [p Hp] Hn. subst N P.
  destruct (Z.eq_dec p k) as [-> | Hne]; [lia |].
  assert (Hpk : G * den <= Z.abs ((p - k) * G * den)).
  { rewrite !Z.abs_mul, (Z.abs_eq G), (Z.abs_eq den) by lia.
    assert (1 <= Z.abs (p - k)) by lia. nia. }
  replace ((p - k) * G * den) with ((p * G * den - num) - (k * G * den - num)) in Hpk by ring.
  lia.
Qed.

Lemma canonical_of_valid (m : positive) (e : Z) :
  valid_binary prec emax (S754_finite false m e) = true -> canonical_at m e.
Proof.
  cbn [valid_binary]. unfold bounded, canonical_mantissa.
  intros H. apply andb_prop in H as [H _]. apply Z.eqb_eq in H.
  unfold canonical_at, shift_of, mag. lia.
Qed.

(** A canonical double whose magnitude [mag m e] is below [B] lies below
    [2^(B - 1)]. *)
Lemma below_binade (m : positive) (e B L : Z) : L <= e -> mag m e <= B - 1 ->
  Zpos m * 2 ^ (e - L) < 2 ^ (B - 1 - L).
Proof.
  intros HL Hm. rewrite mag_log2 in Hm.
  pose proof (Z.log2_spec (Zpos m) ltac:(lia)) as [_ Hhi]. pose proof (Z.log2_nonneg (Zpos m)).
  eapply Z.lt_le_trans.
  - apply Z.mul_lt_mono_pos_r; [pow2_facts; lia | exact Hhi].
  - rewrite <- pow2_add by lia. apply Z.pow_le_mono_r; lia.
Qed.

(** A positive double within half a unit [2^(fexp B)] of a value of the
    normal binade [[2^(B-1), 2^B)] is at least as near to it as every
    other finite double.  Values are in units of [2^L], [L] below every
    exponent; the value is [num / den]. *)
Lemma half_ulp_nearest (n : positive) (f num den B L : Z) :
  fexp B <= f -> -1021 <= B -> L <= -1074 -> 0 < den ->
  2 ^ (B - 1 - L) * den <= num ->
  Z.abs (2 * (Zpos n * 2 ^ (f - L) * den - num)) <= 2 ^ (fexp B - L) * den ->
  forall (s : bool) (m : positive) (e : Z), valid_binary prec emax (S754_finite s m e) = true ->
  Z.abs (Zpos n * 2 ^ (f - L) * den - num) <= Z.abs (val_at L (S754_finite s m e) * den - num).
Proof.
  intros Hf HB HL Hd Hlo Hn s m e Hv.
  assert (Hv' : valid_binary prec emax (S754_finite false m e) = true) by exact Hv.
  pose proof (canonical_of_valid m e Hv') as C. unfold canonical_at, shift_of in C.
  assert (He : L <= e) by (rewrite fexp_eq in C; lia).
  rewrite fexp_eq in Hf, Hn.
  set (G := 2 ^ (Z.max (B - 53) (-1074) - L)) in *.
  assert (HG : 0 < G) by (apply pow2_pos; lia).
  assert (HB1 : (G | 2 ^ (B - 1 - L))).
  { rewrite <- (Z.mul_1_l (2 ^ (B - 1 - L))). apply pow2_divide. lia. }
  assert (HN : (G | Zpos n * 2 ^ (f - L))) by (apply pow2_divide; lia).
  (* the nearest grid point is not below the binade *)
  assert (HP0 : Z.abs (Zpos n * 2 ^ (f - L) * den - num) <= Z.abs (2 ^ (B - 1 - L) * den - num))
    by (apply (grid_nearest _ _ G); assumption).
  destruct s; cbn [val_at cond_Zopp].
  - pose proof (pow2_pos (e - L) ltac:(lia)). pose proof (pow2_pos (B - 1 - L) ltac:(lia)).
    assert (0 <= 2 ^ (B - 1 - L) * den) by nia.
    assert (- (Zpos m * 2 ^ (e - L)) * den <= 0) by nia. lia.
  - destruct (Z.le_gt_cases B (mag m e)) as [Hm | Hm].
    + apply (grid_nearest _ _ G); try assumption.
      apply pow2_divide. rewrite fexp_eq in C. lia.
    + pose proof (below_binade m e B L He ltac:(lia)) as Hb.
      assert (Zpos m * 2 ^ (e - L) * den < 2 ^ (B - 1 - L) * den) by (apply Z.mul_lt_mono_pos_r; lia).
      lia.
Qed.

(** The binade of a positive decimal [m / 10^k] of the ranges of
    [literal]: the magnitude of its value in units of [2^-1074]. *)
Lemma decimal_binade (m b : Z) : 1 <= m < 2 ^ 53 -> 1 <= b < 2 ^ 53 ->
  let B := Z.log2 (m * 2 ^ 1074 / b) + 1 - 1074 in
  -1021 <= B <= 1000 /\ 2 ^ (B - 1 - -1074) * b <= m * 2 ^ (- -1074) < 2 ^ (B - -1074) * b.
Proof.
  intros Hm Hb B. change (- -1074) with 1074.
  set (q := m * 2 ^ 1074 / b).
  assert (Hq1 : 2 ^ 1021 <= q).
  { apply Z.div_le_lower_bound; [lia |].
    assert (E : 2 ^ 1074 = 2 ^ 53 * 2 ^ 1021) by reflexivity.
    pose proof (pow2_pos 1021 ltac:(lia)). nia. }
  assert (Hq2 : q < 2 ^ 1127).
  { assert (E : 2 ^ 1127 = 2 ^ 53 * 2 ^ 1074) by reflexivity.
    pose proof (pow2_pos 1074 ltac:(lia)).
    apply (Z.le_lt_trans _ (m * 2 ^ 1074)); [apply Z.div_le_upper_bound; nia | nia]. }
  assert (Hl1 : 1021 <= Z.log2 q) by (rewrite <- (Z.log2_pow2 1021) by lia; apply Z.log2_le_mono, Hq1).
  assert (Hl2 : Z.log2 q < 1127) by (apply Z.log2_lt_pow2; lia).
  pose proof (Z.log2_spec q ltac:(lia)) as [Hlo Hhi].
  pose proof (Z.mul_div_le (m * 2 ^ 1074) b ltac:(lia)) as D1.
  pose proof (Z.mul_succ_div_gt (m * 2 ^ 1074) b ltac:(lia)) as D2. fold q in D1, D2.
  replace (B - 1 - -1074) with (Z.log2 q) by (unfold B, q; lia).
  replace (B - -1074) with (Z.succ (Z.log2 q)) by (unfold B, q; lia).
  split; [unfold B, q in *; lia |]. split; nia.
Qed.

(** ** Theorems *)

(** C3. The model of a decimal literal is faithful: for every numeral
    [m / 10^k] with [m] and [10^k] below [2^53] (such as [4.33], the
    [weeksPerMonth] of line 33), [literal m k] is a positive finite double
    and no valid double is nearer to [m / 10^k], as ECMA-262 requires of
    the Number value of a numeric literal. *)
Theorem literal_nearest (m : Z) (k : nat) : 1 <= m < 2 ^ 53 -> 10 ^ Z.of_nat k < 2 ^ 53 ->
  exists n f, literal m k = S754_finite false n f /\ nearest_double (literal m k) m (10 ^ Z.of_nat k).
Proof.
  intros Hm Hk. set (b := 10 ^ Z.of_nat k) in *.
  assert (Hb : 1 <= b) by (unfold b; pose proof (Z.pow_pos_nonneg 10 (Z.of_nat k)); lia).
  destruct (decimal_binade m b Hm ltac:(lia)) as [HB HH].
  set (B := Z.log2 (m * 2 ^ 1074 / b) + 1 - 1074) in *.
  destruct (div_of_Z_nearest m b B (-1074) Hm ltac:(lia) HB ltac:(lia) ltac:(lia) HH)
    as (n & f & E & Hf & _ & Hn).
  exists n, f. unfold literal. fold b. rewrite E. split; [reflexivity |].
  unfold nearest_double. intros s mz ez Hv. change (- -1074) with 1074 in *. cbn [val_at cond_Zopp].
  apply (half_ulp_nearest n f (m * 2 ^ 1074) b B (-1074)); try assumption; lia.
Qed.

Lemma literal_nearest_witness :
  (1 <= 433 < 2 ^ 53 /\ 10 ^ Z.of_nat 2 < 2 ^ 53) /\
  exists n f, literal 433 2 = S754_finite false n f /\ nearest_double (literal 433 2) 433 (10 ^ Z.of_nat 2).
Proof.
  split; [split; [lia | reflexivity] |]. apply literal_nearest; [lia | reflexivity].
Defined.

End Nearest.
