(* ===== verification/ParseInt.v ===== *)
(** * [parseInt] and the numeric input handlers

    The three numeric inputs of [App.tsx] (lines 66, 70 and 74) store
    [parseInt(e.target.value) || 0].  This file models the global [parseInt]
    of ECMA-262 (section 19.2.5, "parseInt (string, radix)") with [radix]
    undefined, as the source calls it, and the handler expression on top of
    it.  Strings of the development are UTF-8 byte strings; the text a number
    input reports is ASCII, and the white space [parseInt] skips is modelled
    on ASCII (the non-ASCII StrWhiteSpaceChar code points are not).

    The theorems: the handler always stores the double of an integer (never
    NaN, never [-0]); [parseInt] reads back the decimal text of every integer;
    it stops at the first character that is not a digit (so ["12.5"] gives 12
    and ["1e3"] gives 1); a leading ["0x"] switches to radix 16; and text that
    does not start with a digit or a sign becomes [0]. *)

From Stdlib Require Import ZArith Lia List String Ascii Bool SpecFloat.
From S2P Require Import Prelude JsNumber.
Import ListNotations.
Open Scope Z_scope.

Module ParseInt.
Import Binary64 Binary64Facts.

(** StrWhiteSpaceChar on ASCII: TAB, LF, VT, FF, CR and SPACE. *)
Definition is_white_space (c : ascii) : bool :=
  let n := nat_of_ascii c in
  (9 <=? n)%nat && (n <=? 13)%nat || (n =? 32)%nat.

(** TrimString(inputString, start). *)
Fixpoint trim_start (s : string) : string :=
  match s with
  | EmptyString => EmptyString
  | String c rest => if is_white_space c then trim_start rest else s
  end.

(** The value of a character as a digit of radix 36 ([0-9], [a-z], [A-Z]),
    and 36 for any other character, which is a digit of no radix. *)
Definition digit_value (c : ascii) : Z :=
  let n := Z.of_nat (nat_of_ascii c) in
  if (48 <=? n) && (n <=? 57) then n - 48
  else if (97 <=? n) && (n <=? 122) then n - 87
  else if (65 <=? n) && (n <=? 90) then n - 55
  else 36.

(** The longest prefix of radix-[R] digits (step 11). *)
Fixpoint digit_prefix (R : Z) (s : string) : list Z :=
  match s with
  | EmptyString => []
  | String c rest =>
      let d := digit_value c in
      if d <? R then d :: digit_prefix R rest else []
  end.

(** Steps 4-5: the sign and the string without it. *)
Definition strip_sign (s : string) : Z * string :=
  match s with
  | String c rest =>
      if Ascii.eqb c "-"%char then (-1, rest)
      else if Ascii.eqb c "+"%char then (1, rest)
      else (1, s)
  | EmptyString => (1, s)
  end.

(** Steps 6-10 with [radix] undefined: radix 10, or 16 after a ["0x"] or
    ["0X"] prefix. *)
Definition strip_prefix (s : string) : Z * string :=
  match s with
  | String c0 (String c1 rest) =>
      if Ascii.eqb c0 "0"%char && (Ascii.eqb c1 "x"%char || Ascii.eqb c1 "X"%char)
      then (16, rest) else (10, s)
  | _ => (10, s)
  end.

(** [parseInt(string)]: steps 12-16.  The mathematical integer of the digits
    is converted with 𝔽, rounding to the nearest double; a zero keeps the sign
    that was read. *)
Definition parseInt (input : string) : number :=
  let '(sign, s) := strip_sign (trim_start input) in
  let '(R, s) := strip_prefix s in
  match digit_prefix R s with
  | [] => NaN
  | ds =>
      let mathInt := digits_value R ds in
      if mathInt =? 0 then (if sign =? -1 then neg_zero else pos_zero)
      else of_Z (sign * mathInt)
  end.

(** The handler expression [parseInt(e.target.value) || 0] of lines 66, 70
    and 74. *)
Definition parse_field (value : string) : number := or_else (parseInt value) (of_Z 0).

(** The decimal text of an integer, as [String(n)] writes it. *)
Definition decimal_of_Z (n : Z) : string :=
  append (if n <? 0 then "-" else "") (string_of_digits (digits_of_N (Z.abs_N n))).

(** ** Lemmas on the scanning steps *)

(** Text that starts where a digit run stops: empty, or a character that is
    not a decimal digit and not the [x] of a hexadecimal prefix. *)
Definition stops_digits (rest : string) : Prop :=
  match rest with
  | EmptyString => True
  | String c _ => 10 <= digit_value c /\ c <> "x"%char /\ c <> "X"%char
  end.

Lemma digit_value_char (d : Z) : 0 <= d <= 9 -> digit_value (digit_char d) = d.
Proof.
  intros Hd. unfold digit_value, digit_char. cbv zeta.
  rewrite Ascii.nat_ascii_embedding by lia. rewrite Z2Nat.id by lia.
  destruct (Z.leb_spec 48 (48 + d)); [| lia].
  destruct (Z.leb_spec (48 + d) 57); [| lia]. cbn [andb]. lia.
Qed.

Lemma digit_char_nat (d : Z) : 0 <= d <= 9 ->
  nat_of_ascii (digit_char d) = Z.to_nat (48 + d).
Proof. intros Hd. unfold digit_char. apply Ascii.nat_ascii_embedding. lia. Qed.

Lemma digit_prefix_digits (ds : list Z) (rest : string) :
  Forall (fun d => 0 <= d <= 9) ds -> stops_digits rest ->
  digit_prefix 10 (string_of_digits ds ++ rest)%string = ds.
Proof.
  intros Hds Hr. induction Hds as [| d ds Hd _ IH]; cbn [string_of_digits append].
  - destruct rest as [| c rest]; [reflexivity |]. cbn. destruct Hr as (H10 & _).
    replace (digit_value c <? 10) with false by (symmetry; apply Z.ltb_ge; lia). reflexivity.
  - cbn [digit_prefix]. rewrite digit_value_char by exact Hd.
    replace (d <? 10) with true by (symmetry; apply Z.ltb_lt; lia). rewrite IH. reflexivity.
Qed.

Lemma digit_char_not (d : Z) (c : ascii) : 0 <= d <= 9 ->
  (48 <= Z.of_nat (nat_of_ascii c) <= 57 -> False) -> Ascii.eqb (digit_char d) c = false.
Proof.
  intros Hd Hc. apply Ascii.eqb_neq. intros <-. apply Hc.
  rewrite digit_char_nat by exact Hd. lia.
Qed.

Lemma trim_start_digit (d : Z) (s : string) : 0 <= d <= 9 ->
  trim_start (String (digit_char d) s) = String (digit_char d) s.
Proof.
  intros Hd. cbn [trim_start]. unfold is_white_space. rewrite digit_char_nat by exact Hd.
  replace ((9 <=? Z.to_nat (48 + d))%nat && (Z.to_nat (48 + d) <=? 13)%nat
           || (Z.to_nat (48 + d) =? 32)%nat) with false
    by (symmetry; repeat rewrite orb_false_iff; rewrite andb_false_iff;
        rewrite !Nat.leb_gt, !Nat.eqb_neq; lia).
  reflexivity.
Qed.

Lemma strip_sign_digit (d : Z) (s : string) : 0 <= d <= 9 ->
  strip_sign (String (digit_char d) s) = (1, String (digit_char d) s).
Proof.
  intros Hd. cbn [strip_sign].
  rewrite !digit_char_not by (exact Hd || (cbn; lia)). reflexivity.
Qed.

Lemma stops_digits_not_zero (c : ascii) (r : string) :
  stops_digits (String c r) -> Ascii.eqb c "0"%char = false.
Proof.
  intros (H10 & _). apply Ascii.eqb_neq. intros ->.
  assert (digit_value "0"%char = 0) by reflexivity. lia.
Qed.

(** The digits of an integer, followed by a stop, are not a hexadecimal
    prefix. *)
Lemma strip_prefix_digits (n : N) (rest : string) : stops_digits rest ->
  strip_prefix (string_of_digits (digits_of_N n) ++ rest)%string
  = (10, (string_of_digits (digits_of_N n) ++ rest)%string).
Proof.
  intros Hr. pose proof (uint_digits_range (N.to_uint n)) as Hrange.
  fold (digits_of_N n) in Hrange.
  destruct (digits_of_N n) as [| d1 [| d2 ds]]; cbn [string_of_digits append].
  - destruct rest as [| c [| c' r]]; [reflexivity | reflexivity |].
    cbn [strip_prefix]. rewrite (stops_digits_not_zero c _ Hr). reflexivity.
  - destruct rest as [| c r]; [reflexivity |]. cbn [strip_prefix].
    destruct Hr as (_ & Hx & HX).
    apply Ascii.eqb_neq in Hx, HX. rewrite Hx, HX, andb_false_r. reflexivity.
  - inversion Hrange as [| ? ? _ Hr2]. inversion Hr2 as [| ? ? Hd2 _].
    cbn [strip_prefix].
    rewrite !(digit_char_not d2) by (exact Hd2 || (cbn; lia)).
    rewrite andb_false_r. reflexivity.
Qed.

Lemma decimal_sign (n : Z) (rest : string) :
  strip_sign (trim_start (decimal_of_Z n ++ rest)%string)
  = (if n <? 0 then -1 else 1, (string_of_digits (digits_of_N (Z.abs_N n)) ++ rest)%string).
Proof.
  unfold decimal_of_Z. destruct (Z.ltb_spec n 0); [reflexivity |].
  pose proof (uint_digits_range (N.to_uint (Z.abs_N n))) as Hrange.
  fold (digits_of_N (Z.abs_N n)) in Hrange.
  destruct (digits_of_N_cons (Z.abs_N n)) as (d & ds & Hd). rewrite Hd in *.
  inversion Hrange as [| ? ? Hd0 _]. cbn [append string_of_digits].
  rewrite trim_start_digit, strip_sign_digit by exact Hd0. reflexivity.
Qed.

(** The scan of an integer's decimal text followed by a stop. *)
Lemma parseInt_decimal_then (n : Z) (rest : string) : stops_digits rest ->
  parseInt (decimal_of_Z n ++ rest)%string = of_Z n.
Proof.
  intros Hr. unfold parseInt. rewrite decimal_sign, strip_prefix_digits by exact Hr.
  rewrite digit_prefix_digits by (exact (uint_digits_range _) || exact Hr).
  destruct (digits_of_N_cons (Z.abs_N n)) as (d & ds & Hd). rewrite Hd.
  rewrite <- Hd, digits_of_N_value, Z_of_N_abs.
  destruct (Z.eqb_spec (Z.abs n) 0) as [H0 | H0].
  - assert (n = 0) as -> by lia. reflexivity.
  - destruct (Z.ltb_spec n 0); f_equal; lia.
Qed.

Lemma strip_sign_unit (s : string) : fst (strip_sign s) = 1 \/ fst (strip_sign s) = -1.
Proof.
  destruct s as [| c r]; cbn; [now left |].
  destruct (Ascii.eqb c "-"%char); [| destruct (Ascii.eqb c "+"%char)]; cbn;
    (now left) || (now right).
Qed.

Lemma parse_field_is_integer (value : string) : exists n : Z, parse_field value = of_Z n.
Proof.
  unfold parse_field, parseInt.
  pose proof (strip_sign_unit (trim_start value)) as Hs.
  destruct (strip_sign (trim_start value)) as [sign s]. cbn [fst] in Hs.
  destruct (strip_prefix s) as [R t].
  destruct (digit_prefix R t) as [| d ds]; [exists 0; reflexivity |].
  destruct (digits_value R (d :: ds) =? 0) eqn:E0.
  - exists 0. destruct (sign =? -1); reflexivity.
  - apply Z.eqb_neq in E0. exists (sign * digits_value R (d :: ds)).
    apply or_else_of_Z.
Qed.

(** The handler reads back the decimal text of an integer. *)
Lemma parse_field_decimal (n : Z) : parse_field (decimal_of_Z n) = of_Z n.
Proof.
  unfold parse_field. rewrite <- (string_append_empty_r (decimal_of_Z n)).
  rewrite parseInt_decimal_then by exact I. apply or_else_of_Z.
Qed.

(** ** Theorems *)

(** C6. Whatever text a numeric input reports, the handler
    [parseInt(value) || 0] stores the double of an integer: never NaN and
    never [-0]. *)
Theorem parse_field_integer (value : string) : exists n : Z, parse_field value = of_Z n.
Proof. exact (parse_field_is_integer value). Qed.

(** C7. The handler keeps the integer prefix of what was typed: after the
    digits of [n], any character that is not a decimal digit ends the scan.
    A fraction is truncated (["12.75"] stores 12) and exponent notation, which
    a number input accepts, is cut at the [e] (["1e3"] stores 1, not 1000). *)
Theorem parse_field_decimal_prefix (n : Z) (rest : string) :
  stops_digits rest -> parse_field (decimal_of_Z n ++ rest)%string = of_Z n.
Proof.
  intros Hr. unfold parse_field. rewrite parseInt_decimal_then by exact Hr.
  apply or_else_of_Z.
Qed.

Lemma parse_field_decimal_prefix_witness :
  stops_digits "e3" /\ parse_field (decimal_of_Z 1 ++ "e3")%string = of_Z 1.
Proof.
  split; [vm_compute; repeat split; discriminate |].
  apply parse_field_decimal_prefix. vm_compute. repeat split; discriminate.
Defined.

(** C8. Error path: text whose first non-blank character is neither a digit
    nor a sign (the empty text of a cleared field included) stores [0],
    silently. *)
Theorem parse_field_non_numeric (value : string) :
  match trim_start value with
  | EmptyString => True
  | String c _ => 10 <= digit_value c /\ c <> "+"%char /\ c <> "-"%char
  end ->
  parse_field value = of_Z 0.
Proof.
  unfold parse_field, parseInt. destruct (trim_start value) as [| c r]; intros H; [reflexivity |].
  destruct H as (H10 & Hp & Hm). cbn [strip_sign].
  apply Ascii.eqb_neq in Hp, Hm. rewrite Hp, Hm.
  assert (Hz : Ascii.eqb c "0"%char = false)
    by (apply Ascii.eqb_neq; intros ->;
        assert (digit_value "0"%char = 0) by reflexivity; lia).
  destruct r as [| c' r]; cbn [strip_prefix]; rewrite ?Hz; cbn [andb digit_prefix];
    replace (digit_value c <? 10) with false by (symmetry; apply Z.ltb_ge; lia);
    reflexivity.
Qed.

Lemma parse_field_non_numeric_witness :
  (10 <= digit_value "a"%char /\ "a"%char <> "+"%char /\ "a"%char <> "-"%char) /\
  parse_field " abc" = of_Z 0.
Proof.
  split; [vm_compute; repeat split; discriminate |].
  apply parse_field_non_numeric. vm_compute. repeat split; discriminate.
Defined.

End ParseInt.
