(* ===== verification/NumberString.v ===== *)
(** * Number::toString

    React writes a Number attribute into the DOM as [String(x)]: the
    [value] of the three number inputs ([value={values.hoursPerWeek || ''}],
    App.tsx lines 66, 70, 74) and the [key] of the tips (line 108).  This
    file models Number::toString of ECMA-262 (6.1.6.1.20) in radix 10.

    Step 5 of the algorithm asks for integers [n], [k], [s] with
    [10^(k-1) <= s < 10^k], [𝔽(s * 10^(n-k)) = x] and [k] as small as
    possible; the recommended choice (note 2) takes the [s] closest to [x],
    the even one on a tie.  [shortest] computes them: the positive double
    [m * 2^e] is exactly [N * 10^(-t)] for an integer [N] of [d] digits
    ([scaled]), so [n = d - t]; at each precision [p] the only candidates
    that can succeed are the [p]-digit decimals just below and just above
    [x] ([N / 10^(d-p)] and the next one), and [search] tries [p = 1, ...,
    d] in turn.  At [p = d] the candidate is [N] itself, so the search is
    bounded by [d].  [format_decimal] is steps 6-12: plain digits when
    [-5 <= n <= 21], exponent notation otherwise.  [decimal_value] is 𝔽:
    [of_Z] for an integer, [SFdiv]'s rounding of the quotient otherwise,
    after cancelling common factors of ten so that equal decimals give
    the same Number.

    The theorems: the search succeeds within its bound and its result has
    [k] digits and rounds back to the double ([shortest_total],
    [shortest_sound], from the exactness of [decimal_value] on the decimal
    of a valid double); every safe integer prints as its decimal text,
    which [parseInt] reads back ([toString_of_Z]).  That [k] is the least
    possible is proved for safe integers only. *)

From Stdlib Require Import ZArith Lia List String Ascii Bool SpecFloat DecimalFacts DecimalN.
From S2P Require Import Prelude JsNumber Rounding Nearest ParseInt.
Import ListNotations.
Open Scope Z_scope.

Module NumberString.
Import Binary64 Rounding Nearest ParseInt.

(** The decimal digits of a nonnegative integer, as text. *)
Definition digits_text (s : Z) : string := string_of_digits (digits_of_N (Z.to_N s)).

(** [n] occurrences of the digit [0]. *)
Definition zeros (n : Z) : string := string_of_digits (repeat 0 (Z.to_nat n)).

(** The number of decimal digits of a positive integer below [2^fuel]. *)
Fixpoint ndigits (fuel : nat) (N : Z) : Z :=
  match fuel with
  | O => 0
  | S f => if N <? 10 then 1 else 1 + ndigits f (N / 10)
  end.

Definition num_digits (N : Z) : Z := ndigits (Pos.to_nat (Pos.size (Z.to_pos N))) N.

(** [s * 10^j] with the factors of ten common to [s] and [10^-j] cancelled
    (at most [-j] of them): the same rational with a smaller numerator. *)
Fixpoint strip10 (fuel : nat) (s j : Z) : Z * Z :=
  match fuel with
  | O => (s, j)
  | S f => if (j <? 0) && (s mod 10 =? 0) then strip10 f (s / 10) (j + 1) else (s, j)
  end.

(** 𝔽(s * 10^j): the Number nearest the mathematical value, for [s > 0].
    An integer goes through [of_Z]; a fraction [s / 10^-j] is rounded the
    way [SFdiv] rounds a quotient. *)
Definition decimal_value (s j : Z) : number :=
  let '(s', j') := strip10 (Z.to_nat (- j)) s j in
  if 0 <=? j' then of_Z (s' * 10 ^ j')
  else let '(q, e, l) := SFdiv_core_binary prec emax s' 0 (10 ^ (- j')) 0 in
       binary_round_aux prec emax false q e l.

(** A positive double [m * 2^e] as [N * 10^(-t)], [N] an integer. *)
Definition scaled (m : positive) (e : Z) : Z * Z :=
  if 0 <=? e then (Zpos m * 2 ^ e, 0) else (Zpos m * 5 ^ (- e), - e).

(** The [p]-digit candidates for [x = N * 10^(n-d)], [D = 10^(d-p)]: the
    decimal below ([N / D]) and the one above, when they give [x] back,
    the closer one first and the even one on a tie.  The triple is
    [(s, k, n)]; a candidate equal to [10^p] is the one-digit [1 * 10^n]. *)
Definition choose (x : number) (N D n p : Z) : option (Z * Z * Z) :=
  let lo := N / D in
  let hi := if N mod D =? 0 then lo else lo + 1 in
  let ok_lo := number_eqb (decimal_value lo (n - p)) x in
  let ok_hi := number_eqb (decimal_value hi (n - p)) x in
  let pick (s : Z) := if s =? 10 ^ p then (10 ^ (p - 1), p, n + 1) else (s, p, n) in
  if ok_lo && ok_hi then
    let dl := N - lo * D in
    let dh := hi * D - N in
    Some (pick (if dl <? dh then lo else if dh <? dl then hi else if Z.even lo then lo else hi))
  else if ok_lo then Some (pick lo)
  else if ok_hi then Some (pick hi)
  else None.

(** Precisions [p, p + 1, ...], at most [fuel] of them. *)
Fixpoint search (fuel : nat) (x : number) (N d n p : Z) : option (Z * Z * Z) :=
  match fuel with
  | O => None
  | S f =>
      match choose x N (10 ^ (d - p)) n p with
      | Some r => Some r
      | None => search f x N d n (p + 1)
      end
  end.

(** Step 5 for the positive double [m * 2^e]. *)
Definition shortest (m : positive) (e : Z) : Z * Z * Z :=
  let '(N, t) := scaled m e in
  let d := num_digits N in
  let n := d - t in
  match search (Z.to_nat d) (S754_finite false m e) N d n 1 with
  | Some r => r
  | None => (N, d, n)
  end.

(** Steps 6-12: the text of [s * 10^(n-k)], [s] of [k] digits. *)
Definition format_decimal (s k n : Z) : string :=
  let ds := digits_text s in
  (if ((-5 <=? n) && (n <=? 21))%Z then
    if (k <=? n)%Z then ds ++ zeros (n - k)%Z
    else if (0 <? n)%Z then
      substring 0 (Z.to_nat n) ds ++ "." ++ substring (Z.to_nat n) (Z.to_nat (k - n)%Z) ds
    else "0." ++ zeros (- n)%Z ++ ds
  else
    let exponentSign := if (n <? 0)%Z then "-" else "+" in
    let exponent := digits_text (Z.abs (n - 1)%Z) in
    if (k =? 1)%Z then ds ++ "e" ++ exponentSign ++ exponent
    else substring 0 1 ds ++ "." ++ substring 1 (Z.to_nat (k - 1)%Z) ds ++ "e" ++ exponentSign ++ exponent)%string.

(** Number::toString(x) in radix 10 (steps 1-4 and the above). *)
Definition toString (x : number) : string :=
  (match x with
  | S754_nan => "NaN"
  | S754_zero _ => "0"
  | S754_infinity false => "Infinity"
  | S754_infinity true => "-Infinity"
  | S754_finite sgn m e =>
      let '(s, k, n) := shortest m e in
      (if sgn then "-" else "") ++ format_decimal s k n
  end)%string.

(** ** The value of a decimal *)

(** A decimal with a nonnegative exponent is an integer. *)
Lemma decimal_value_int (s j : Z) : 0 <= j -> decimal_value s j = of_Z (s * 10 ^ j).
Proof.
  intros Hj. unfold decimal_value. replace (Z.to_nat (- j)) with O by lia. cbn [strip10].
  replace (0 <=? j) with true by (symmetry; apply Z.leb_le; lia). reflexivity.
Qed.

(** [10 s * 10^(j-1)] and [s * 10^j] are the same decimal. *)
Lemma decimal_value_shift (s j : Z) : decimal_value (10 * s) (j - 1) = decimal_value s j.
Proof.
  destruct (Z.le_gt_cases 1 j) as [Hj | Hj].
  - rewrite !decimal_value_int by lia. f_equal.
    replace j with (1 + (j - 1)) at 2 by lia. rewrite Z.pow_add_r by lia. ring.
  - unfold decimal_value. replace (Z.to_nat (- (j - 1))) with (S (Z.to_nat (- j))) by lia.
    cbn [strip10]. replace ((j - 1 <? 0) && (10 * s mod 10 =? 0)) with true
      by (symmetry; apply andb_true_iff; split; [apply Z.ltb_lt; lia |
          apply Z.eqb_eq; rewrite Z.mul_comm; apply Z.mod_mul; lia]).
    rewrite Z.mul_comm, Z.div_mul by lia. replace (j - 1 + 1) with j by lia. reflexivity.
Qed.

(** ** Digit counts *)

Lemma ndigits_spec (fuel : nat) : forall N, 1 <= N < 2 ^ Z.of_nat fuel ->
  1 <= ndigits fuel N /\ 10 ^ (ndigits fuel N - 1) <= N < 10 ^ ndigits fuel N.
Proof.
  induction fuel as [| f IH]; intros N HN; [cbn in HN; lia |].
  cbn [ndigits]. destruct (Z.ltb_spec N 10) as [H10 | H10]; [cbn; lia |].
  rewrite Nat2Z.inj_succ, Z.pow_succ_r in HN by lia.
  assert (0 < 2 ^ Z.of_nat f) by (apply Z.pow_pos_nonneg; lia).
  destruct (IH (N / 10) ltac:(split; [apply Z.div_le_lower_bound | apply Z.div_lt_upper_bound]; lia))
    as (H1 & Hlo & Hhi).
  replace (1 + ndigits f (N / 10) - 1) with (ndigits f (N / 10)) by lia.
  replace (10 ^ (1 + ndigits f (N / 10))) with (10 * 10 ^ ndigits f (N / 10))
    by (rewrite Z.pow_add_r by lia; reflexivity).
  replace (10 ^ ndigits f (N / 10)) with (10 * 10 ^ (ndigits f (N / 10) - 1)) in *
    by (rewrite <- Z.pow_succ_r by lia; f_equal; lia).
  pose proof (Z.div_mod N 10 ltac:(lia)). pose proof (Z.mod_pos_bound N 10 ltac:(lia)).
  lia.
Qed.

Lemma num_digits_spec (N : Z) : 1 <= N ->
  1 <= num_digits N /\ 10 ^ (num_digits N - 1) <= N < 10 ^ num_digits N.
Proof.
  intros HN. unfold num_digits. apply ndigits_spec. split; [lia |].
  rewrite positive_nat_Z. destruct N as [| p | p]; try lia.
  cbn [Z.to_pos]. rewrite <- Pos2Z.inj_pow. exact (Pos.size_gt p).
Qed.

(** The number of digits is determined by the bounds. *)
Lemma digit_count_unique (N a b : Z) : 1 <= a -> 1 <= b ->
  10 ^ (a - 1) <= N < 10 ^ a -> 10 ^ (b - 1) <= N < 10 ^ b -> a = b.
Proof.
  intros Ha Hb HA HB.
  destruct (Z.lt_trichotomy a b) as [H | [H | H]]; [| exact H |];
    [assert (10 ^ a <= 10 ^ (b - 1)) | assert (10 ^ b <= 10 ^ (a - 1))];
    try (apply Z.pow_le_mono_r; lia); lia.
Qed.

Lemma num_digits_eq (N a : Z) : 1 <= a -> 10 ^ (a - 1) <= N < 10 ^ a -> num_digits N = a.
Proof.
  intros Ha HA. assert (1 <= N) by (pose proof (Z.pow_pos_nonneg 10 (a - 1)); lia).
  destruct (num_digits_spec N) as (H1 & H2); [lia |].
  exact (digit_count_unique N _ _ H1 Ha H2 HA).
Qed.

(** ** Digit lists *)

Lemma digits_value_acc (ds : list Z) : forall a,
  fold_left (fun acc d => acc * 10 + d) ds a
  = a * 10 ^ Z.of_nat (List.length ds) + digits_value 10 ds.
Proof.
  unfold digits_value. induction ds as [| d ds IH]; intros a; cbn [fold_left List.length].
  - cbn. lia.
  - rewrite IH, (IH (0 * 10 + d)), Nat2Z.inj_succ, Z.pow_succ_r by lia. ring.
Qed.

Lemma digits_value_cons (d : Z) (ds : list Z) :
  digits_value 10 (d :: ds) = d * 10 ^ Z.of_nat (List.length ds) + digits_value 10 ds.
Proof. unfold digits_value at 1. cbn [fold_left]. rewrite digits_value_acc. ring. Qed.

Lemma digits_value_bound (ds : list Z) : Forall (fun d => 0 <= d <= 9) ds ->
  0 <= digits_value 10 ds < 10 ^ Z.of_nat (List.length ds).
Proof.
  induction 1 as [| d ds Hd _ IH]; [cbn; lia |].
  rewrite digits_value_cons. cbn [List.length]. rewrite Nat2Z.inj_succ, Z.pow_succ_r by lia. nia.
Qed.

(** A digit list whose first digit is not [0] has as many digits as its
    value. *)
Lemma digits_value_leading (d : Z) (ds : list Z) : Forall (fun d => 0 <= d <= 9) (d :: ds) -> d <> 0 ->
  10 ^ Z.of_nat (List.length ds) <= digits_value 10 (d :: ds) < 10 ^ (Z.of_nat (List.length ds) + 1).
Proof.
  intros Hr Hd. inversion Hr as [| ? ? Hd9 Hds]; subst.
  pose proof (digits_value_bound ds Hds). rewrite digits_value_cons, Z.pow_add_r by lia. nia.
Qed.

Lemma digits_same_length (ds1 ds2 : list Z) : List.length ds1 = List.length ds2 ->
  Forall (fun d => 0 <= d <= 9) ds1 -> Forall (fun d => 0 <= d <= 9) ds2 ->
  digits_value 10 ds1 = digits_value 10 ds2 -> ds1 = ds2.
Proof.
  revert ds2. induction ds1 as [| d1 r1 IH]; intros [| d2 r2] Hl H1 H2 Hv; try discriminate; [reflexivity |].
  inversion H1 as [| ? ? Hd1 Hr1]; inversion H2 as [| ? ? Hd2 Hr2]; subst.
  injection Hl as Hl. rewrite !digits_value_cons, Hl in Hv.
  pose proof (digits_value_bound r1 Hr1) as B1. pose proof (digits_value_bound r2 Hr2). rewrite Hl in B1.
  assert (d1 = d2) as -> by nia. f_equal. apply IH; [exact Hl | exact Hr1 | exact Hr2 | lia].
Qed.

(** The digits of a positive number start with a nonzero digit. *)
Lemma digits_of_N_leading (s : Z) : 1 <= s ->
  exists d ds, digits_of_N (Z.to_N s) = d :: ds /\ d <> 0.
Proof.
  intros Hs. unfold digits_of_N.
  set (u := N.to_uint (Z.to_N s)).
  assert (Hu : u = Decimal.unorm u).
  { unfold u. rewrite <- DecimalN.Unsigned.to_of, DecimalN.Unsigned.of_to. reflexivity. }
  assert (Hn : Decimal.nzhead u <> Decimal.Nil).
  { intros H0. unfold Decimal.unorm in Hu. rewrite H0 in Hu.
    assert (N.of_uint u = 0%N) by (rewrite Hu; reflexivity).
    unfold u in H. rewrite DecimalN.Unsigned.of_to in H. lia. }
  assert (Hz : forall u', u <> Decimal.D0 u').
  { intros u' E. rewrite (unorm_nzhead u Hn) in Hu. rewrite Hu in E. exact (nzhead_nonzero _ _ E). }
  destruct u as [| u | u | u | u | u | u | u | u | u | u];
    [exfalso; exact (unorm_nonnil _ (eq_sym Hu)) | exfalso; exact (Hz u eq_refl) | ..];
    (eexists _, _; split; [reflexivity | discriminate]).
Qed.

Lemma digits_of_N_range (s : Z) : Forall (fun d => 0 <= d <= 9) (digits_of_N (Z.to_N s)).
Proof. apply uint_digits_range. Qed.

(** Appending [z] zeros to the digits of [s] gives the digits of
    [s * 10^z]. *)
Lemma digits_of_N_shift (s z : Z) : 1 <= s -> 0 <= z ->
  digits_of_N (Z.to_N (s * 10 ^ z)) = digits_of_N (Z.to_N s) ++ repeat 0 (Z.to_nat z).
Proof.
  intros Hs Hz.
  assert (Hp : 0 < 10 ^ z) by (apply Z.pow_pos_nonneg; lia).
  assert (Hv : digits_value 10 (digits_of_N (Z.to_N s) ++ repeat 0 (Z.to_nat z)) = s * 10 ^ z).
  { unfold digits_value. rewrite fold_left_app. fold (digits_value 10 (digits_of_N (Z.to_N s))).
    rewrite digits_of_N_value, Z2N.id by lia. rewrite digits_value_acc, repeat_length, Z2Nat.id by lia.
    replace (digits_value 10 (repeat 0 (Z.to_nat z))) with 0; [ring |].
    unfold digits_value. generalize (Z.to_nat z) as k. induction k as [| k IH]; [reflexivity |].
    cbn [repeat fold_left]. exact IH. }
  destruct (digits_of_N_leading (s * 10 ^ z)) as (d1 & r1 & E1 & H1); [nia |].
  destruct (digits_of_N_leading s Hs) as (d2 & r2 & E2 & H2).
  pose proof (digits_of_N_range (s * 10 ^ z)) as R1. rewrite E1 in R1 |- *.
  pose proof (digits_of_N_range s) as R2. rewrite E2 in R2, Hv |- *.
  assert (R2' : Forall (fun d => 0 <= d <= 9) ((d2 :: r2) ++ repeat 0 (Z.to_nat z)))
    by (apply Forall_app; split; [exact R2 | apply Forall_forall; intros x Hx;
        apply repeat_spec in Hx; lia]).
  assert (V1 : digits_value 10 (d1 :: r1) = s * 10 ^ z)
    by (rewrite <- E1, digits_of_N_value, Z2N.id; nia).
  pose proof (digits_value_leading d1 r1 R1 H1) as B1.
  pose proof (digits_value_leading d2 (r2 ++ repeat 0 (Z.to_nat z)) R2' H2) as B2.
  cbn [app] in Hv, B2. rewrite V1 in B1. rewrite Hv in B2.
  apply digits_same_length; [| exact R1 | exact R2' | rewrite V1, <- Hv; reflexivity].
  cbn [app List.length]. f_equal. apply Nat2Z.inj.
  pose proof (digit_count_unique (s * 10 ^ z) (Z.of_nat (List.length r1) + 1)
                (Z.of_nat (List.length (r2 ++ repeat 0 (Z.to_nat z))) + 1) ltac:(lia) ltac:(lia)
                ltac:(rewrite Z.add_simpl_r; exact B1) ltac:(rewrite Z.add_simpl_r; exact B2)).
  lia.
Qed.

Lemma string_of_digits_app (a b : list Z) :
  string_of_digits (a ++ b) = (string_of_digits a ++ string_of_digits b)%string.
Proof. induction a as [| d a IH]; cbn; [reflexivity | rewrite IH; reflexivity]. Qed.

Lemma digits_text_shift (s z : Z) : 1 <= s -> 0 <= z ->
  digits_text (s * 10 ^ z) = (digits_text s ++ zeros z)%string.
Proof.
  intros Hs Hz. unfold digits_text, zeros. rewrite digits_of_N_shift by assumption.
  apply string_of_digits_app.
Qed.

(** ** Doubles of integers *)

(** A safe positive integer is [m * 2^e] with [e <= 0]. *)
Lemma of_Z_safe_shape (n : Z) : 1 <= n < 2 ^ 53 ->
  exists m e, of_Z n = S754_finite false m e /\ e <= 0 /\ Zpos m = n * 2 ^ (- e).
Proof.
  intros Hn.
  destruct (Binary64Facts.of_Z_finite n ltac:(lia) ltac:(rewrite Z.abs_eq; lia)) as (m & e & E & C & D).
  replace (n <? 0) with false in E by (symmetry; apply Z.ltb_ge; lia).
  rewrite Z.abs_eq in D by lia.
  assert (He : e <= 0).
  { unfold canonical_at, shift_of in C. rewrite Binary64Facts.fexp_eq in C.
    assert (Hmag : mag m e = mag (Z.to_pos n) 0)
      by (apply Binary64Facts.mag_dy; rewrite Z2Pos.id by lia; exact D).
    rewrite !Binary64Facts.mag_log2, Z2Pos.id in Hmag by lia.
    assert (Z.log2 n < 53) by (apply Z.log2_lt_pow2; lia).
    rewrite Binary64Facts.mag_log2 in C. lia. }
  exists m, e. split; [exact E |]. split; [exact He |].
  apply (dy_eq_at _ _ _ _ e) in D; [| lia | lia].
  rewrite Z.sub_diag, Z.pow_0_r, Z.mul_1_r in D. rewrite D. replace (0 - e) with (- e) by lia. reflexivity.
Qed.

(** An integer above [2^53] is rounded to an exponent of at least [1]. *)
Lemma of_Z_big_shape (c : Z) : 2 ^ 53 < c < 2 ^ 999 ->
  exists m f, of_Z c = S754_finite false m f /\ 1 <= f.
Proof.
  intros Hc. rewrite Binary64Facts.of_Z_round by lia.
  replace (c <? 0) with false by (symmetry; apply Z.ltb_ge; lia).
  assert (Hmag : mag (Z.to_pos (Z.abs c)) 0 = Z.log2 c + 1)
    by (rewrite Binary64Facts.mag_log2, Z.abs_eq, Z2Pos.id by lia; lia).
  assert (53 <= Z.log2 c < 999)
    by (split; [apply Z.log2_le_pow2 | apply Z.log2_lt_pow2]; lia).
  destruct (round_error false (Z.to_pos (Z.abs c)) 0 (-1074)
              ltac:(rewrite Hmag; cbv [SpecFloat.emin prec emax]; lia)
              ltac:(rewrite Hmag, Binary64Facts.fexp_eq; lia) ltac:(lia))
    as (m & f & R & Hf & _).
  exists m, f. split; [exact R |]. rewrite Hmag, Binary64Facts.fexp_eq in Hf. lia.
Qed.

(** Distinct positive integers, the second safe, have distinct doubles. *)
Lemma of_Z_ne (c n : Z) : 1 <= n < 2 ^ 53 -> 1 <= c < 2 ^ 999 -> c <> n -> of_Z c <> of_Z n.
Proof.
  intros Hn Hc Hne E. destruct (of_Z_safe_shape n Hn) as (m & e & En & He & Hm).
  destruct (Z.le_gt_cases c (2 ^ 53)) as [Hs | Hb].
  - destruct (Binary64Facts.of_Z_finite c ltac:(lia) ltac:(rewrite Z.abs_eq; lia))
      as (m' & e' & Ec & _ & D).
    rewrite En, Ec in E. injection E as _ -> ->. rewrite Z.abs_eq in D by lia.
    apply (dy_eq_at _ _ _ _ e) in D; [| lia | lia].
    rewrite Z.sub_diag, Z.pow_0_r, Z.mul_1_r, Hm in D.
    assert (0 < 2 ^ (0 - e)) by (apply Z.pow_pos_nonneg; lia).
    replace (- e) with (0 - e) in D by lia. nia.
  - destruct (of_Z_big_shape c ltac:(lia)) as (m' & f & Ec & Hf).
    rewrite En, Ec in E. injection E as _ ->. lia.
Qed.

(** ** The search *)

Lemma search_found (x : number) (N d n : Z) (fuel : nat) : forall p q r,
  p <= q -> q < p + Z.of_nat fuel ->
  (forall p', p <= p' < q -> choose x N (10 ^ (d - p')) n p' = None) ->
  choose x N (10 ^ (d - q)) n q = Some r ->
  search fuel x N d n p = Some r.
Proof.
  induction fuel as [| f IH]; intros p q r Hpq Hq Hnone Hr; [lia |].
  cbn [search]. destruct (Z.eq_dec p q) as [-> | Hne]; [rewrite Hr; reflexivity |].
  rewrite Hnone by lia.
  apply (IH (p + 1) q r); [lia | lia | intros; apply Hnone; lia | exact Hr].
Qed.

(** ** Safe integers *)

Lemma scaled_int (m : positive) (e n : Z) : e <= 0 -> Zpos m = n * 2 ^ (- e) ->
  scaled m e = (n * 10 ^ (- e), - e).
Proof.
  intros He Hm. unfold scaled. destruct (Z.leb_spec 0 e) as [H0 | H0].
  - assert (e = 0) as -> by lia. rewrite Hm. cbn. f_equal. ring.
  - rewrite Hm, <- Z.mul_assoc, <- Z.pow_mul_l. reflexivity.
Qed.

(** Every positive integer is [s0 * 10^z] with [s0] not a multiple of 10. *)
Lemma trailing_zeros (n : Z) : 1 <= n ->
  exists s0 z, 1 <= s0 /\ 0 <= z /\ n = s0 * 10 ^ z /\ s0 mod 10 <> 0.
Proof.
  intros Hn. remember (Z.to_nat n) as k eqn:Hk.
  assert (Hb : n <= Z.of_nat k) by lia. clear Hk. revert n Hn Hb.
  induction k as [| k IH]; intros n Hn Hb; [lia |].
  destruct (Z.eq_dec (n mod 10) 0) as [H0 | H0].
  - pose proof (Z.div_mod n 10 ltac:(lia)) as Hd. rewrite H0, Z.add_0_r in Hd.
    destruct (IH (n / 10) ltac:(lia) ltac:(lia)) as (s0 & z & H1 & Hz & E & Hs).
    exists s0, (z + 1). split; [exact H1 |]. split; [lia |]. split; [| exact Hs].
    rewrite Hd, E, Z.pow_add_r by lia. ring.
  - exists n, 0. rewrite Z.pow_0_r, Z.mul_1_r. repeat split; lia.
Qed.

Section SafeInteger.
(** A safe positive integer [n], its digit count [Dn], its trailing
    zeros [z] after the significant digits [s0], and the power of ten
    [t] by which [scaled] multiplies it. *)
Variables (n t s0 z : Z).
Hypothesis Hn : 1 <= n < 2 ^ 53.
Hypothesis Ht : 0 <= t.
Hypothesis Hs0 : 1 <= s0.
Hypothesis Hz : 0 <= z.
Hypothesis Hsz : n = s0 * 10 ^ z.
Hypothesis Hs10 : s0 mod 10 <> 0.

Local Abbreviation Dn := (num_digits n).

Lemma safe_digits : 1 <= Dn <= 16 /\ 10 ^ (Dn - 1) <= n < 10 ^ Dn /\ z < Dn.
Proof.
  destruct (num_digits_spec n ltac:(lia)) as (H1 & Hlo & Hhi).
  assert (H16 : Dn <= 16).
  { destruct (Z.le_gt_cases Dn 16) as [H | H]; [exact H |].
    assert (10 ^ 16 <= 10 ^ (Dn - 1)) by (apply Z.pow_le_mono_r; lia). lia. }
  assert (Hzd : z < Dn).
  { destruct (Z.lt_ge_cases z Dn) as [H | H]; [exact H |].
    assert (10 ^ Dn <= 10 ^ z) by (apply Z.pow_le_mono_r; lia). nia. }
  lia.
Qed.

(** Below [Dn - z] digits, [n] is not a multiple of the unit. *)
Lemma safe_not_multiple (p : Z) : p < Dn - z -> n mod 10 ^ (Dn - p) <> 0.
Proof.
  set (D := num_digits n) in *.
  intros Hp H0. apply Z.mod_divide in H0; [| apply Z.pow_nonzero; lia].
  destruct H0 as [q Hq].
  replace (D - p) with ((D - p - z - 1) + 1 + z) in Hq by lia.
  rewrite !Z.pow_add_r, Hsz in Hq by lia.
  assert (HZ : 0 < 10 ^ z) by (apply Z.pow_pos_nonneg; lia).
  assert (E : s0 = (q * 10 ^ (D - p - z - 1)) * 10) by (rewrite Z.pow_1_r in Hq; nia).
  apply Hs10. rewrite E. apply Z.mod_mul. lia.
Qed.

Lemma safe_unit (p : Z) : 1 <= p <= Dn ->
  10 ^ (Dn + t - p) = 10 ^ (Dn - p) * 10 ^ t /\ 1 <= n / 10 ^ (Dn - p) < 10 ^ p.
Proof.
  intros Hp. destruct safe_digits as (H1 & [Hlo Hhi] & _).
  split; [rewrite <- Z.pow_add_r by lia; f_equal; lia |].
  assert (0 < 10 ^ (Dn - p)) by (apply Z.pow_pos_nonneg; lia).
  split.
  - apply Z.div_le_lower_bound; [lia |].
    assert (10 ^ (Dn - p) <= 10 ^ (Dn - 1)) by (apply Z.pow_le_mono_r; lia). lia.
  - apply Z.div_lt_upper_bound; [lia |]. rewrite <- Z.pow_add_r by lia.
    replace (Dn - p + p) with Dn by lia. exact Hhi.
Qed.

(** Precisions below the significant digits find no candidate. *)
Lemma choose_safe_none (p : Z) : 1 <= p < Dn - z ->
  choose (of_Z n) (n * 10 ^ t) (10 ^ (Dn + t - p)) Dn p = None.
Proof.
  intros Hp. destruct safe_digits as (H1 & [Hlo Hhi] & Hzd).
  destruct (safe_unit p ltac:(lia)) as (Hu & Hq). rewrite Hu.
  set (P := 10 ^ (Dn - p)) in *.
  assert (HP : 0 < P) by (apply Z.pow_pos_nonneg; lia).
  assert (HT : 0 < 10 ^ t) by (apply Z.pow_pos_nonneg; lia).
  pose proof (safe_not_multiple p ltac:(lia)) as Hm. fold P in Hm.
  pose proof (Z.div_mod n P ltac:(lia)). pose proof (Z.mod_pos_bound n P HP).
  unfold choose. rewrite Z.div_mul_cancel_r, Z.mul_mod_distr_r by lia.
  replace (n mod P * 10 ^ t =? 0) with false by (symmetry; apply Z.eqb_neq; nia).
  rewrite !decimal_value_int by lia.
  fold P. assert (P <= 10 ^ 16) by (apply Z.pow_le_mono_r; lia).
  replace (number_eqb (of_Z (n / P * P)) (of_Z n)) with false.
  2:{ symmetry. apply Bool.not_true_iff_false. rewrite Binary64Facts.number_eqb_eq.
      apply of_Z_ne; [exact Hn | split; [nia | pose proof (Z.pow_lt_mono_r 2 53 999); lia] | nia]. }
  replace (number_eqb (of_Z ((n / P + 1) * P)) (of_Z n)) with false.
  2:{ symmetry. apply Bool.not_true_iff_false. rewrite Binary64Facts.number_eqb_eq.
      apply of_Z_ne; [exact Hn | split; [nia |] | nia].
      assert (10 ^ 16 * 10 ^ 16 < 2 ^ 999) by (cbn; lia). nia. }
  reflexivity.
Qed.

(** At exactly the significant digits the candidate is [s0]. *)
Lemma choose_safe_found :
  choose (of_Z n) (n * 10 ^ t) (10 ^ (Dn + t - (Dn - z))) Dn (Dn - z) = Some (s0, Dn - z, Dn).
Proof.
  destruct safe_digits as (H1 & [Hlo Hhi] & Hzd).
  destruct (safe_unit (Dn - z) ltac:(lia)) as (Hu & Hq). rewrite Hu.
  set (D := num_digits n) in *.
  replace (D - (D - z)) with z in * by lia.
  assert (HZ : 0 < 10 ^ z) by (apply Z.pow_pos_nonneg; lia).
  assert (HT : 0 < 10 ^ t) by (apply Z.pow_pos_nonneg; lia).
  assert (Hd : n / 10 ^ z = s0) by (rewrite Hsz; apply Z.div_mul; lia).
  rewrite Hd in Hq. unfold choose. rewrite Z.div_mul_cancel_r, Z.mul_mod_distr_r, Hd by lia.
  rewrite Hsz, Z.mod_mul, Z.mul_0_l, Z.eqb_refl by lia. rewrite Hsz in Hd.
  rewrite !decimal_value_int by lia.
  replace (D - (D - z)) with z by lia.
  rewrite (proj2 (Binary64Facts.number_eqb_eq _ _) eq_refl).
  replace (s0 * 10 ^ z * 10 ^ t - s0 * (10 ^ z * 10 ^ t)) with 0 by ring.
  replace (s0 * (10 ^ z * 10 ^ t) - s0 * 10 ^ z * 10 ^ t) with 0 by ring.
  assert (E10 : (s0 =? 10 ^ (D - z)) = false) by (apply Z.eqb_neq; lia).
  rewrite Z.ltb_irrefl. cbn [andb]. destruct (Z.even s0); cbv beta; rewrite E10; reflexivity.
Qed.
End SafeInteger.

Lemma num_digits_scaled (n t : Z) : 1 <= n -> 0 <= t ->
  num_digits (n * 10 ^ t) = num_digits n + t.
Proof.
  intros Hn Ht. destruct (num_digits_spec n Hn) as (H1 & Hlo & Hhi).
  apply num_digits_eq; [lia |].
  replace (num_digits n + t - 1) with ((num_digits n - 1) + t) by lia.
  rewrite !Z.pow_add_r by lia.
  assert (0 < 10 ^ t) by (apply Z.pow_pos_nonneg; lia). nia.
Qed.

(** Step 5 on a safe positive integer: its significant digits, their
    count, and its digit count. *)
Lemma shortest_safe (n : Z) (m : positive) (e : Z) : 1 <= n < 2 ^ 53 ->
  of_Z n = S754_finite false m e -> e <= 0 -> Zpos m = n * 2 ^ (- e) ->
  exists s0 z, 1 <= s0 /\ 0 <= z /\ n = s0 * 10 ^ z /\
    shortest m e = (s0, num_digits n - z, num_digits n) /\ num_digits n <= 16 /\ z < num_digits n.
Proof.
  intros Hn E He Hm. destruct (trailing_zeros n ltac:(lia)) as (s0 & z & Hs0 & Hz & Hsz & Hs10).
  pose proof (safe_digits n s0 z Hn Hs0 Hz Hsz) as (H1 & _ & Hzd).
  exists s0, z. do 3 (split; [assumption |]). split; [| lia].
  unfold shortest. rewrite (scaled_int m e n He Hm).
  rewrite num_digits_scaled by lia.
  replace (num_digits n + - e - - e) with (num_digits n) by lia.
  rewrite <- E.
  rewrite (search_found (of_Z n) (n * 10 ^ (- e)) (num_digits n + - e) (num_digits n)
             (Z.to_nat (num_digits n + - e)) 1 (num_digits n - z) (s0, num_digits n - z, num_digits n));
    [reflexivity | lia | lia | |].
  - intros p' Hp'. exact (choose_safe_none n (- e) s0 z Hn ltac:(lia) Hs0 Hz Hsz Hs10 p' ltac:(lia)).
  - exact (choose_safe_found n (- e) s0 z Hn ltac:(lia) Hs0 Hz Hsz).
Qed.

Lemma toString_pos_safe (n : Z) : 1 <= n < 2 ^ 53 -> toString (of_Z n) = digits_text n.
Proof.
  intros Hn. destruct (of_Z_safe_shape n Hn) as (m & e & E & He & Hm).
  destruct (shortest_safe n m e Hn E He Hm) as (s0 & z & Hs0 & Hz & Hsz & S & H16 & Hzd).
  rewrite E. unfold toString. rewrite S. unfold format_decimal.
  replace ((-5 <=? num_digits n) && (num_digits n <=? 21)) with true
    by (symmetry; apply andb_true_iff; split; apply Z.leb_le; pose proof (num_digits_spec n); lia).
  replace (num_digits n - z <=? num_digits n) with true by (symmetry; apply Z.leb_le; lia).
  replace (num_digits n - (num_digits n - z)) with z by lia.
  rewrite Hsz, digits_text_shift by assumption. reflexivity.
Qed.

(** A negative double prints as its opposite behind a minus sign. *)
Lemma toString_neg (m : positive) (e : Z) :
  toString (S754_finite true m e) = ("-" ++ toString (S754_finite false m e))%string.
Proof. unfold toString. destruct (shortest m e) as [[s k] n]. reflexivity. Qed.

Lemma of_Z_opp_safe (n : Z) : 1 <= n < 2 ^ 53 ->
  exists m e, of_Z n = S754_finite false m e /\ of_Z (- n) = S754_finite true m e.
Proof.
  intros Hn.
  destruct (Binary64Facts.of_Z_finite n ltac:(lia) ltac:(rewrite Z.abs_eq; lia)) as (m & e & E & C & D).
  destruct (Binary64Facts.of_Z_finite (- n) ltac:(lia) ltac:(rewrite Z.abs_neq; lia))
    as (m' & e' & E' & C' & D').
  rewrite Z.abs_opp in D'.
  destruct (Binary64Facts.canonical_unique m m' e e' C C' ltac:(rewrite D, D'; reflexivity)) as [<- <-].
  exists m, e. rewrite E, E'.
  replace (n <? 0) with false by (symmetry; apply Z.ltb_ge; lia).
  replace (- n <? 0) with true by (symmetry; apply Z.ltb_lt; lia). split; reflexivity.
Qed.

(** [toString] of a safe integer, as a lemma for the clients. *)
Lemma toString_safe (n : Z) : Z.abs n < 2 ^ 53 -> toString (of_Z n) = decimal_of_Z n.
Proof.
  intros Hb. unfold decimal_of_Z.
  destruct (Z.lt_trichotomy n 0) as [Hneg | [-> | Hpos]]; [| reflexivity |].
  - destruct (of_Z_opp_safe (- n) ltac:(lia)) as (m & e & E & E').
    rewrite Z.opp_involutive in E'.
    rewrite E', toString_neg, <- E, toString_pos_safe by lia.
    replace (n <? 0) with true by (symmetry; apply Z.ltb_lt; lia).
    unfold digits_text. replace (Z.to_N (- n)) with (Z.abs_N n); [reflexivity |].
    destruct n; [lia | lia | reflexivity].
  - rewrite toString_pos_safe by lia.
    replace (n <? 0) with false by (symmetry; apply Z.ltb_ge; lia).
    unfold digits_text. replace (Z.to_N n) with (Z.abs_N n); [reflexivity |].
    destruct n; [lia | reflexivity | lia].
Qed.

(** ** Exactness: the decimal of a double rounds back to it *)

(** Rounding a multiple [mz * 2^ez] of the value of a valid double, on a
    finer grid, gives that double. *)
Lemma round_aux_valid (mz m : positive) (ez e : Z) :
  valid_binary prec emax (S754_finite false m e) = true -> ez <= e ->
  Zpos mz = Zpos m * 2 ^ (e - ez) ->
  binary_round_aux prec emax false (Zpos mz) ez loc_Exact = S754_finite false m e.
Proof.
  intros Hv He Hm. pose proof (canonical_of_valid m e Hv) as C.
  assert (Hb : e <= emax - prec)
    by (cbn [valid_binary] in Hv; unfold bounded in Hv; apply andb_prop in Hv as [_ Hv]; lia).
  assert (Hmag : mag mz ez = mag m e).
  { apply Binary64Facts.mag_dy. apply (dy_eq_at _ _ _ _ ez); [lia | lia |].
    rewrite Z.sub_diag, Z.pow_0_r, Z.mul_1_r. exact Hm. }
  assert (Hs : shift_of mz ez = e - ez) by (unfold canonical_at, shift_of in *; rewrite Hmag; lia).
  rewrite (Binary64Facts.round_aux_exact false mz m ez) by (rewrite Hs; lia).
  rewrite Hs. replace (ez + (e - ez)) with e by lia.
  replace (e <=? emax - prec) with true by (symmetry; apply Z.leb_le; exact Hb). reflexivity.
Qed.

(** [of_Z] of the integer value of a valid double is that double. *)
Lemma of_Z_valid (m : positive) (e V : Z) :
  valid_binary prec emax (S754_finite false m e) = true -> 1 <= V ->
  V * 2 ^ (- Z.min e 0) = Zpos m * 2 ^ (e - Z.min e 0) -> of_Z V = S754_finite false m e.
Proof.
  intros Hv HV HVm. pose proof (canonical_of_valid m e Hv) as C.
  destruct V as [| v | v]; try lia. unfold of_Z, binary_normalize, binary_round.
  assert (D : dy_eq (Zpos v, 0) (Zpos m, e))
    by (apply (dy_eq_at _ _ _ _ (Z.min e 0)); [lia | lia | rewrite Z.sub_0_l; exact HVm]).
  change (Zpos (digits2_pos v) + 0) with (mag v 0). rewrite (Binary64Facts.mag_dy _ _ _ _ D).
  replace (fexp (mag m e)) with e by (unfold canonical_at, shift_of in C; lia).
  destruct (Binary64Facts.shl_align_dy v 0 e) as (D' & Hlt & Hge).
  destruct (shl_align v 0 e) as [mz ez] eqn:E; cbn [fst snd] in *.
  assert (Hez : ez = Z.min e 0)
    by (destruct (Z.lt_ge_cases e 0) as [H | H]; [rewrite (Hlt H); lia | injection (Hge H); lia]).
  apply round_aux_valid; [exact Hv | lia |].
  rewrite D in D'. apply (dy_eq_at _ _ _ _ ez) in D'; [| lia | lia].
  rewrite Z.sub_diag, Z.pow_0_r, Z.mul_1_r in D'. exact D'.
Qed.

(** [SFdiv]'s quotient of [A] by [B], when [A / B] is the value of a valid
    double, is that double: the quotient's digit estimate never exceeds
    the double's magnitude, so the division is exact. *)
Lemma div_path_valid (A B : Z) (m : positive) (e : Z) :
  valid_binary prec emax (S754_finite false m e) = true -> 1 <= A -> 1 <= B ->
  A * 2 ^ (- Z.min e 0) = Zpos m * B * 2 ^ (e - Z.min e 0) ->
  (let '(q, e', l) := SFdiv_core_binary prec emax A 0 B 0 in binary_round_aux prec emax false q e' l)
  = S754_finite false m e.
Proof.
  intros Hv HA HB HAB. pose proof (canonical_of_valid m e Hv) as C.
  unfold canonical_at, shift_of in C. rewrite Binary64Facts.fexp_eq, Binary64Facts.mag_log2 in C.
  assert (Hlog : Z.log2 A <= Z.log2 (Zpos m) + Z.log2 B + 1 + e).
  { pose proof (f_equal Z.log2 HAB) as HL.
    rewrite Z.log2_mul_pow2, Z.log2_mul_pow2 in HL by lia.
    pose proof (Z.log2_mul_above (Zpos m) B ltac:(lia) ltac:(lia)). lia. }
  unfold SFdiv_core_binary. cbv zeta. rewrite !Zdigits2_log2 by lia.
  set (e' := Z.min (fexp (Z.log2 A + 1 + 0 - (Z.log2 B + 1 + 0))) (0 - 0)).
  assert (He' : e' <= Z.min e 0) by (unfold e'; rewrite Binary64Facts.fexp_eq; lia).
  assert (Hm' : match 0 - 0 - e' with Zpos _ => Z.shiftl A (0 - 0 - e') | Z0 => A | Zneg _ => 0 end
                = A * 2 ^ (- e')).
  { destruct (0 - 0 - e') as [| p | p] eqn:Es.
    - replace e' with 0 by lia. rewrite Z.pow_0_r. ring.
    - rewrite Z.shiftl_mul_pow2 by lia. f_equal. f_equal. lia.
    - lia. }
  rewrite Hm'.
  assert (Hq : A * 2 ^ (- e') = (Zpos m * 2 ^ (e - e')) * B).
  { replace (- e') with (- Z.min e 0 + (Z.min e 0 - e')) by lia.
    rewrite Z.pow_add_r, Z.mul_assoc, HAB by lia.
    replace (e - e') with ((e - Z.min e 0) + (Z.min e 0 - e')) by lia.
    rewrite Z.pow_add_r by lia. ring. }
  rewrite Hq. destruct (Z.div_eucl (Zpos m * 2 ^ (e - e') * B) B) as [q r] eqn:Ed.
  assert (Eq : q = Zpos m * 2 ^ (e - e'))
    by (change q with (fst (q, r)); rewrite <- Ed; apply Z.div_mul; lia).
  assert (Er : r = 0) by (change r with (snd (q, r)); rewrite <- Ed; apply Z.mod_mul; lia).
  subst q r.
  replace (new_location B 0) with loc_Exact
    by (unfold new_location, new_location_even, new_location_odd; destruct (Z.even B); reflexivity).
  assert (Hpos : 0 < Zpos m * 2 ^ (e - e')) by (pose proof (pow2_pos (e - e') ltac:(lia)); lia).
  rewrite <- (Z2Pos.id _ Hpos). apply round_aux_valid; [exact Hv | lia |].
  rewrite Z2Pos.id by exact Hpos. reflexivity.
Qed.

Lemma strip10_spec (fuel : nat) : forall s j,
  let '(s', j') := strip10 fuel s j in
  exists k, 0 <= k /\ s = s' * 10 ^ k /\ j' = j + k /\ (k = 0 \/ j' <= 0).
Proof.
  induction fuel as [| f IH]; intros s j; cbn [strip10].
  - exists 0. rewrite Z.pow_0_r. repeat split; lia.
  - destruct ((j <? 0) && (s mod 10 =? 0)) eqn:Ec.
    + apply andb_true_iff in Ec as [Hj Hs]. apply Z.ltb_lt in Hj. apply Z.eqb_eq in Hs.
      specialize (IH (s / 10) (j + 1)). destruct (strip10 f (s / 10) (j + 1)) as [s' j'].
      destruct IH as (k & Hk & E & Ej & Hor). exists (k + 1).
      rewrite Z.pow_add_r, Z.mul_assoc, <- E by lia.
      repeat split; [lia | rewrite (Z.div_mod s 10) at 1 by lia; lia | lia | lia].
    + exists 0. rewrite Z.pow_0_r. repeat split; lia.
Qed.

Lemma cancel_pow10 (a b k : Z) : 0 <= k -> a * 10 ^ k = b * 10 ^ k -> a = b.
Proof. intros Hk H. apply Z.mul_reg_r with (10 ^ k); [apply Z.pow_nonzero; lia | exact H]. Qed.

(** The decimal [s * 10^j] of the value of a valid double is rounded to
    that double. *)
Lemma decimal_value_exact (s j : Z) (m : positive) (e : Z) :
  valid_binary prec emax (S754_finite false m e) = true -> 1 <= s ->
  s * 10 ^ Z.max j 0 * 2 ^ (- Z.min e 0) = Zpos m * 10 ^ Z.max (- j) 0 * 2 ^ (e - Z.min e 0) ->
  decimal_value s j = S754_finite false m e.
Proof.
  intros Hv Hs Hval. unfold decimal_value.
  pose proof (strip10_spec (Z.to_nat (- j)) s j) as Hsp.
  destruct (strip10 (Z.to_nat (- j)) s j) as [s' j'].
  destruct Hsp as (k & Hk & Es & Ej & Hor).
  assert (HK : 0 < 10 ^ k) by (apply Z.pow_pos_nonneg; lia).
  assert (Hs' : 1 <= s') by nia.
  destruct (Z.leb_spec 0 j') as [Hj | Hj].
  - apply of_Z_valid; [exact Hv | pose proof (Z.pow_pos_nonneg 10 j' ltac:(lia)); nia |].
    destruct Hor as [-> | Hj0].
    + rewrite Z.pow_0_r, Z.mul_1_r in Es. subst s'. rewrite Z.add_0_r in Ej. subst j'.
      rewrite Z.max_l, Z.max_r, Z.pow_0_r, Z.mul_1_r in Hval by lia. exact Hval.
    + assert (j' = 0) as -> by lia. rewrite Z.pow_0_r, Z.mul_1_r.
      rewrite Z.max_r, Z.max_l in Hval by lia. replace (- j) with k in Hval by lia.
      rewrite Z.pow_0_r, Z.mul_1_r, Es in Hval. apply (cancel_pow10 _ _ k Hk). lia.
  - apply div_path_valid; [exact Hv | exact Hs' | pose proof (Z.pow_pos_nonneg 10 (- j') ltac:(lia) ltac:(lia)); lia |].
    rewrite Z.max_r, Z.max_l in Hval by lia. rewrite Z.pow_0_r, Z.mul_1_r, Es in Hval.
    replace (- j) with (- j' + k) in Hval by lia. rewrite Z.pow_add_r in Hval by lia.
    apply (cancel_pow10 _ _ k Hk). lia.
Qed.

(** The exact decimal [N * 10^(-t)] of a valid positive double. *)
Lemma scaled_exact (m : positive) (e : Z) :
  valid_binary prec emax (S754_finite false m e) = true ->
  let '(N, t) := scaled m e in
  1 <= N /\ 0 <= t /\ decimal_value N (- t) = S754_finite false m e.
Proof.
  intros Hv. unfold scaled. destruct (Z.leb_spec 0 e) as [He | He].
  - pose proof (pow2_pos e He). split; [nia | split; [lia |]].
    apply decimal_value_exact; [exact Hv | nia |].
    rewrite Z.min_r by lia. cbn [Z.max Z.opp]. rewrite Z.sub_0_r. ring.
  - assert (0 < 5 ^ (- e)) by (apply Z.pow_pos_nonneg; lia).
    split; [nia | split; [lia |]].
    apply decimal_value_exact; [exact Hv | nia |].
    rewrite Z.min_l, Z.max_r, Z.max_l, Z.sub_diag by lia. rewrite Z.opp_involutive.
    replace (10 ^ (- e)) with (5 ^ (- e) * 2 ^ (- e)) by (rewrite <- Z.pow_mul_l; reflexivity). ring.
Qed.

(** ** Soundness of the search *)

(** A candidate that gives [x] back, written with [p] digits. *)
Lemma pick_sound (x : number) (t n p : Z) : 1 <= p -> 10 ^ (p - 1) <= t <= 10 ^ p ->
  decimal_value t (n - p) = x ->
  let '(s, k, n') := (if t =? 10 ^ p then (10 ^ (p - 1), p, n + 1) else (t, p, n)) in
  k = p /\ 10 ^ (k - 1) <= s < 10 ^ k /\ decimal_value s (n' - k) = x.
Proof.
  intros Hp Ht Hx. destruct (Z.eqb_spec t (10 ^ p)) as [-> | Hne].
  - assert (10 ^ (p - 1) < 10 ^ p) by (apply Z.pow_lt_mono_r; lia).
    split; [reflexivity | split; [lia |]].
    rewrite <- decimal_value_shift. rewrite <- Z.pow_succ_r by lia.
    replace (Z.succ (p - 1)) with p by lia. replace (n + 1 - p - 1) with (n - p) by lia. exact Hx.
  - split; [reflexivity | split; [lia | exact Hx]].
Qed.

Lemma choose_sound (x : number) (N d n p s k n' : Z) :
  1 <= p <= d -> 10 ^ (d - 1) <= N < 10 ^ d ->
  choose x N (10 ^ (d - p)) n p = Some (s, k, n') ->
  k = p /\ 10 ^ (k - 1) <= s < 10 ^ k /\ decimal_value s (n' - k) = x.
Proof.
  intros Hp HN. set (D := 10 ^ (d - p)).
  assert (HD : 0 < D) by (apply Z.pow_pos_nonneg; lia).
  assert (Hlo : 10 ^ (p - 1) <= N / D < 10 ^ p).
  { split.
    - apply Z.div_le_lower_bound; [lia |]. unfold D. rewrite <- Z.pow_add_r by lia.
      replace (d - p + (p - 1)) with (d - 1) by lia. lia.
    - apply Z.div_lt_upper_bound; [lia |]. unfold D. rewrite <- Z.pow_add_r by lia.
      replace (d - p + p) with d by lia. lia. }
  assert (Hhi : 10 ^ (p - 1) <= (if N mod D =? 0 then N / D else N / D + 1) <= 10 ^ p)
    by (destruct (N mod D =? 0); lia).
  unfold choose. cbv zeta.
  set (lo := N / D) in *. set (hi := if N mod D =? 0 then lo else lo + 1) in *.
  destruct (number_eqb (decimal_value lo (n - p)) x) eqn:El;
  destruct (number_eqb (decimal_value hi (n - p)) x) eqn:Eh;
  apply Binary64Facts.number_eqb_eq in El || idtac; apply Binary64Facts.number_eqb_eq in Eh || idtac;
  cbn [andb]; intros H; try discriminate; injection H as H.
  - destruct (N - lo * D <? hi * D - N); [| destruct (hi * D - N <? N - lo * D);
      [| destruct (Z.even lo)]];
      [pose proof (pick_sound x lo n p ltac:(lia) ltac:(lia) El) as P
      | pose proof (pick_sound x hi n p ltac:(lia) Hhi Eh) as P
      | pose proof (pick_sound x lo n p ltac:(lia) ltac:(lia) El) as P
      | pose proof (pick_sound x hi n p ltac:(lia) Hhi Eh) as P]; rewrite H in P; exact P.
  - pose proof (pick_sound x lo n p ltac:(lia) ltac:(lia) El) as P. rewrite H in P. exact P.
  - pose proof (pick_sound x hi n p ltac:(lia) Hhi Eh) as P. rewrite H in P. exact P.
Qed.

Lemma search_result (x : number) (N d n : Z) (fuel : nat) : forall p r,
  search fuel x N d n p = Some r ->
  exists q, p <= q < p + Z.of_nat fuel /\ choose x N (10 ^ (d - q)) n q = Some r.
Proof.
  induction fuel as [| f IH]; intros p r H; cbn [search] in H; [discriminate |].
  destruct (choose x N (10 ^ (d - p)) n p) as [r' |] eqn:E.
  - injection H as <-. exists p. split; [lia | exact E].
  - destruct (IH (p + 1) r H) as (q & Hq & Eq). exists q. split; [lia | exact Eq].
Qed.

Lemma search_some (x : number) (N d n : Z) (fuel : nat) : forall p q,
  p <= q < p + Z.of_nat fuel -> choose x N (10 ^ (d - q)) n q <> None ->
  search fuel x N d n p <> None.
Proof.
  induction fuel as [| f IH]; intros p q Hq Hc; [lia |]. cbn [search].
  destruct (choose x N (10 ^ (d - p)) n p) eqn:E; [discriminate |].
  apply (IH (p + 1) q); [| exact Hc].
  destruct (Z.eq_dec p q) as [-> | Hne]; [congruence | lia].
Qed.

(** At the full digit count the candidate is the exact decimal itself. *)
Lemma choose_full (x : number) (N d n : Z) : 1 <= N < 10 ^ d ->
  decimal_value N (n - d) = x -> choose x N (10 ^ (d - d)) n d <> None.
Proof.
  intros HN Hx. rewrite Z.sub_diag, Z.pow_0_r. unfold choose. cbv zeta.
  rewrite Z.div_1_r, Z.mod_1_r, Z.eqb_refl, Hx, (proj2 (Binary64Facts.number_eqb_eq x x) eq_refl).
  cbn [andb]. discriminate.
Qed.

(** Termination of step 5: for every valid positive finite double,
    the search over precisions [1 .. d] ([d] the digit count of its exact
    decimal [N]) finds a representation before its bound runs out, so
    [shortest] never falls back on its default. *)
Lemma shortest_total (m : positive) (e : Z) :
  valid_binary prec emax (S754_finite false m e) = true ->
  let '(N, t) := scaled m e in
  search (Z.to_nat (num_digits N)) (S754_finite false m e) N (num_digits N) (num_digits N - t) 1 <> None.
Proof.
  intros Hv. pose proof (scaled_exact m e Hv) as Hs.
  destruct (scaled m e) as [N t]. destruct Hs as (HN & Ht & Hx).
  destruct (num_digits_spec N HN) as (H1 & _ & Hhi).
  apply (search_some _ _ _ _ _ 1 (num_digits N)); [lia |].
  apply choose_full; [lia |]. replace (num_digits N - t - num_digits N) with (- t) by lia. exact Hx.
Qed.

(** Soundness of step 5: for every valid positive finite double [x],
    [shortest] returns [(s, k, n)] with [s] of exactly [k] digits
    ([10^(k-1) <= s < 10^k]) and [𝔽(s * 10^(n-k)) = x], as ECMA-262
    requires of the digits Number::toString prints. *)
Lemma shortest_sound (m : positive) (e : Z) :
  valid_binary prec emax (S754_finite false m e) = true ->
  let '(s, k, n) := shortest m e in
  1 <= k /\ 10 ^ (k - 1) <= s < 10 ^ k /\ decimal_value s (n - k) = S754_finite false m e.
Proof.
  intros Hv. pose proof (scaled_exact m e Hv) as Hs. unfold shortest.
  destruct (scaled m e) as [N t]. destruct Hs as (HN & Ht & Hx).
  destruct (num_digits_spec N HN) as (H1 & Hlo & Hhi).
  destruct (search _ _ _ _ _ _) as [[[s k] n'] |] eqn:E.
  - destruct (search_result _ _ _ _ _ _ _ E) as (q & Hq & Ec).
    destruct (choose_sound _ N (num_digits N) _ q s k n' ltac:(lia) (conj Hlo Hhi) Ec) as (-> & Hb & Hd).
    split; [lia | split; [exact Hb | exact Hd]].
  - split; [lia | split; [lia |]].
    replace (num_digits N - t - num_digits N) with (- t) by lia. exact Hx.
Qed.

(** ** Theorems *)

(** C21. Round trip of Number::toString on safe integers: the double of
    every integer of magnitude below [2^53] is printed as the integer's
    plain decimal text, sign first, with no exponent and no fraction, and
    the handler expression [parseInt(text) || 0] reads that text back as
    the same double. *)
Theorem toString_of_Z (n : Z) : Z.abs n < 2 ^ 53 ->
  toString (of_Z n) = decimal_of_Z n /\ parse_field (toString (of_Z n)) = of_Z n.
Proof.
  intros Hb. rewrite toString_safe by exact Hb.
  split; [reflexivity | apply parse_field_decimal].
Qed.

Lemma toString_of_Z_witness :
  Z.abs (-4500) < 2 ^ 53 /\
  toString (of_Z (-4500)) = decimal_of_Z (-4500) /\ parse_field (toString (of_Z (-4500))) = of_Z (-4500).
Proof. split; [lia | apply toString_of_Z; lia]. Defined.

End NumberString.
