(* ===== verification/HustleTypes.v ===== *)
(** * The hustle-type table and the tips list

    [App.tsx] lines 10-24 declare two constant tables: [HUSTLE_TIPS], four
    strings shown as a list, and [HUSTLE_TYPES], six records [{ value, label,
    rateRange }] that fill the select and give the "typical rate range" hint.
    Line 40 looks the current type up with [Array.prototype.find].  The
    theorems: the lookup returns the record whose value is the stored type
    (unique, the six values being distinct), and it returns nothing exactly
    when the stored type is not one of the six values. *)

From Stdlib Require Import List String Ascii Bool.
From S2P Require Import Prelude.
Import ListNotations.
Open Scope string_scope.

Module HustleTypes.

(** An element of [HUSTLE_TYPES]. *)
Record HustleType : Type := mkHustleType {
  value : string;
  label : string;
  rateRange : string
}.

(** [HUSTLE_TIPS] (lines 10-15); the dash of the first tip is U+2014, three
    bytes in UTF-8. *)
Definition HUSTLE_TIPS : list string := [
  "Consistency is key — regular hours build reliable income";
  "Track all expenses to maximize your net earnings";
  "Consider taxes — set aside 25-30% for self-employment tax";
  "Diversify hustles to reduce income volatility"
].

(** [HUSTLE_TYPES] (lines 17-24). *)
Definition HUSTLE_TYPES : list HustleType := [
  mkHustleType "rideshare" "Rideshare / Delivery" "$15-30/hr";
  mkHustleType "freelance" "Freelance Services" "$25-75/hr";
  mkHustleType "tutoring" "Tutoring / Teaching" "$20-50/hr";
  mkHustleType "taskbased" "Task-Based (TaskRabbit, etc.)" "$18-35/hr";
  mkHustleType "creative" "Creative Work (Design, Writing)" "$30-80/hr";
  mkHustleType "other" "Other" "Varies"
].

(** [HUSTLE_TYPES.find(h => h.value === values.hustleType)] (line 40):
    the first record whose value is the given string, or [undefined]. *)
Definition selectedHustle (hustleType : string) : option HustleType :=
  find (fun h => String.eqb h.(value) hustleType) HUSTLE_TYPES.

Lemma selectedHustle_of_In (t : string) :
  In t (map value HUSTLE_TYPES) -> exists h, selectedHustle t = Some h.
Proof.
  intros Hin. destruct (selectedHustle t) as [h |] eqn:E; [eauto |].
  apply in_map_iff in Hin as (h & Hv & Hin).
  unfold selectedHustle in E. apply (find_none _ _ E) in Hin.
  rewrite Hv, String.eqb_refl in Hin. discriminate.
Qed.

(** ** Theorems *)

(** The six option values are pairwise distinct. *)
Lemma values_distinct : NoDup (map value HUSTLE_TYPES).
Proof.
  cbv [HUSTLE_TYPES map value].
  repeat (apply NoDup_cons; [cbn; intros H; repeat destruct H as [H | H]; (discriminate || contradiction) |]).
  apply NoDup_nil.
Qed.

Lemma selectedHustle_found (t : string) (h : HustleType) :
  selectedHustle t = Some h -> In h HUSTLE_TYPES /\ value h = t.
Proof.
  unfold selectedHustle. intros H. apply find_some in H as [Hin Heq].
  apply String.eqb_eq in Heq. auto.
Qed.

(** C16. The lookup of line 40 returns a record exactly when it is one of the
    six and its value is the stored type; since the values are distinct, that
    record is unique. *)
Theorem selectedHustle_spec (t : string) (h : HustleType) :
  selectedHustle t = Some h <-> In h HUSTLE_TYPES /\ value h = t.
Proof.
  split; [apply selectedHustle_found |]. intros [Hin Hv].
  destruct (selectedHustle t) as [h' |] eqn:E.
  - apply selectedHustle_found in E as [Hin' Hv']. f_equal.
    apply (NoDup_map_key value HUSTLE_TYPES h' h values_distinct Hin' Hin). congruence.
  - unfold selectedHustle in E. apply (find_none _ _ E) in Hin.
    rewrite Hv, String.eqb_refl in Hin. discriminate.
Qed.

Lemma selectedHustle_spec_witness :
  In (mkHustleType "tutoring" "Tutoring / Teaching" "$20-50/hr") HUSTLE_TYPES /\
  selectedHustle "tutoring" = Some (mkHustleType "tutoring" "Tutoring / Teaching" "$20-50/hr").
Proof.
  split; [cbv [HUSTLE_TYPES In]; tauto |].
  apply selectedHustle_spec. split; [cbv [HUSTLE_TYPES In]; tauto | reflexivity].
Defined.

(** C17. The lookup finds nothing exactly when the stored type is not one of
    the six values; the page then shows no rate-range hint, without error. *)
Theorem selectedHustle_none (t : string) :
  selectedHustle t = None <-> ~ In t (map value HUSTLE_TYPES).
Proof.
  split.
  - intros E Hin. apply in_map_iff in Hin as (h & Hv & Hin).
    unfold selectedHustle in E. apply (find_none _ _ E) in Hin.
    rewrite Hv, String.eqb_refl in Hin. discriminate.
  - intros Hnin. destruct (selectedHustle t) as [h |] eqn:E; [| reflexivity].
    apply selectedHustle_found in E as [Hin Hv]. exfalso. apply Hnin.
    rewrite <- Hv. apply in_map, Hin.
Qed.

Lemma selectedHustle_none_witness :
  ~ In "dogwalking" (map value HUSTLE_TYPES) /\ selectedHustle "dogwalking" = None.
Proof.
  assert (H : ~ In "dogwalking" (map value HUSTLE_TYPES))
    by (cbv [HUSTLE_TYPES map value]; intros H; repeat destruct H as [H | H]; (discriminate || contradiction)).
  split; [exact H | apply selectedHustle_none, H].
Defined.

End HustleTypes.
