(* ===== verification/Income.v ===== *)
(** * The income derivation of [App]

    [App.tsx] lines 3-8 declare the input record [HustleInput]; lines 31-36
    compute the five derived figures from the current record on every render:
    [weeklyIncome = hoursPerWeek * hourlyRate], [monthlyGross = weeklyIncome *
    4.33], [annualGross = monthlyGross * 12], [monthlyNet = monthlyGross -
    monthlyExpenses], [annualNet = monthlyNet * 12].  [derive_in] writes these
    lines once over the interface [IncomeArith]; the page's instance
    [number_arith] makes each operation a binary64 operation of [JsNumber],
    and the specification's rational instance is in [Display].  The theorems show that the weekly figure
    is computed exactly for every integer input whose product fits in 53 bits,
    that an empty hours field against a negative rate yields [-0], and that
    the derivation is a pure function of the record. *)

From Stdlib Require Import ZArith Lia String Bool SpecFloat.
From S2P Require Import Prelude JsNumber.
Open Scope Z_scope.

Module Income.
Import Binary64 Binary64Facts.

(** [interface HustleInput] (lines 3-8). *)
Record HustleInput : Type := mkHustleInput {
  hoursPerWeek : number;
  hustleType : string;
  hourlyRate : number;
  monthlyExpenses : number
}.

(** The five figures computed at lines 32-36, over a number type [A]. *)
Record DerivedIncome (A : Type) : Type := mkDerivedIncome {
  weeklyIncome : A;
  monthlyGross : A;
  annualGross : A;
  monthlyNet : A;
  annualNet : A
}.
Arguments mkDerivedIncome {A}.
Arguments weeklyIncome {A}.
Arguments monthlyGross {A}.
Arguments annualGross {A}.
Arguments monthlyNet {A}.
Arguments annualNet {A}.

(** What lines 31-36 need of their numbers: the product, the difference,
    the literal [4.33] and the integer [12].  The page runs the derivation on
    JavaScript Numbers ([number_arith] below); the specification states it
    over exact rationals ([Display.IncomeSpec.exact_arith]). *)
Class IncomeArith (A : Type) : Type := {
  times : A -> A -> A;
  minus : A -> A -> A;
  weeks_per_month : A;
  twelve : A
}.

(** Lines 31-36, in the source's order, over any such arithmetic. *)
Definition derive_in {A : Type} `{IncomeArith A} (hours rate expenses : A) : DerivedIncome A :=
  let weeklyIncome := times hours rate in
  let monthlyGross := times weeklyIncome weeks_per_month in
  let annualGross := times monthlyGross twelve in
  let monthlyNet := minus monthlyGross expenses in
  let annualNet := times monthlyNet twelve in
  mkDerivedIncome weeklyIncome monthlyGross annualGross monthlyNet annualNet.

(** [const weeksPerMonth = 4.33] (line 31). *)
Definition weeksPerMonth : number := literal 433 2.

(** JavaScript's [*] and [-] on Numbers, with the two constants as the
    source writes them. *)
#[export] Instance number_arith : IncomeArith number := {
  times := mul;
  minus := sub;
  weeks_per_month := weeksPerMonth;
  twelve := of_Z 12
}.

(** The derivation of the page, on the current record. *)
Definition derive (values : HustleInput) : DerivedIncome number :=
  derive_in values.(hoursPerWeek) values.(hourlyRate) values.(monthlyExpenses).

(** An input record whose numeric fields hold the doubles of integers, as
    every record the page stores does (see [AppState]). *)
Definition int_input (h : Z) (t : string) (r e : Z) : HustleInput :=
  mkHustleInput (of_Z h) t (of_Z r) (of_Z e).

(** [derive], unfolded to the five binary64 operations. *)
Lemma derive_eq (values : HustleInput) :
  derive values =
  mkDerivedIncome (mul values.(hoursPerWeek) values.(hourlyRate))
    (mul (mul values.(hoursPerWeek) values.(hourlyRate)) weeksPerMonth)
    (mul (mul (mul values.(hoursPerWeek) values.(hourlyRate)) weeksPerMonth) (of_Z 12))
    (sub (mul (mul values.(hoursPerWeek) values.(hourlyRate)) weeksPerMonth) values.(monthlyExpenses))
    (mul (sub (mul (mul values.(hoursPerWeek) values.(hourlyRate)) weeksPerMonth)
              values.(monthlyExpenses)) (of_Z 12)).
Proof. reflexivity. Qed.

(** ** Theorems *)

(** C4. The weekly figure [hoursPerWeek * hourlyRate] is the exact product
    whenever the hours and the rate are nonzero integers whose product has at
    most 53 bits: no rounding happens at line 32. *)
Theorem weekly_income_exact (h r : Z) (t : string) (e : Z) :
  h * r <> 0 -> Z.abs (h * r) <= 2 ^ 53 ->
  weeklyIncome (derive (int_input h t r e)) = of_Z (h * r).
Proof.
  intros Hnz Hb. cbn. apply mul_of_Z; [lia | lia | exact Hb].
Qed.

Lemma weekly_income_exact_witness :
  40 * 25 <> 0 /\ Z.abs (40 * 25) <= 2 ^ 53 /\
  weeklyIncome (derive (int_input 40 "rideshare" 25 0)) = of_Z (40 * 25).
Proof.
  split; [lia | split; [lia |]].
  apply weekly_income_exact; [lia | lia].
Defined.

(** C10. When one factor is zero, the weekly figure is a signed zero whose
    sign is the exclusive or of the factors' signs as long as the other
    factor's double is finite: an empty hours field (stored as [0]) against
    a negative typed rate yields [-0], which [fmt] shows as ["-$0"].  When
    the other factor's text overflowed to an infinity (more than 308
    digits), the product is NaN instead. *)
Theorem weekly_income_zero_sign (h r : Z) (t : string) (e : Z) :
  h * r = 0 ->
  weeklyIncome (derive (int_input h t r e))
  = if is_finite (of_Z h) && is_finite (of_Z r) then S754_zero (xorb (h <? 0) (r <? 0)) else S754_nan.
Proof.
  intros H0. rewrite derive_eq. cbn [weeklyIncome int_input hoursPerWeek hourlyRate].
  destruct (Z.eq_dec h 0) as [-> | Hh0].
  - destruct (Z.eq_dec r 0) as [-> | Hr0]; [reflexivity |].
    pose proof (of_Z_nonzero r Hr0) as S.
    destruct (of_Z r); cbn in S |- *; try contradiction; subst; reflexivity.
  - assert (r = 0) as -> by nia. pose proof (of_Z_nonzero h Hh0) as S.
    destruct (of_Z h); cbn in S |- *; try contradiction; subst; reflexivity.
Qed.

Lemma weekly_income_zero_sign_witness :
  0 * -5 = 0 /\ weeklyIncome (derive (int_input 0 "rideshare" (-5) 50)) = S754_zero true.
Proof.
  split; [reflexivity |]. apply (weekly_income_zero_sign 0 (-5)); reflexivity.
Defined.

End Income.
