(* ===== verification/AppState.v ===== *)
(** * The component state and its events

    [App] keeps one piece of state, the [HustleInput] record of
    [useState] (line 27), initialised to 10 hours, "rideshare", 20 per hour
    and 50 of expenses.  [handleChange] (line 28) passes [setValues] an
    updater that replaces one field of the previous record; React applies
    queued updaters in order, so a sequence of events acts as the left fold
    of their updaters.  The events are the [onChange] handlers of the select
    (line 53) and of the three numeric inputs (lines 66, 70, 74), and the
    "Calculate Income" button (line 77), which has no handler.

    The theorems: every reachable record holds doubles of integers in its
    numeric fields; when the select reports one of its option values, the
    stored type always has a rate-range hint; edits of different fields
    commute and the last edit of a field wins; more generally the fold of
    the updaters equals [final_state], the per-field reference semantics
    (each field holds the last value entered into it); changing the type
    never changes a figure; and some reachable record makes the weekly
    figure NaN.  Liveness: from any state, four browser events (the select,
    then the three inputs) reach any listed type with any integer inputs;
    with the invariants this characterises the records reachable through a
    browser exactly. *)

From Stdlib Require Import ZArith Lia List String Bool SpecFloat.
From S2P Require Import Prelude JsNumber ParseInt HustleTypes Income.
Import ListNotations.
Open Scope Z_scope.

Module AppState.
Import Binary64 Binary64Facts ParseInt HustleTypes Income.

(** [keyof HustleInput]. *)
Inductive field : Type :=
  | FhoursPerWeek
  | FhustleType
  | FhourlyRate
  | FmonthlyExpenses.

(** The type of each field, [HustleInput[field]]. *)
Definition field_value (f : field) : Type :=
  match f with
  | FhustleType => string
  | _ => number
  end.

(** [handleChange(field, value)] (line 28): the updater
    [prev => ({ ...prev, [field]: value })] it hands to [setValues]. *)
Definition handleChange (f : field) : field_value f -> HustleInput -> HustleInput :=
  match f with
  | FhoursPerWeek => fun v prev =>
      mkHustleInput v prev.(hustleType) prev.(hourlyRate) prev.(monthlyExpenses)
  | FhustleType => fun v prev =>
      mkHustleInput prev.(hoursPerWeek) v prev.(hourlyRate) prev.(monthlyExpenses)
  | FhourlyRate => fun v prev =>
      mkHustleInput prev.(hoursPerWeek) prev.(hustleType) v prev.(monthlyExpenses)
  | FmonthlyExpenses => fun v prev =>
      mkHustleInput prev.(hoursPerWeek) prev.(hustleType) prev.(hourlyRate) v
  end.

(** The initial state of [useState] (line 27). *)
Definition initialValues : HustleInput := int_input 10 "rideshare" 20 50.

(** The user events the page handles, each with the [e.target.value] it
    reports. *)
Inductive event : Type :=
  | SelectHustleType (value : string)
  | InputHours (value : string)
  | InputRate (value : string)
  | InputExpenses (value : string)
  | ClickCalculate.

(** The handlers of lines 53, 66, 70, 74 and 77. *)
Definition on_event (ev : event) : HustleInput -> HustleInput :=
  match ev with
  | SelectHustleType v => handleChange FhustleType v
  | InputHours v => handleChange FhoursPerWeek (parse_field v)
  | InputRate v => handleChange FhourlyRate (parse_field v)
  | InputExpenses v => handleChange FmonthlyExpenses (parse_field v)
  | ClickCalculate => fun prev => prev
  end.

(** A sequence of events, applied in order. *)
Definition run (evs : list event) (s : HustleInput) : HustleInput :=
  fold_left (fun s ev => on_event ev s) evs s.

(** The field an event writes. *)
Definition event_field (ev : event) : option field :=
  match ev with
  | SelectHustleType _ => Some FhustleType
  | InputHours _ => Some FhoursPerWeek
  | InputRate _ => Some FhourlyRate
  | InputExpenses _ => Some FmonthlyExpenses
  | ClickCalculate => None
  end.

(** A select reports one of its option values. *)
Definition event_ok (ev : event) : Prop :=
  match ev with
  | SelectHustleType v => In v (map value HUSTLE_TYPES)
  | _ => True
  end.

Inductive reachable : HustleInput -> Prop :=
  | reachable_init : reachable initialValues
  | reachable_step (s : HustleInput) (ev : event) :
      reachable s -> reachable (on_event ev s).

(** Reachable through events a browser can produce. *)
Inductive reachable_ui : HustleInput -> Prop :=
  | reachable_ui_init : reachable_ui initialValues
  | reachable_ui_step (s : HustleInput) (ev : event) :
      event_ok ev -> reachable_ui s -> reachable_ui (on_event ev s).

(** The state invariant: each numeric field holds the double of an integer. *)
Definition integral_fields (v : HustleInput) : Prop :=
  (exists h, v.(hoursPerWeek) = of_Z h) /\
  (exists r, v.(hourlyRate) = of_Z r) /\
  (exists e, v.(monthlyExpenses) = of_Z e).

(** Only the numeric events, in order. *)
Definition numeric_events (evs : list event) : list event :=
  filter (fun ev => match ev with SelectHustleType _ | ClickCalculate => false | _ => true end) evs.

(** The numeric fields of a record, the only ones the figures read. *)
Definition numeric_fields (v : HustleInput) : number * number * number :=
  (v.(hoursPerWeek), v.(hourlyRate), v.(monthlyExpenses)).

(** The four browser events that set every input: the select to [t], then
    the decimal texts of [h], [r] and [e] typed into the number inputs. *)
Definition set_inputs (t : string) (h r e : Z) : list event :=
  [SelectHustleType t; InputHours (decimal_of_Z h); InputRate (decimal_of_Z r);
   InputExpenses (decimal_of_Z e)].

(** The reference semantics of a sequence of events, field by field: the
    text of the last event among [evs] that [sel] selects, ... *)
Fixpoint last_text (sel : event -> option string) (evs : list event) : option string :=
  match evs with
  | [] => None
  | ev :: evs' => match last_text sel evs' with Some v => Some v | None => sel ev end
  end.

Definition hours_text (ev : event) : option string :=
  match ev with InputHours v => Some v | _ => None end.
Definition type_text (ev : event) : option string :=
  match ev with SelectHustleType v => Some v | _ => None end.
Definition rate_text (ev : event) : option string :=
  match ev with InputRate v => Some v | _ => None end.
Definition expenses_text (ev : event) : option string :=
  match ev with InputExpenses v => Some v | _ => None end.

(** ... and the record it determines: each field holds the last value
    entered into it (parsed for the numeric ones), or its old value when
    no event touched it. *)
Definition final_state (evs : list event) (s : HustleInput) : HustleInput :=
  mkHustleInput
    (match last_text hours_text evs with Some v => parse_field v | None => s.(hoursPerWeek) end)
    (match last_text type_text evs with Some v => v | None => s.(hustleType) end)
    (match last_text rate_text evs with Some v => parse_field v | None => s.(hourlyRate) end)
    (match last_text expenses_text evs with Some v => parse_field v | None => s.(monthlyExpenses) end).

Lemma derive_numeric_fields (v w : HustleInput) :
  numeric_fields v = numeric_fields w -> derive v = derive w.
Proof. destruct v, w; cbn. intros H. injection H as -> -> ->. reflexivity. Qed.

Lemma on_event_numeric_fields (ev : event) (v w : HustleInput) :
  numeric_fields v = numeric_fields w ->
  numeric_fields (on_event ev v) = numeric_fields (on_event ev w).
Proof. destruct v, w, ev; cbn; intros H; injection H as -> -> ->; reflexivity. Qed.

Lemma run_reachable (evs : list event) (s : HustleInput) :
  reachable s -> reachable (run evs s).
Proof.
  revert s; induction evs as [| ev evs IH]; intros s Hs; cbn; [exact Hs |].
  apply IH. constructor. exact Hs.
Qed.

Lemma last_text_snoc (sel : event -> option string) (evs : list event) (ev : event) :
  last_text sel (evs ++ [ev]) = match sel ev with Some v => Some v | None => last_text sel evs end.
Proof.
  induction evs as [| e evs IH]; cbn [app last_text].
  - destruct (sel ev); reflexivity.
  - rewrite IH. destruct (sel ev), (last_text sel evs); reflexivity.
Qed.

(** One event keeps the numeric fields integral. *)
Lemma on_event_integral (ev : event) (v : HustleInput) :
  integral_fields v -> integral_fields (on_event ev v).
Proof.
  intros (Hh & Hr & He).
  destruct ev as [t | t | t | t |]; cbn [on_event handleChange];
    repeat split; cbn [hoursPerWeek hourlyRate monthlyExpenses];
    solve [assumption | apply parse_field_is_integer].
Qed.

(** A browser event keeps the type one of the option values. *)
Lemma on_event_type (ev : event) (v : HustleInput) : event_ok ev ->
  In v.(hustleType) (map value HUSTLE_TYPES) -> In (on_event ev v).(hustleType) (map value HUSTLE_TYPES).
Proof. destruct ev; cbn; tauto. Qed.

Lemma run_reachable_ui (evs : list event) : forall s,
  Forall event_ok evs -> reachable_ui s -> reachable_ui (run evs s).
Proof.
  induction evs as [| ev evs IH]; intros s Hok Hs; [exact Hs |].
  inversion Hok as [| ? ? H1 H2]; subst. cbn. apply IH; [exact H2 | constructor; assumption].
Qed.

Lemma run_set_inputs (s : HustleInput) (t : string) (h r e : Z) :
  run (set_inputs t h r e) s = int_input h t r e.
Proof. cbn. rewrite !parse_field_decimal. reflexivity. Qed.

(** ** Theorems *)

(** C5. Invariant: in every reachable state the three numeric fields hold
    doubles of integers; no event stores NaN, [-0] or a fraction. *)
Theorem reachable_integral_fields (v : HustleInput) : reachable v -> integral_fields v.
Proof.
  induction 1 as [| s ev _ IH]; [repeat split; eexists; reflexivity |].
  apply on_event_integral, IH.
Qed.

Lemma reachable_integral_fields_witness :
  reachable (run [InputHours "12.5"; InputRate "abc"] initialValues) /\
  integral_fields (run [InputHours "12.5"; InputRate "abc"] initialValues).
Proof.
  assert (H : reachable (run [InputHours "12.5"; InputRate "abc"] initialValues))
    by (apply run_reachable; constructor).
  split; [exact H | apply reachable_integral_fields, H].
Defined.

(** C15. When the select reports one of its option values, the stored type
    is always one of the six, so the rate-range hint is always shown. *)
Theorem reachable_ui_hint_shown (v : HustleInput) :
  reachable_ui v -> exists h, selectedHustle v.(hustleType) = Some h.
Proof.
  intros Hr. apply selectedHustle_of_In.
  induction Hr as [| s ev Hok _ IH]; [cbn; tauto |].
  destruct ev; cbn [on_event handleChange hustleType]; assumption.
Qed.

Lemma reachable_ui_hint_shown_witness :
  reachable_ui (on_event (SelectHustleType "creative") initialValues) /\
  exists h, selectedHustle (on_event (SelectHustleType "creative") initialValues).(hustleType) = Some h.
Proof.
  assert (H : reachable_ui (on_event (SelectHustleType "creative") initialValues))
    by (constructor; [cbn; tauto | constructor]).
  split; [exact H | apply reachable_ui_hint_shown, H].
Defined.

(** C12. Edits of two different fields commute. *)
Theorem events_commute (e1 e2 : event) (f1 f2 : field) (v : HustleInput) :
  event_field e1 = Some f1 -> event_field e2 = Some f2 -> f1 <> f2 ->
  on_event e1 (on_event e2 v) = on_event e2 (on_event e1 v).
Proof.
  destruct e1, e2; cbn; intros H1 H2 Hne; try discriminate;
    injection H1 as <-; injection H2 as <-; solve [reflexivity | congruence].
Qed.

Lemma events_commute_witness :
  event_field (InputHours "5") = Some FhoursPerWeek /\
  event_field (InputRate "30") = Some FhourlyRate /\ FhoursPerWeek <> FhourlyRate /\
  on_event (InputHours "5") (on_event (InputRate "30") initialValues)
  = on_event (InputRate "30") (on_event (InputHours "5") initialValues).
Proof.
  split; [reflexivity | split; [reflexivity | split; [discriminate |]]].
  apply (events_commute _ _ FhoursPerWeek FhourlyRate); [reflexivity | reflexivity | discriminate].
Defined.

(** C13. Of two edits of one field, the later one wins. *)
Theorem last_edit_wins (e1 e2 : event) (f : field) (v : HustleInput) :
  event_field e1 = Some f -> event_field e2 = Some f ->
  on_event e2 (on_event e1 v) = on_event e2 v.
Proof.
  destruct e1, e2; cbn; intros H1 H2; try congruence; reflexivity.
Qed.

Lemma last_edit_wins_witness :
  event_field (InputExpenses "80") = Some FmonthlyExpenses /\
  event_field (InputExpenses "") = Some FmonthlyExpenses /\
  on_event (InputExpenses "") (on_event (InputExpenses "80") initialValues)
  = on_event (InputExpenses "") initialValues.
Proof.
  split; [reflexivity | split; [reflexivity |]].
  apply (last_edit_wins _ _ FmonthlyExpenses); reflexivity.
Defined.

(** C14. The hustle type is informational: after any sequence of events the
    five figures are those of the numeric events alone. *)
Theorem derive_ignores_type (evs : list event) (v : HustleInput) :
  derive (run evs v) = derive (run (numeric_events evs) v).
Proof.
  apply derive_numeric_fields.
  assert (Hgen : forall w u, numeric_fields w = numeric_fields u ->
            numeric_fields (run evs w) = numeric_fields (run (numeric_events evs) u)).
  { induction evs as [| ev evs IH]; intros w u H; cbn; [exact H |].
    destruct ev; cbn [filter fold_left]; apply IH; try apply on_event_numeric_fields;
      exact H. }
  apply Hgen. reflexivity.
Qed.

(** C9. The derivation is not total on reachable states: an hours text of
    310 digits parses to an infinite double, and against a rate of [0] the
    weekly figure is [Infinity * 0], NaN, which [fmt] prints as ["$NaN"]. *)
Theorem reachable_weekly_nan :
  exists v, reachable v /\ weeklyIncome (derive v) = NaN.
Proof.
  exists (run [InputHours (decimal_of_Z (10 ^ 309)); InputRate "0"] initialValues).
  split; [apply run_reachable; constructor | vm_compute; reflexivity].
Qed.

(** C23. Equivalence of the event fold with its reference semantics: the
    record reached by applying the handlers' updaters in order is the one
    in which every field holds the last value entered into it (parsed by
    [parseInt(v) || 0] for the numeric fields) and every untouched field
    keeps its old value; the button changes nothing. *)
Theorem run_final_state (evs : list event) (s : HustleInput) : run evs s = final_state evs s.
Proof.
  induction evs as [| ev evs IH] using rev_ind; [destruct s; reflexivity |].
  unfold run in *. rewrite fold_left_app, IH. cbn [fold_left].
  unfold final_state. rewrite !last_text_snoc. destruct ev; reflexivity.
Qed.

(** C24. Liveness of the inputs: from any state, four browser events (the
    select set to one of its options, then the decimal texts of three
    integers typed into the number inputs) bring the page to the record
    holding exactly that type and those integers. *)
Theorem any_input_reachable (s : HustleInput) (t : string) (h r e : Z) :
  In t (map value HUSTLE_TYPES) ->
  exists evs, Forall event_ok evs /\ List.length evs = 4%nat /\ run evs s = int_input h t r e.
Proof.
  intros Ht. exists (set_inputs t h r e). split; [| split; [reflexivity | apply run_set_inputs]].
  constructor; [exact Ht | repeat constructor].
Qed.

Lemma any_input_reachable_witness :
  In "tutoring" (map value HUSTLE_TYPES) /\
  exists evs, Forall event_ok evs /\ List.length evs = 4%nat /\
    run evs initialValues = int_input 12 "tutoring" 35 0.
Proof. split; [cbn; tauto | apply any_input_reachable; cbn; tauto]. Defined.

(** C25. The reachable state space, exactly: a record is reachable through
    browser events if and only if its type is one of the six option values
    and its three numeric fields hold doubles of integers. *)
Theorem reachable_ui_iff (v : HustleInput) :
  reachable_ui v <-> In v.(hustleType) (map value HUSTLE_TYPES) /\ integral_fields v.
Proof.
  split.
  - induction 1 as [| s ev Hok _ (IHt & IHi)]; [split; [cbn; tauto | repeat split; eexists; reflexivity] |].
    split; [apply on_event_type; assumption | apply on_event_integral, IHi].
  - intros (Ht & (h & Hh) & (r & Hr) & (e & He)).
    replace v with (run (set_inputs v.(hustleType) h r e) initialValues)
      by (rewrite run_set_inputs; destruct v; cbn in *; subst; reflexivity).
    apply run_reachable_ui; [constructor; [exact Ht | repeat constructor] | constructor].
Qed.

End AppState.
