(* ===== verification/Format.v ===== *)
(** * The currency formatter [fmt]

    [App.tsx] line 38 formats every figure with
    [n.toLocaleString('en-US', { style: 'currency', currency: 'USD',
    minimumFractionDigits: 0, maximumFractionDigits: 0 })].  The model
    follows ECMA-402 for that locale and those options: the sign is taken
    first (a negative number or [-0] gets the negative pattern [-$]), the
    magnitude is rounded to an integer with the default rounding mode
    [halfExpand] (ties away from zero) on its exact binary value, and the
    integer is written with a comma between groups of three digits.  NaN is
    written [$NaN] and an infinity [$∞] (UTF-8).

    The theorem: the double of an integer of at most 53 bits is shown as that
    integer, with its sign and its digits grouped by three. *)

From Stdlib Require Import ZArith Lia List String Ascii Bool SpecFloat.
From S2P Require Import Prelude JsNumber.
Import ListNotations.
Open Scope Z_scope.

Module Format.
Import Binary64 Binary64Facts.

(** The integer nearest to the magnitude [m * 2^e], ties away from zero. *)
Definition round_magnitude (m : positive) (e : Z) : Z :=
  if 0 <=? e then Zpos m * 2 ^ e else (Zpos m + 2 ^ (- e - 1)) / 2 ^ (- e).

(** en-US grouping: a comma before every group of three digits counted
    from the right. *)
Fixpoint group_digits (ds : list Z) : string :=
  match ds with
  | [] => EmptyString
  | d :: rest =>
      String (digit_char d)
        (if (Nat.eqb (Nat.modulo (List.length rest) 3) 0) && negb (Nat.eqb (List.length rest) 0)
         then String ","%char (group_digits rest) else group_digits rest)
  end.

Definition currency_prefix (negative : bool) : string :=
  if negative then "-$" else "$".

(** [fmt] (line 38). *)
Definition fmt (n : number) : string :=
  match n with
  | S754_nan => "$NaN"
  | S754_infinity s => append (currency_prefix s) "∞"
  | S754_zero s => append (currency_prefix s) "0"
  | S754_finite s m e =>
      append (currency_prefix s) (group_digits (digits_of_N (Z.to_N (round_magnitude m e))))
  end.

(** The sign and the rounded magnitude [fmt] shows for a finite number. *)
Definition amount (n : number) : option (bool * Z) :=
  match n with
  | S754_zero s => Some (s, 0)
  | S754_finite s m e => Some (s, round_magnitude m e)
  | _ => None
  end.

(** How an integer is shown. *)
Definition fmt_integer (n : Z) : string :=
  append (currency_prefix (n <? 0)) (group_digits (digits_of_N (Z.abs_N n))).

Lemma round_magnitude_int (p : positive) (f k : Z) :
  dy_eq (Zpos p, f) (k, 0) -> round_magnitude p f = k.
Proof.
  intros H. unfold round_magnitude. destruct (Z.leb_spec 0 f) as [Hf | Hf].
  - apply (dy_eq_at _ _ _ _ 0) in H; [| lia ..].
    rewrite Z.sub_0_r, Z.sub_diag, Z.mul_1_r in H. exact H.
  - apply (dy_eq_at _ _ _ _ f) in H; [| lia ..].
    rewrite Z.sub_diag, Z.mul_1_r in H. rewrite H.
    assert (Hp : 2 ^ (- f) = 2 * 2 ^ (- f - 1))
      by (rewrite <- Z.pow_succ_r by lia; f_equal; lia).
    pose proof (pow2_pos (- f - 1) ltac:(lia)).
    replace (0 - f) with (- f) by lia.
    rewrite Z.div_add_l by lia. rewrite (Z.div_small (2 ^ (- f - 1))) by lia. lia.
Qed.

Lemma fmt_amount (n : number) (s : bool) (k : Z) :
  amount n = Some (s, k) ->
  fmt n = append (currency_prefix s) (group_digits (digits_of_N (Z.to_N k))).
Proof. destruct n; cbn; intros H; try discriminate; injection H as <- <-; reflexivity. Qed.

Lemma amount_of_Z (n : Z) : Z.abs n <= 2 ^ 53 -> amount (of_Z n) = Some (n <? 0, Z.abs n).
Proof.
  intros Hb. destruct (Z.eq_dec n 0) as [-> | Hn]; [reflexivity |].
  destruct (of_Z_finite n Hn Hb) as (p & f & -> & _ & D). cbn.
  rewrite (round_magnitude_int p f (Z.abs n) D). reflexivity.
Qed.

(** ** Theorems *)

(** C11. The double of an integer of at most 53 bits is shown as that
    integer: its sign, a dollar sign, its digits grouped by three. *)
Theorem fmt_of_Z (n : Z) : Z.abs n <= 2 ^ 53 -> fmt (of_Z n) = fmt_integer n.
Proof.
  intros Hb. rewrite (fmt_amount _ _ _ (amount_of_Z n Hb)). unfold fmt_integer.
  destruct n; reflexivity.
Qed.

Lemma fmt_of_Z_witness : Z.abs (-1234567) <= 2 ^ 53 /\ fmt (of_Z (-1234567)) = "-$1,234,567"%string.
Proof.
  split; [lia |]. rewrite fmt_of_Z by lia. reflexivity.
Defined.

End Format.
