(* ===== verification/Display.v ===== *)
(** * What the page shows, against the specification's exact formulas

    The specification (spec.md, section 3) states the five figures as real
    formulas: [weekly = hours * rate], [monthlyGross = weekly * 4.33],
    [annualGross = monthlyGross * 12], [monthlyNet = monthlyGross - expenses],
    [annualNet = monthlyNet * 12], rounded to whole dollars only for display.
    [IncomeSpec] states them over exact rationals: [exact_arith] is the
    rational instance of [Income.IncomeArith], [derive_q] the derivation of
    the page run on it, [fmt_q] the whole-dollar display of a rational, and
    [derive_exact] / [fmt_exact] the same figures as integer numbers of cents
    ([derive_q_cents] relates the two).  [gross_display] says the page, which
    computes in binary64, shows exactly what the exact formulas give, for
    every integer input of the ranges the input widgets declare (hours 0-80,
    rate 0-500), for the weekly and the two gross figures; [NetDisplay] does
    the same for the two net figures and [Refinement] gathers the five.
    [spec_derived] is section 3 written out on its own; [derive_q_spec]
    identifies it with the source's derivation run over the rationals,
    which holds because lines 32-36 compute the same five formulas in the
    same order. *)

From Stdlib Require Import ZArith Lia List String Bool SpecFloat QArith Morphisms.
From S2P Require Import Prelude JsNumber Income Format.
Import ListNotations.
Open Scope Z_scope.

Module IncomeSpec.
Import Income.

(** The arithmetic of spec.md section 3: exact rationals, [4.33] being the
    rational [433/100]. *)
#[export] Instance exact_arith : IncomeArith Q := {
  times := Qmult;
  minus := Qminus;
  weeks_per_month := (433 # 100)%Q;
  twelve := inject_Z 12
}.

(** The source's derivation run over exact rationals, on integer inputs. *)
Definition derive_q (hours rate expenses : Z) : DerivedIncome Q :=
  derive_in (inject_Z hours) (inject_Z rate) (inject_Z expenses).

(** spec.md section 3 as the specification writes it: the five formulas,
    in that order, over exact rationals.  It is stated on its own, not
    through the source's [derive_in], so that a theorem comparing the page
    with it pins the formulas of lines 32-36 as well as their
    arithmetic. *)
Definition spec_derived (hoursPerWeek hourlyRate monthlyExpenses : Z) : DerivedIncome Q :=
  let weeklyIncome := (inject_Z hoursPerWeek * inject_Z hourlyRate)%Q in
  let monthlyGross := (weeklyIncome * (433 # 100))%Q in
  let annualGross := (monthlyGross * inject_Z 12)%Q in
  let monthlyNet := (monthlyGross - inject_Z monthlyExpenses)%Q in
  let annualNet := (monthlyNet * inject_Z 12)%Q in
  mkDerivedIncome weeklyIncome monthlyGross annualGross monthlyNet annualNet.

(** A rational amount shown in whole dollars: the sign, then the magnitude
    rounded half away from zero ([floor (|x| + 1/2)]), grouped by three. *)
Definition fmt_q (x : Q) : string :=
  append (Format.currency_prefix (Qnum x <? 0))
    (Format.group_digits (digits_of_N (Z.to_N
       ((2 * Z.abs (Qnum x) + Zpos (Qden x)) / (2 * Zpos (Qden x)))))).

(** The five figures of spec.md section 3, in cents. *)
Record ExactIncome : Type := mkExactIncome {
  x_weeklyIncome : Z;
  x_monthlyGross : Z;
  x_annualGross : Z;
  x_monthlyNet : Z;
  x_annualNet : Z
}.

Definition derive_exact (hours rate expenses : Z) : ExactIncome :=
  let weekly := hours * rate * 100 in
  let monthlyGross := hours * rate * 433 in
  let annualGross := monthlyGross * 12 in
  let monthlyNet := monthlyGross - expenses * 100 in
  let annualNet := monthlyNet * 12 in
  mkExactIncome weekly monthlyGross annualGross monthlyNet annualNet.

(** A number of cents shown in whole dollars: the sign, then the magnitude
    rounded half away from zero, grouped by three. *)
Definition fmt_exact (cents : Z) : string :=
  append (Format.currency_prefix (cents <? 0))
    (Format.group_digits (digits_of_N (Z.to_N ((Z.abs cents + 50) / 100)))).

End IncomeSpec.

Module Display.
Import Binary64 Binary64Facts Income Format IncomeSpec.

(** The sign and whole-dollar magnitude the exact formulas show for an
    amount in cents. *)
Definition exact_amount (cents : Z) : bool * Z := (cents <? 0, (Z.abs cents + 50) / 100).

Definition amount_is (n : number) (a : bool * Z) : bool :=
  match amount n with
  | Some (s, k) => Bool.eqb s (fst a) && Z.eqb k (snd a)
  | None => false
  end.

(** The gross figures of a weekly amount [w], shown by the page and by the
    exact formulas. *)
Definition gross_agrees_with (c : number) (w : Z) : bool :=
  let g := mul (of_Z w) c in
  amount_is g (exact_amount (w * 433)) && amount_is (mul g (of_Z 12)) (exact_amount (w * 433 * 12)).

(** [fmt_q] depends on the rational value only, not on its representation:
    rewriting with [Qeq] under it is sound. *)
#[export] Instance fmt_q_proper : Proper (Qeq ==> eq) fmt_q.
Proof.
  intros [a da] [b db] H. unfold Qeq in H. cbn [Qnum Qden] in *. unfold fmt_q. cbn [Qnum Qden].
  replace (b <? 0) with (a <? 0)
    by (destruct (Z.ltb_spec a 0), (Z.ltb_spec b 0); nia).
  do 4 f_equal.
  rewrite <- (Z.div_mul_cancel_r (2 * Z.abs a + Zpos da) (2 * Zpos da) (Zpos db)) by lia.
  rewrite <- (Z.div_mul_cancel_r (2 * Z.abs b + Zpos db) (2 * Zpos db) (Zpos da)) by lia.
  assert (Habs : Z.abs a * Zpos db = Z.abs b * Zpos da).
  { rewrite <- (Z.abs_eq (Zpos db)), <- (Z.abs_eq (Zpos da)) at 1 by lia.
    rewrite <- !Z.abs_mul, H. reflexivity. }
  f_equal; [| ring]. rewrite !Z.mul_add_distr_r, <- !Z.mul_assoc, Habs. ring.
Qed.

(** The source's derivation over exact rationals is the specification's. *)
Lemma derive_q_spec (h r e : Z) : derive_q h r e = spec_derived h r e.
Proof. reflexivity. Qed.

(** An amount of [c] cents is the rational [c/100]. *)
Lemma fmt_q_cents (c : Z) : fmt_q (c # 100)%Q = fmt_exact c.
Proof.
  unfold fmt_q, fmt_exact. cbn [Qnum Qden]. do 4 f_equal.
  replace (2 * Z.abs c + 100) with ((Z.abs c + 50) * 2) by ring.
  replace (2 * 100) with (100 * 2) by reflexivity.
  apply Z.div_mul_cancel_r; lia.
Qed.

(** The five exact rational figures, in cents. *)
Lemma derive_q_cents (h r e : Z) :
  (weeklyIncome (derive_q h r e) == x_weeklyIncome (derive_exact h r e) # 100)%Q
  /\ (monthlyGross (derive_q h r e) == x_monthlyGross (derive_exact h r e) # 100)%Q
  /\ (annualGross (derive_q h r e) == x_annualGross (derive_exact h r e) # 100)%Q
  /\ (monthlyNet (derive_q h r e) == x_monthlyNet (derive_exact h r e) # 100)%Q
  /\ (annualNet (derive_q h r e) == x_annualNet (derive_exact h r e) # 100)%Q.
Proof.
  unfold derive_q, derive_in, derive_exact. cbn [weeklyIncome monthlyGross annualGross monthlyNet
    annualNet x_weeklyIncome x_monthlyGross x_annualGross x_monthlyNet x_annualNet times minus
    weeks_per_month twelve exact_arith].
  unfold Qeq, Qmult, Qminus, Qplus, Qopp, inject_Z. cbn [Qnum Qden]. repeat split; lia.
Qed.

Lemma gross_agrees_range : forall w, 0 <= w <= 40000 -> gross_agrees_with weeksPerMonth w = true.
Proof.
  intros w Hw. apply (forall_range_spec (gross_agrees_with weeksPerMonth) (Z.to_nat 40001) 0);
    [vm_compute; reflexivity | rewrite Z2Nat.id; lia].
Qed.

Lemma amount_is_fmt (n : number) (c : Z) :
  amount_is n (exact_amount c) = true -> fmt n = fmt_exact c.
Proof.
  unfold amount_is. destruct (amount n) as [[s k] |] eqn:E; [| discriminate].
  intros H. apply andb_prop in H as [Hs Hk]. apply Bool.eqb_prop in Hs. apply Z.eqb_eq in Hk.
  cbn in Hs, Hk. rewrite (fmt_amount n s k E). subst. reflexivity.
Qed.

Lemma fmt_exact_whole (n : Z) : fmt_exact (n * 100) = fmt_integer n.
Proof.
  unfold fmt_exact, fmt_integer.
  replace (n * 100 <? 0) with (n <? 0)
    by (destruct (Z.ltb_spec n 0), (Z.ltb_spec (n * 100) 0); lia).
  rewrite Z.abs_mul. change (Z.abs 100) with 100.
  rewrite Z.div_add_l by lia. rewrite Z.add_0_r. destruct n; reflexivity.
Qed.

Lemma fmt_of_Z_exact (n : Z) : Z.abs n <= 2 ^ 53 -> fmt (of_Z n) = fmt_exact (n * 100).
Proof.
  intros Hb. rewrite (fmt_amount _ _ _ (amount_of_Z n Hb)), fmt_exact_whole.
  destruct n; reflexivity.
Qed.

Lemma amount_exact_fmt (n : number) (c : Z) : amount n = Some (exact_amount c) -> fmt n = fmt_exact c.
Proof. intros H. rewrite (fmt_amount n _ _ H). reflexivity. Qed.

Lemma weekly_of_range (h r : Z) : 0 <= h <= 80 -> 0 <= r <= 500 ->
  mul (of_Z h) (of_Z r) = of_Z (h * r).
Proof.
  intros Hh Hr. assert (h * r <= 80 * 500) by (apply Z.mul_le_mono_nonneg; lia).
  apply mul_of_Z_nonneg; lia.
Qed.

(** The gross figures: for every integer number of hours in 0-80 and
    every integer rate in 0-500, the weekly, monthly and annual gross
    amounts the page shows are the exact formulas rounded to whole dollars;
    binary64 rounding never changes a shown dollar. *)
Lemma gross_display (h r e : Z) (t : string) :
  0 <= h <= 80 -> 0 <= r <= 500 ->
  fmt (weeklyIncome (derive (int_input h t r e))) = fmt_exact (x_weeklyIncome (derive_exact h r e)) /\
  fmt (monthlyGross (derive (int_input h t r e))) = fmt_exact (x_monthlyGross (derive_exact h r e)) /\
  fmt (annualGross (derive (int_input h t r e))) = fmt_exact (x_annualGross (derive_exact h r e)).
Proof.
  intros Hh Hr. rewrite derive_eq. cbn [int_input hoursPerWeek hourlyRate weeklyIncome monthlyGross
    annualGross derive_exact x_weeklyIncome x_monthlyGross x_annualGross].
  rewrite weekly_of_range by assumption.
  assert (Hw : 0 <= h * r <= 40000)
    by (split; [apply Z.mul_nonneg_nonneg; lia |
               change 40000 with (80 * 500); apply Z.mul_le_mono_nonneg; lia]).
  pose proof (gross_agrees_range (h * r) Hw) as G.
  unfold gross_agrees_with in G. apply andb_prop in G as [G1 G2].
  split; [| split].
  - apply fmt_of_Z_exact. lia.
  - apply amount_is_fmt, G1.
  - apply amount_is_fmt, G2.
Qed.

End Display.
