(* ===== verification/NetDisplay.v ===== *)
(** * What the page shows for the net figures

    [monthlyNet = monthlyGross - monthlyExpenses] and
    [annualNet = monthlyNet * 12] (App.tsx lines 35-36) start from the
    monthly gross [weekly * 4.33], which is not an integer, so unlike the
    gross figures they cannot be checked for each input: there are 40001
    weekly amounts and 10001 expenses.  The argument has three steps.

    - [gross_close]: for each of the 40001 weekly amounts [w] the double
      [w * 4.33] is within [2^-30] of [433 w / 100], and equal to it when
      that is a whole or a half number (checked by evaluation).
    - [Rounding.sub_error] and [Rounding.mul_error]: the subtraction and the
      product by 12 add at most [2^-35] and [2^-31].
    - [amount_close]: a double within [1/100] of [K / 100], [K] a nonzero
      number of cents that is not a half dollar, or equal to [K / 100], is
      shown as the exact formula shows [K].

    All values are compared as integers at the scale [2^-160], below every
    exponent that occurs. *)

From Stdlib Require Import ZArith Lia List String Bool SpecFloat.
From S2P Require Import Prelude JsNumber Rounding Income Format Display.
Open Scope Z_scope.

Module NetDisplay.
Import Binary64 Binary64Facts Rounding Income Format IncomeSpec Display.

(** The monthly gross of an integer weekly amount [w], as the page computes
    it, against [433 w / 100]: [+0] for [w = 0]; otherwise a positive double
    with exponent at least [-52], within [2^-30] of [433 w / 100], and equal
    to it when [433 w] is a multiple of 50. *)
Definition gross_close (w : Z) : bool :=
  match mul (of_Z w) weeksPerMonth with
  | S754_zero false => w =? 0
  | S754_finite false m e =>
      let d := Zpos m * 100 - w * 433 * 2 ^ (- e) in
      (-52 <=? e) && (e <? 0) && (Z.abs d * 2 ^ 30 <=? 100 * 2 ^ (- e))
      && (negb ((w * 433) mod 50 =? 0) || (d =? 0))
  | _ => false
  end.

(** A double [x] is within [b] units of [K] cents, and exactly [K] cents
    when [K] is a half dollar. *)
Definition close_at (x : number) (K b : Z) : Prop :=
  Z.abs (100 * val_at (-160) x - K * 2 ^ 160) <= b * 2 ^ 125
  /\ (Z.abs K mod 100 = 50 -> 100 * val_at (-160) x = K * 2 ^ 160).

Lemma gross_close_range : forall w, 0 <= w <= 40000 -> gross_close w = true.
Proof.
  intros w Hw. apply (forall_range_spec gross_close (Z.to_nat 40001) 0);
    [vm_compute; reflexivity | rewrite Z2Nat.id; lia].
Qed.

(** What [gross_close] gives at the scale [2^L]. *)
Lemma gross_close_spec (w L : Z) : 1 <= w -> L <= -52 -> gross_close w = true ->
  exists gm ge, mul (of_Z w) weeksPerMonth = S754_finite false gm ge /\ -52 <= ge
    /\ Z.abs (100 * val_at L (S754_finite false gm ge) - w * 433 * 2 ^ (- L)) * 2 ^ 30
       <= 100 * 2 ^ (- L)
    /\ ((w * 433) mod 50 = 0 ->
        100 * val_at L (S754_finite false gm ge) = w * 433 * 2 ^ (- L)).
Proof.
  intros Hw HL. unfold gross_close.
  destruct (mul (of_Z w) weeksPerMonth) as [[] | [] | | [] gm ge]; try discriminate.
  - intros H. apply Z.eqb_eq in H. lia.
  - intros H. apply andb_prop in H as [H Hx]. apply andb_prop in H as [H Hd].
    apply andb_prop in H as [Hlo Hneg].
    apply Z.leb_le in Hlo, Hd. apply Z.ltb_lt in Hneg.
    exists gm, ge. split; [reflexivity |]. split; [exact Hlo |]. cbn [val_at cond_Zopp].
    assert (HP : 2 ^ (- L) = 2 ^ (- ge) * 2 ^ (ge - L)) by (rewrite <- pow2_add by lia; f_equal; lia).
    pose proof (pow2_pos (ge - L) ltac:(lia)) as Hs.
    assert (Hdist : 100 * (Zpos gm * 2 ^ (ge - L)) - w * 433 * 2 ^ (- L)
                    = (Zpos gm * 100 - w * 433 * 2 ^ (- ge)) * 2 ^ (ge - L))
      by (rewrite HP; ring).
    rewrite Hdist, Z.abs_mul, (Z.abs_eq (2 ^ (ge - L))) by lia. split.
    + rewrite HP. nia.
    + intros H50. rewrite H50 in Hx. change (negb (0 =? 0)) with false in Hx.
      rewrite orb_false_l in Hx.
      apply Z.eqb_eq in Hx. apply Z.sub_move_0_r. rewrite Hdist, Hx. reflexivity.
Qed.

(** [fmt]'s rounding of [n * 2^f], written at the scale [2^L]. *)
Lemma round_magnitude_scaled (n : positive) (f L : Z) : L <= f -> L <= 0 ->
  round_magnitude n f = (2 * (Zpos n * 2 ^ (f - L)) + 2 ^ (- L)) / (2 * 2 ^ (- L)).
Proof.
  intros Hf HL. unfold round_magnitude. pose proof (pow2_pos (- L) ltac:(lia)) as HT.
  destruct (Z.leb_spec 0 f) as [H0 | H0].
  - replace (2 ^ (f - L)) with (2 ^ f * 2 ^ (- L)) by (rewrite <- pow2_add by lia; f_equal; lia).
    replace (2 * (Zpos n * (2 ^ f * 2 ^ (- L))) + 2 ^ (- L))
      with (Zpos n * 2 ^ f * (2 * 2 ^ (- L)) + 2 ^ (- L)) by ring.
    rewrite Z.div_add_l by lia. rewrite Z.div_small by lia. lia.
  - pose proof (pow2_pos (f - L + 1) ltac:(lia)) as Hc.
    rewrite <- (Z.div_mul_cancel_r _ _ (2 ^ (f - L + 1))) by lia.
    assert (Hd : forall k, 0 <= k -> 2 ^ (k + 1) = 2 * 2 ^ k)
      by (intros k Hk; rewrite Z.pow_add_r by lia; ring).
    assert (E1 : (Zpos n + 2 ^ (- f - 1)) * 2 ^ (f - L + 1)
                 = 2 * (Zpos n * 2 ^ (f - L)) + 2 ^ (- L)).
    { rewrite Z.mul_add_distr_r, <- pow2_add by lia.
      replace (- f - 1 + (f - L + 1)) with (- L) by lia. rewrite Hd by lia. ring. }
    assert (E2 : 2 ^ (- f) * 2 ^ (f - L + 1) = 2 * 2 ^ (- L)).
    { rewrite <- pow2_add by lia. replace (- f + (f - L + 1)) with (- L + 1) by lia.
      apply Hd. lia. }
    rewrite E1, E2. reflexivity.
Qed.

(** Rounding half away from zero is stable under a perturbation below
    [1/100] of an amount of [a] cents that is not a half dollar; it is the
    exact rounding when the amount is a half dollar and the value exact. *)
Lemma round_half_close (a M T : Z) : 1 <= a -> 0 < T ->
  Z.abs (100 * M - a * T) < T -> (a mod 100 = 50 -> 100 * M = a * T) ->
  (2 * M + T) / (2 * T) = (a + 50) / 100.
Proof.
  intros Ha HT Hc Hh. set (k := (a + 50) / 100).
  pose proof (Z.mul_div_le (a + 50) 100 ltac:(lia)) as Hk1.
  pose proof (Z.mul_succ_div_gt (a + 50) 100 ltac:(lia)) as Hk2. fold k in Hk1, Hk2.
  assert (Hup : a <= 100 * k + 49) by lia.
  assert (Hlo : 2 * T * k <= 2 * M + T).
  { destruct (Z.eq_dec a (100 * k - 50)) as [Ea | Ea].
    - assert (Hm : a mod 100 = 50).
      { rewrite Ea. replace (100 * k - 50) with (50 + (k - 1) * 100) by ring.
        rewrite Z.mod_add by lia. reflexivity. }
      specialize (Hh Hm). nia.
    - assert (a >= 100 * k - 49) by lia. nia. }
  apply Z.le_antisymm.
  - apply Z.lt_succ_r. apply Z.div_lt_upper_bound; nia.
  - apply Z.div_le_lower_bound; nia.
Qed.

(** A canonical double within [1/100] of [K / 100], [K] a nonzero number of
    cents, and equal to it when [K] is a half dollar, is shown with the sign
    and the whole-dollar rounding the exact formulas give [K]. *)
Lemma amount_close (x : number) (lo L K : Z) (s : bool) :
  rounded lo s x -> L <= lo -> L <= 0 -> K <> 0 ->
  Z.abs (100 * val_at L x - K * 2 ^ (- L)) < 2 ^ (- L) ->
  (Z.abs K mod 100 = 50 -> 100 * val_at L x = K * 2 ^ (- L)) ->
  amount x = Some (exact_amount K).
Proof.
  intros (n & f & -> & Hf & _) HL HL0 HK Hc Hh.
  cbn [amount val_at] in *. unfold exact_amount.
  rewrite (round_magnitude_scaled n f L) by lia.
  pose proof (pow2_pos (- L) ltac:(lia)) as HT. pose proof (pow2_pos (f - L) ltac:(lia)) as HP.
  set (T := 2 ^ (- L)) in *. set (M := Zpos n * 2 ^ (f - L)) in *.
  assert (HM : 0 < M) by (unfold M; nia).
  assert (Hs : s = (K <? 0)).
  { destruct s, (Z.ltb_spec K 0); cbn [cond_Zopp] in Hc; try reflexivity; exfalso.
    - assert (K * T >= T) by nia. lia.
    - assert (K * T <= - T) by nia. lia. }
  subst s. do 2 f_equal.
  apply round_half_close; [lia | exact HT | |].
  - destruct (Z.ltb_spec K 0); cbn [cond_Zopp] in Hc.
    + rewrite (Z.abs_neq K) by lia. replace (100 * M - - K * T) with (- (100 * - M - K * T)) by ring.
      rewrite Z.abs_opp. exact Hc.
    + rewrite (Z.abs_eq K) by lia. exact Hc.
  - intros Hm. specialize (Hh Hm). destruct (Z.ltb_spec K 0); cbn [cond_Zopp] in Hh.
    + rewrite (Z.abs_neq K) by lia. lia.
    + rewrite (Z.abs_eq K) by lia. exact Hh.
Qed.

(** ** Arithmetic of cents *)

Lemma small_multiple (K T : Z) : 0 < T -> Z.abs (K * T) < T -> K = 0.
Proof.
  intros HT H. destruct (Z.lt_trichotomy K 0) as [Hk | [Hk | Hk]]; [| exact Hk |]; exfalso.
  - assert (K * T <= - T) by nia. lia.
  - assert (K * T >= T) by nia. lia.
Qed.

Lemma abs_mod_half (K : Z) : Z.abs K mod 100 = 50 -> exists q, K = 100 * q + 50 \/ K = - (100 * q + 50).
Proof.
  intros H. exists (Z.abs K / 100).
  pose proof (Z.div_mod (Z.abs K) 100 ltac:(lia)) as E. rewrite H in E.
  set (q := Z.abs K / 100) in *. destruct (Z.abs_spec K) as [[_ Ha] | [_ Ha]]; lia.
Qed.

(** A net amount of [433 w - 100 e] cents is a half dollar only when the
    monthly gross [433 w] cents is a multiple of 50. *)
Lemma half_dollar_gross (w e : Z) : Z.abs (w * 433 - e * 100) mod 100 = 50 -> (w * 433) mod 50 = 0.
Proof.
  intros H. symmetry. destruct (abs_mod_half _ H) as [q [Hq | Hq]].
  - apply Z.mod_unique with (q := 2 * e + 2 * q + 1); lia.
  - apply Z.mod_unique with (q := 2 * e - 2 * q - 1); lia.
Qed.

(** A half-dollar amount at the scale [2^-160] is a multiple of [2^-125]. *)
Lemma half_dollar_grid (D K T U : Z) : T = 34359738368 * U ->
  100 * D = K * T -> Z.abs K mod 100 = 50 -> (U | D).
Proof.
  intros HT HD H. destruct (abs_mod_half _ H) as [q [Hq | Hq]]; subst K T.
  - exists ((2 * q + 1) * 17179869184). lia.
  - exists (- (2 * q + 1) * 17179869184). lia.
Qed.

(** Twelve times a number of cents is never a half dollar. *)
Lemma twelve_not_half (K : Z) : Z.abs (K * 12) mod 100 <> 50.
Proof. intros H. destruct (abs_mod_half _ H) as [q [Hq | Hq]]; lia. Qed.

(** ** The scale [2^-160]

    Every bound below is a multiple of [U = 2^125], one unit at [2^-35]. *)

Lemma pow_sub_B : 2 ^ (18 - -160) = 262144 * 2 ^ 160.
Proof. reflexivity. Qed.
Lemma pow_sub_err : 2 ^ (18 - 53 - -160) = 2 ^ 125.
Proof. reflexivity. Qed.
Lemma pow_mul_B : 2 ^ (22 - -160) = 4194304 * 2 ^ 160.
Proof. reflexivity. Qed.
Lemma pow_mul_err : 2 ^ (22 - 53 - -160) = 16 * 2 ^ 125.
Proof. reflexivity. Qed.
Lemma pow_unit : 2 ^ 160 = 34359738368 * 2 ^ 125.
Proof. reflexivity. Qed.
Lemma pow_unit_pos : 0 < 2 ^ 125.
Proof. reflexivity. Qed.

Create Rewrite HintDb scale.
#[export] Hint Rewrite pow_sub_B pow_sub_err pow_mul_B pow_mul_err pow_unit : scale.

(** Write every power of the scale as a multiple of the opaque unit [U]. *)
Ltac scale_facts :=
  change (- -160) with 160 in *; autorewrite with scale in *;
  pose proof pow_unit_pos; set (U := 2 ^ 125) in *; clearbody U.

Lemma close_amount (x : number) (lo K b : Z) (s : bool) :
  rounded lo s x -> -160 <= lo -> K <> 0 -> b < 34359738368 -> close_at x K b ->
  amount x = Some (exact_amount K).
Proof.
  intros HR Hlo HK Hb [Hc Hh]. apply (amount_close x lo (-160) K s HR Hlo ltac:(lia) HK);
    scale_facts; [nia | exact Hh].
Qed.

(** The error budget of the monthly net: [2^-30] from the gross, [2^-35]
    from the subtraction, in units of [2^-35] and cents. *)
Lemma month_err (G N w e U : Z) : 0 < U ->
  Z.abs (100 * G - w * 433 * (34359738368 * U)) * 1073741824 <= 100 * (34359738368 * U) ->
  Z.abs (N - (G - e * (34359738368 * U))) <= U ->
  Z.abs (100 * N - (w * 433 - e * 100) * (34359738368 * U)) <= 3300 * U.
Proof. intros; lia. Qed.

(** The error budget of the annual net: twelve times the monthly error, and
    [2^-31] from the product. *)
Lemma year_err (A P N K U : Z) : 0 < U -> P = 12 * N -> Z.abs (A - P) <= 16 * U ->
  Z.abs (100 * N - K * (34359738368 * U)) <= 3300 * U ->
  Z.abs (100 * A - K * 12 * (34359738368 * U)) <= 41200 * U.
Proof. intros; lia. Qed.

(** ** The net figures for a nonzero weekly amount and nonzero expenses *)

(** The monthly net: [+0] when the exact net is zero, otherwise a canonical
    double within 3300 units of the exact net. *)
Lemma net_month_close (w e : Z) : 1 <= w <= 40000 -> 1 <= e <= 10000 ->
  (sub (mul (of_Z w) weeksPerMonth) (of_Z e) = S754_zero false /\ w * 433 - e * 100 = 0)
  \/ (w * 433 - e * 100 <> 0
      /\ (exists s, rounded (-104) s (sub (mul (of_Z w) weeksPerMonth) (of_Z e)))
      /\ close_at (sub (mul (of_Z w) weeksPerMonth) (of_Z e)) (w * 433 - e * 100) 3300).
Proof.
  intros Hw He.
  destruct (gross_close_spec w (-160) ltac:(lia) ltac:(lia) (gross_close_range w ltac:(lia)))
    as (gm & ge & -> & Hge & HerrG & HexG).
  destruct (val_of_Z e (-160) ltac:(lia) ltac:(lia) ltac:(lia)) as (pe & fe & -> & _ & Hfe & Ve).
  replace (e <? 0) with false in * by (symmetry; apply Z.ltb_ge; lia).
  pose proof (sub_error false false gm pe ge fe (-160) 18 ltac:(lia) ltac:(lia) ltac:(lia)) as HS.
  cbv zeta in HS. rewrite Ve in HS. unfold close_at.
  set (Gs := val_at (-160) (S754_finite false gm ge)) in *.
  assert (HG0 : 0 <= Gs)
    by (unfold Gs; cbn [val_at cond_Zopp]; pow2_facts; lia).
  change (2 ^ 30) with 1073741824 in HerrG. scale_facts.
  assert (HwU : w * U <= 40000 * U) by nia. assert (HeU : e * U <= 10000 * U) by nia.
  destruct (HS ltac:(lia)) as [[HD0 ->] | (HD0 & HR & HerrN & HexN)]; [left | right].
  - split; [reflexivity |]. apply (small_multiple _ (34359738368 * U)); lia.
  - assert (HK : w * 433 - e * 100 <> 0).
    { intros HK0. apply HD0. assert (H50 : (w * 433) mod 50 = 0)
        by (symmetry; apply Z.mod_unique with (q := 2 * e); lia).
      specialize (HexG H50). lia. }
    split; [exact HK |]. split; [eexists; destruct HR as (n & f & ? & ? & ?); exists n, f; split; [eassumption | split; [lia | assumption]] |].
    split; [apply (month_err Gs _ w e U); assumption |].
    intros Hh. specialize (HexG (half_dollar_gross w e Hh)).
    assert (HD : 100 * (Gs - e * (34359738368 * U)) = (w * 433 - e * 100) * (34359738368 * U))
      by lia.
    rewrite (HexN (half_dollar_grid _ _ _ U eq_refl HD Hh)). exact HD.
Qed.

(** Twelve times a canonical double close to [K] cents, [K] nonzero and at
    most [2^25] in magnitude, is shown as the exact formula shows [12 K]. *)
Lemma net_year_close (x : number) (s : bool) (lo K : Z) :
  rounded lo s x -> -104 <= lo -> K <> 0 -> Z.abs K <= 2 ^ 25 -> close_at x K 3300 ->
  amount (mul x (of_Z 12)) = Some (exact_amount (K * 12)).
Proof.
  intros (n & f & -> & Hf & C) Hlo HK HKb [Hc _].
  destruct (val_of_Z 12 (-160) ltac:(lia) ltac:(lia) ltac:(lia))
    as (p12 & f12 & -> & C12 & Hf12 & V12).
  change (12 <? 0) with false in *.
  pose proof (mul_error s false n p12 f f12 (-160) 22 C C12 ltac:(lia) ltac:(lia) ltac:(lia)) as HM.
  pose proof (mul_val s false n p12 f f12 (-160) ltac:(lia) ltac:(lia) ltac:(lia) ltac:(lia)) as HV.
  cbv zeta in HM. rewrite V12 in HV.
  set (P := cond_Zopp (xorb s false) (Zpos (n * p12) * 2 ^ (f + f12 - -160))) in *.
  set (Ns := val_at (-160) (S754_finite s n f)) in *.
  enough (HR2 : rounded (f + f12) (xorb s false) (mul (S754_finite s n f) (S754_finite false p12 f12))
                /\ close_at (mul (S754_finite s n f) (S754_finite false p12 f12)) (K * 12) 41200)
    by (destruct HR2 as [HR2 Hc2]; apply (close_amount _ _ (K * 12) 41200 _ HR2); lia || exact Hc2).
  unfold close_at. change (2 ^ 25) with 33554432 in HKb. scale_facts.
  assert (HP : P = 12 * Ns) by (apply (Z.mul_cancel_r _ _ (34359738368 * U)); lia).
  assert (HKU : Z.abs (K * U) <= 33554432 * U) by (rewrite Z.abs_mul, (Z.abs_eq U) by lia; nia).
  destruct (HM ltac:(lia)) as [HR2 Herr2].
  split; [exact HR2 | split; [apply (year_err _ P Ns); assumption |]].
  intros Hh. exfalso. exact (twelve_not_half K Hh).
Qed.

(** ** All weekly amounts and expenses of the input ranges *)

Lemma gross_zero : mul (of_Z 0) weeksPerMonth = of_Z 0.
Proof. vm_compute. reflexivity. Qed.

(** No weekly amount: every figure is an integer, computed exactly. *)
Lemma net_no_income (e : Z) : 0 <= e <= 10000 ->
  fmt (sub (mul (of_Z 0) weeksPerMonth) (of_Z e)) = fmt_exact (0 * 433 - e * 100)
  /\ fmt (mul (sub (mul (of_Z 0) weeksPerMonth) (of_Z e)) (of_Z 12))
     = fmt_exact ((0 * 433 - e * 100) * 12).
Proof.
  intros He. rewrite gross_zero, sub_of_Z by lia.
  replace (0 * 433 - e * 100) with ((0 - e) * 100) by ring.
  replace ((0 - e) * 100 * 12) with ((0 - e) * 12 * 100) by ring.
  destruct (Z.eq_dec e 0) as [-> | He0].
  - split; reflexivity.
  - rewrite mul_of_Z by lia. split; apply fmt_of_Z_exact; lia.
Qed.

(** No expenses: the net figures are the gross ones. *)
Lemma net_no_expenses (w : Z) : 1 <= w <= 40000 ->
  fmt (sub (mul (of_Z w) weeksPerMonth) (of_Z 0)) = fmt_exact (w * 433 - 0 * 100)
  /\ fmt (mul (sub (mul (of_Z w) weeksPerMonth) (of_Z 0)) (of_Z 12))
     = fmt_exact ((w * 433 - 0 * 100) * 12).
Proof.
  intros Hw.
  pose proof (gross_agrees_range w ltac:(lia)) as G. unfold gross_agrees_with in G.
  apply andb_prop in G as [G1 G2].
  destruct (gross_close_spec w (-160) ltac:(lia) ltac:(lia) (gross_close_range w ltac:(lia)))
    as (gm & ge & E & _). rewrite E in *.
  replace (w * 433 - 0 * 100) with (w * 433) by ring.
  split; apply amount_is_fmt; assumption.
Qed.

Lemma net_agrees (w e : Z) : 0 <= w <= 40000 -> 0 <= e <= 10000 ->
  fmt (sub (mul (of_Z w) weeksPerMonth) (of_Z e)) = fmt_exact (w * 433 - e * 100)
  /\ fmt (mul (sub (mul (of_Z w) weeksPerMonth) (of_Z e)) (of_Z 12))
     = fmt_exact ((w * 433 - e * 100) * 12).
Proof.
  intros Hw He.
  destruct (Z.eq_dec w 0) as [-> | Hw0]; [apply net_no_income; lia |].
  destruct (Z.eq_dec e 0) as [-> | He0]; [apply net_no_expenses; lia |].
  destruct (net_month_close w e ltac:(lia) ltac:(lia)) as [[E HK] | (HK & [s HR] & Hc)].
  - rewrite E, HK. split; reflexivity.
  - split; apply amount_exact_fmt.
    + apply (close_amount _ (-104) _ 3300 s HR); lia || exact Hc.
    + apply (net_year_close _ s (-104)); (assumption || lia).
Qed.

(** The net figures: for every integer number of hours in 0-80, every
    integer rate in 0-500 and every integer monthly expense in 0-10000, the
    monthly and annual net amounts the page shows are the exact formulas of
    the specification rounded to whole dollars, sign included: the rounding
    of [weekly * 4.33], of the subtraction and of the product by 12 never
    changes a shown dollar, never turns a zero net into [-$0] and never
    moves a half dollar. *)
Lemma net_display (h r e : Z) (t : string) :
  0 <= h <= 80 -> 0 <= r <= 500 -> 0 <= e <= 10000 ->
  fmt (monthlyNet (derive (int_input h t r e))) = fmt_exact (x_monthlyNet (derive_exact h r e)) /\
  fmt (annualNet (derive (int_input h t r e))) = fmt_exact (x_annualNet (derive_exact h r e)).
Proof.
  intros Hh Hr He. rewrite derive_eq. cbn [int_input hoursPerWeek hourlyRate monthlyExpenses monthlyNet
    annualNet derive_exact x_monthlyNet x_annualNet].
  rewrite weekly_of_range by assumption.
  apply net_agrees; [| exact He].
  split; [apply Z.mul_nonneg_nonneg; lia | change 40000 with (80 * 500); apply Z.mul_le_mono_nonneg; lia].
Qed.

End NetDisplay.
