(* ===== verification/Refinement.v ===== *)
(** * The page refines the specification's exact formulas

    [Income.derive_in] is lines 31-36 of [App.tsx] over any [IncomeArith].
    The page runs it on JavaScript Numbers ([Income.derive]); spec.md
    section 3 states the five formulas over exact numbers, written out on
    their own as [IncomeSpec.spec_derived].  The theorem of this file
    compares the two through what the user sees: for every input the
    widgets allow, the five amounts the page shows are the specification's
    exact figures shown in whole dollars ([IncomeSpec.fmt_q]).  It gathers
    [Display.gross_display], [NetDisplay.net_display], the identification
    of the exact figures with cents ([Display.derive_q_cents], rewritten
    under [fmt_q] by its [Proper] instance) and of the source's derivation
    over the rationals with the specification's ([Display.derive_q_spec]).
    *)

From Stdlib Require Import ZArith Lia List String QArith.
From S2P Require Import Prelude JsNumber Income Format Display NetDisplay.
Import ListNotations.
Open Scope Z_scope.

Module Refinement.
Import Income IncomeSpec Display NetDisplay Format.

(** The five figures of lines 32-36, in the order the source declares
    them. *)
Definition figures {A : Type} : list (DerivedIncome A -> A) :=
  [weeklyIncome; monthlyGross; annualGross; monthlyNet; annualNet].

(** The amounts the page shows for a record: [fmt] of each figure. *)
Definition page_amounts (v : HustleInput) : list string :=
  map (fun f => fmt (f (derive v))) figures.

(** The amounts of the specification: the figures of spec.md section 3,
    exact, in whole dollars. *)
Definition spec_amounts (h r e : Z) : list string :=
  map (fun f => fmt_q (f (spec_derived h r e))) figures.

(** The five shown amounts, one equation each. *)
Lemma shown_amounts (h r e : Z) (t : string) :
  0 <= h <= 80 -> 0 <= r <= 500 -> 0 <= e <= 10000 ->
  let d := derive (int_input h t r e) in
  let q := spec_derived h r e in
  fmt (weeklyIncome d) = fmt_q (weeklyIncome q) /\
  fmt (monthlyGross d) = fmt_q (monthlyGross q) /\
  fmt (annualGross d) = fmt_q (annualGross q) /\
  fmt (monthlyNet d) = fmt_q (monthlyNet q) /\
  fmt (annualNet d) = fmt_q (annualNet q).
Proof.
  intros Hh Hr He d q.
  destruct (gross_display h r e t Hh Hr) as (G1 & G2 & G3).
  destruct (net_display h r e t Hh Hr He) as [N1 N2].
  destruct (derive_q_cents h r e) as (Q1 & Q2 & Q3 & Q4 & Q5).
  subst d q. rewrite <- derive_q_spec, G1, G2, G3, N1, N2, Q1, Q2, Q3, Q4, Q5, !fmt_q_cents.
  repeat split.
Qed.

(** ** Theorems *)

(** C1. Refinement of the whole display: for every integer number of
    hours in 0-80, integer rate in 0-500 and integer monthly expense in
    0-10000 (the ranges of the input widgets), the weekly, monthly gross,
    annual gross, monthly net and annual net amounts the page shows are the
    figures of the specification's formulas (spec.md section 3) computed
    exactly, rounded to whole dollars half away from zero, sign included. *)
Theorem display_refines (h r e : Z) (t : string) :
  0 <= h <= 80 -> 0 <= r <= 500 -> 0 <= e <= 10000 ->
  page_amounts (int_input h t r e) = spec_amounts h r e.
Proof.
  intros Hh Hr He.
  destruct (shown_amounts h r e t Hh Hr He) as (S1 & S2 & S3 & S4 & S5); cbv zeta in S1, S2, S3, S4, S5.
  unfold page_amounts, spec_amounts, figures. cbn [map]. rewrite S1, S2, S3, S4, S5. reflexivity.
Qed.

Lemma display_refines_witness :
  (0 <= 10 <= 80 /\ 0 <= 20 <= 500 /\ 0 <= 50 <= 10000) /\
  page_amounts (int_input 10 "rideshare" 20 50) = spec_amounts 10 20 50.
Proof.
  split; [lia |]. apply (display_refines 10 20 50 "rideshare"); lia.
Defined.

End Refinement.
