(* ===== verification/View.v ===== *)
(** * The rendered page

    [App] returns one JSX tree (lines 42-162), re-rendered from the current
    state after every event.  [render] builds that tree as data: elements with
    their tag, their attributes and their children, and text nodes.  Every
    attribute is kept ([id], [className], [htmlFor], [type], [min], [max],
    [value], [placeholder], [key], [onChange], and each inline [style]
    object with its properties in source order, [JObj]), with [onChange]
    holding the event the handler builds.  [{cond && <div/>}] contributes the element or
    nothing, and [{list.map(...)}] contributes the mapped elements in order.

    A prop value becomes text as React makes it, ['' + value]
    ([attr_text], Number::toString for Numbers); keys are compared as such
    strings.

    The theorems: the React keys of every list of children are distinct, the
    numeric inputs show an empty field exactly when the stored value is [0],
    and a negative expense amount is printed with a doubled minus sign.
    [css_at] reads one property of the inline style of an element, which
    [Page] uses for the colour of the net figures. *)

From Stdlib Require Import ZArith Lia List String Bool SpecFloat.
From S2P Require Import Prelude JsNumber ParseInt NumberString HustleTypes Income AppState Format.
Import ListNotations.
Open Scope string_scope.

Module View.
Import Binary64 HustleTypes Income AppState Format.

(** A JavaScript value of an attribute: a string, a Number, or an object
    literal such as an inline [style] (its properties in source order). *)
#[warnings="-register-all"]
Inductive jsval : Type :=
  | JStr (s : string)
  | JNum (n : number)
  | JObj (props : list (string * jsval)).

Inductive attr : Type :=
  | Attr (name : string) (v : jsval)
  | OnChange (handler : string -> event).

#[warnings="-register-all"]
Inductive node : Type :=
  | Elem (tag : string) (attrs : list attr) (children : list node)
  | Text (s : string).

Definition cls (c : string) : attr := Attr "className" (JStr c).

(** [style={{ ... }}]: a CSS property with a string value, one with a
    Number value, and the object. *)
Definition css (name value : string) : string * jsval := (name, JStr value).
Definition cssn (name : string) (v : number) : string * jsval := (name, JNum v).
Definition style (props : list (string * jsval)) : attr := Attr "style" (JObj props).

(** The two colours of the figures: green for the net amounts, red for
    the expenses. *)
Definition green : string := "#16A34A".
Definition red : string := "#DC2626".

(** [x || ''] for a numeric field: the Number when it is truthy, else the
    empty string. *)
Definition or_empty (x : number) : jsval := if truthy x then JNum x else JStr "".

(** [{HUSTLE_TYPES.map(type => <option key value>{label}</option>)}]. *)
Definition option_of (h : HustleType) : node :=
  Elem "option" [Attr "key" (JStr h.(value)); Attr "value" (JStr h.(value))] [Text h.(label)].

(** [{HUSTLE_TIPS.map((item, i) => <li key={i} style><span style/>{item}</li>)}]
    (lines 107-111). *)
Definition tip_items : list node :=
  map (fun '(i, item) =>
         Elem "li" [Attr "key" (JNum (of_Z (Z.of_nat i)));
                    style [css "display" "flex"; css "alignItems" "center"; css "gap" "var(--space-3)";
                           css "fontSize" "0.9375rem"; css "color" "var(--color-text-secondary)"]]
           [Elem "span" [style [cssn "width" (of_Z 6); cssn "height" (of_Z 6); css "borderRadius" "50%";
                                css "backgroundColor" "var(--color-primary)"; cssn "flexShrink" (of_Z 0)]] [];
            Text item])
    (combine (seq 0 (List.length HUSTLE_TIPS)) HUSTLE_TIPS).

Definition numeric_input (id : string) (min max : string) (v : number)
    (handler : string -> event) (placeholder : string) : node :=
  Elem "input" [Attr "id" (JStr id); Attr "type" (JStr "number"); Attr "min" (JStr min);
                Attr "max" (JStr max); Attr "value" (or_empty v); OnChange handler;
                Attr "placeholder" (JStr placeholder)] [].

(** A cell of the results grid (lines 89-100): the wrapper's attributes,
    the label, and the value's own attributes after its class. *)
Definition result_cell (wrap : list attr) (label : string) (value_attrs : list attr) (value : string) : node :=
  Elem "div" wrap [Elem "div" [cls "result-label"] [Text label];
                   Elem "div" (cls "result-value" :: value_attrs) [Text value]].

(** The muted note under a field or the hero amount. *)
Definition note_style (top : string) (size : string) : attr :=
  style [css "fontSize" size; css "color" "var(--color-text-muted)"; css "marginTop" top].

(** The JSX of lines 42-162. *)
Definition render (values : HustleInput) : node :=
  let d := derive values in
  let selected := selectedHustle values.(hustleType) in
  let border := style [css "borderLeft" "1px solid #BAE6FD"; css "paddingLeft" "var(--space-4)"] in
  let row_border := css "borderBottom" "1px solid var(--color-border)" in
  let cell (pad align : string) (rest : list (string * jsval)) :=
    style (css "padding" pad :: (if String.eqb align "" then [] else [css "textAlign" align]) ++ rest) in
  Elem "main" [style [css "width" "100%"; css "display" "flex"; css "flexDirection" "column";
                      css "gap" "var(--space-6)"]] [
    Elem "header" [style [css "textAlign" "center"; css "marginBottom" "var(--space-2)"]] [
      Elem "h1" [style [css "marginBottom" "var(--space-2)"]] [Text "Side Hustle Income Estimator (2026)"];
      Elem "p" [style [css "color" "var(--color-text-secondary)"; css "fontSize" "1.125rem"]]
        [Text "Estimate your potential gig economy earnings"]];
    Elem "div" [cls "card"] [
      Elem "div" [style [css "display" "grid"; css "gap" "var(--space-4)"]] [
        Elem "div" [] ([
          Elem "label" [Attr "htmlFor" (JStr "hustleType")] [Text "Type of Side Hustle"];
          Elem "select" [Attr "id" (JStr "hustleType"); Attr "value" (JStr values.(hustleType));
                         OnChange SelectHustleType] (map option_of HUSTLE_TYPES)] ++
          match selected with
          | Some h => [Elem "div" [note_style "var(--space-1)" "0.75rem"]
                         [Text "Typical rate range: "; Text h.(rateRange)]]
          | None => []
          end);
        Elem "div" [] [
          Elem "label" [Attr "htmlFor" (JStr "hoursPerWeek")] [Text "Hours Per Week"];
          numeric_input "hoursPerWeek" "1" "80" values.(hoursPerWeek) InputHours "10"];
        Elem "div" [] [
          Elem "label" [Attr "htmlFor" (JStr "hourlyRate")] [Text "Hourly Rate ($)"];
          numeric_input "hourlyRate" "1" "500" values.(hourlyRate) InputRate "20"];
        Elem "div" [] [
          Elem "label" [Attr "htmlFor" (JStr "monthlyExpenses")] [Text "Monthly Expenses ($)"];
          numeric_input "monthlyExpenses" "0" "10000" values.(monthlyExpenses) InputExpenses "50";
          Elem "div" [note_style "var(--space-1)" "0.75rem"] [Text "Gas, supplies, platform fees, etc."]];
        Elem "button" [cls "btn-primary"; Attr "type" (JStr "button")] [Text "Calculate Income"]]];
    Elem "div" [cls "card results-panel"] [
      Elem "div" [cls "text-center"] [
        Elem "h2" [cls "result-label"; style [css "marginBottom" "var(--space-2)"]]
          [Text "Estimated Monthly Income"];
        Elem "div" [cls "result-hero"] [Text (fmt d.(monthlyGross))];
        Elem "div" [note_style "var(--space-2)" "0.875rem"] [Text "Before expenses"]];
      Elem "hr" [cls "result-divider"] [];
      Elem "div" [style [css "display" "grid"; css "gridTemplateColumns" "1fr 1fr 1fr";
                         css "gap" "var(--space-4)"; css "textAlign" "center"]] [
        result_cell [] "Weekly" [] (fmt d.(weeklyIncome));
        result_cell [border] "Annual" [] (fmt d.(annualGross));
        result_cell [border] "Net/Month" [style [css "color" green]] (fmt d.(monthlyNet))]];
    Elem "div" [cls "card"; style [css "borderLeft" "4px solid var(--color-primary)"]] [
      Elem "h3" [style [css "fontSize" "1.125rem"; css "marginBottom" "var(--space-4)"]] [Text "Side Hustle Tips"];
      Elem "ul" [style [css "listStyle" "none"; cssn "padding" (of_Z 0); cssn "margin" (of_Z 0);
                        css "display" "grid"; css "gap" "var(--space-3)"]] tip_items];
    Elem "div" [cls "ad-container"] [Elem "span" [] [Text "Advertisement"]];
    Elem "div" [cls "card"; style [cssn "padding" (of_Z 0)]] [
      Elem "div" [style [css "padding" "var(--space-4) var(--space-6)"; row_border]]
        [Elem "h3" [style [css "fontSize" "1rem"]] [Text "Income Breakdown"]];
      Elem "table" [style [css "width" "100%"; css "borderCollapse" "collapse"; css "fontSize" "0.9375rem"]] [
        Elem "thead" [] [Elem "tr" [style [row_border]] [
          Elem "th" [cell "var(--space-3) var(--space-6)" "left" [css "color" "var(--color-text-secondary)"]]
            [Text "Category"];
          Elem "th" [cell "var(--space-3) var(--space-4)" "center" [css "color" "var(--color-text-secondary)"]]
            [Text "Monthly"];
          Elem "th" [cell "var(--space-3) var(--space-6)" "right" [css "color" "var(--color-text-secondary)"]]
            [Text "Annual"]]];
        Elem "tbody" [] [
          Elem "tr" [style [row_border]] [
            Elem "td" [cell "var(--space-3) var(--space-6)" "" [css "color" "var(--color-text-secondary)"]]
              [Text "Gross Income"];
            Elem "td" [cell "var(--space-3) var(--space-4)" "center" [cssn "fontWeight" (of_Z 600)]]
              [Text (fmt d.(monthlyGross))];
            Elem "td" [cell "var(--space-3) var(--space-6)" "right" [cssn "fontWeight" (of_Z 500)]]
              [Text (fmt d.(annualGross))]];
          Elem "tr" [style [row_border; css "backgroundColor" "#F8FAFC"]] [
            Elem "td" [cell "var(--space-3) var(--space-6)" "" [css "color" "var(--color-text-secondary)"]]
              [Text "Expenses"];
            Elem "td" [cell "var(--space-3) var(--space-4)" "center" [cssn "fontWeight" (of_Z 600); css "color" red]]
              [Text "-"; Text (fmt values.(monthlyExpenses))];
            Elem "td" [cell "var(--space-3) var(--space-6)" "right" [cssn "fontWeight" (of_Z 500); css "color" red]]
              [Text "-"; Text (fmt (mul values.(monthlyExpenses) (of_Z 12)))]];
          Elem "tr" [] [
            Elem "td" [cell "var(--space-3) var(--space-6)" ""
                         [css "color" "var(--color-text-primary)"; cssn "fontWeight" (of_Z 600)]]
              [Text "Net Income"];
            Elem "td" [cell "var(--space-3) var(--space-4)" "center" [cssn "fontWeight" (of_Z 700); css "color" green]]
              [Text (fmt d.(monthlyNet))];
            Elem "td" [cell "var(--space-3) var(--space-6)" "right" [cssn "fontWeight" (of_Z 700); css "color" green]]
              [Text (fmt d.(annualNet))]]]]];
    Elem "div" [style [cssn "maxWidth" (of_Z 600); css "margin" "0 auto"; css "fontSize" "0.875rem";
                       css "color" "var(--color-text-secondary)"; cssn "lineHeight" (literal 16 1)]]
      [Elem "p" [] [Text "This calculator provides estimates for potential side hustle income based on hours worked and hourly rates. Actual earnings vary by location, demand, platform fees, and individual circumstances. These figures are estimates only and do not account for taxes, vehicle depreciation, or variable income fluctuations common in gig work. Consult a financial advisor for personalized guidance on managing self-employment income."]];
    Elem "footer" [style [css "textAlign" "center"; css "padding" "var(--space-8) var(--space-4)";
                          css "color" "var(--color-text-muted)"; css "borderTop" "1px solid var(--color-border)";
                          css "marginTop" "var(--space-8)"]] [
      Elem "ul" [style [css "listStyle" "none"; cssn "padding" (of_Z 0); cssn "margin" (of_Z 0);
                        css "display" "flex"; css "flexWrap" "wrap"; css "justifyContent" "center";
                        css "gap" "var(--space-4)"; css "fontSize" "0.875rem"]]
        [Elem "li" [] [Text "• Estimates only"]; Elem "li" [] [Text "• Not financial advice"];
         Elem "li" [] [Text "• Free to use"]];
      Elem "p" [style [css "marginTop" "var(--space-4)"; css "fontSize" "0.75rem"]]
        [Text "© 2026 Side Hustle Income Estimator"]];
    Elem "div" [cls "ad-container ad-sticky"] [Elem "span" [] [Text "Advertisement"]]].

(** ** Observations of the tree *)

Definition attr_named (name : string) (a : attr) : option jsval :=
  match a with
  | Attr n v => if String.eqb n name then Some v else None
  | OnChange _ => None
  end.

Fixpoint lookup_attr (name : string) (attrs : list attr) : option jsval :=
  match attrs with
  | [] => None
  | a :: rest => match attr_named name a with Some v => Some v | None => lookup_attr name rest end
  end.

(** The string React makes of an attribute value (['' + value]): a string
    as it is, a Number through Number::toString.  It is the text React
    writes into the DOM for [value], and the identity of a [key]. *)
Definition attr_text (v : jsval) : string :=
  match v with
  | JStr s => s
  | JNum x => NumberString.toString x
  | JObj _ => "[object Object]"
  end.

(** The key of an element, as React compares keys: as strings. *)
Definition key_of (n : node) : option string :=
  match n with
  | Elem _ attrs _ => option_map attr_text (lookup_attr "key" attrs)
  | Text _ => None
  end.

Fixpoint distinct_keys (ks : list string) : bool :=
  match ks with
  | [] => true
  | k :: ks' => negb (existsb (String.eqb k) ks') && distinct_keys ks'
  end.

Definition child_keys (cs : list node) : list string :=
  flat_map (fun c => match key_of c with Some k => [k] | None => [] end) cs.

(** Every element's children carry pairwise distinct React keys. *)
Fixpoint keys_ok (n : node) : bool :=
  match n with
  | Text _ => true
  | Elem _ _ cs =>
      distinct_keys (child_keys cs) &&
      (fix all (l : list node) : bool :=
         match l with [] => true | c :: l' => keys_ok c && all l' end) cs
  end.

(** The properties of an element's inline [style] object. *)
Definition style_props (n : node) : list (string * jsval) :=
  match n with
  | Elem _ attrs _ => match lookup_attr "style" attrs with Some (JObj ps) => ps | _ => [] end
  | Text _ => []
  end.

(** The value of one CSS property of an element's inline style. *)
Definition css_prop (name : string) (n : node) : option jsval :=
  match find (fun p => String.eqb (fst p) name) (style_props n) with
  | Some (_, v) => Some v
  | None => None
  end.

(** [Node.textContent]: the texts below a node, in document order. *)
Fixpoint textContent (n : node) : string :=
  match n with
  | Text s => s
  | Elem _ _ cs =>
      (fix cat (l : list node) : string :=
         match l with [] => "" | c :: l' => append (textContent c) (cat l') end) cs
  end.

(** The child reached by a path of child indices. *)
Fixpoint child_at (path : list nat) (n : node) : option node :=
  match path with
  | [] => Some n
  | i :: path' =>
      match n with
      | Elem _ _ cs => match nth_error cs i with Some c => child_at path' c | None => None end
      | Text _ => None
      end
  end.

(** A CSS property of the element at a path. *)
Definition css_at (path : list nat) (name : string) (n : node) : option jsval :=
  match child_at path n with Some c => css_prop name c | None => None end.

(** The [value] attribute of the element with the given [id]. *)
Fixpoint value_of_id (id : string) (n : node) : option jsval :=
  match n with
  | Text _ => None
  | Elem _ attrs cs =>
      match lookup_attr "id" attrs with
      | Some (JStr i) =>
          if String.eqb i id then lookup_attr "value" attrs
          else (fix any (l : list node) : option jsval :=
                  match l with [] => None | c :: l' => match value_of_id id c with Some v => Some v | None => any l' end end) cs
      | _ =>
          (fix any (l : list node) : option jsval :=
             match l with [] => None | c :: l' => match value_of_id id c with Some v => Some v | None => any l' end end) cs
      end
  end.

Lemma value_of_inputs (v : HustleInput) :
  value_of_id "hoursPerWeek" (render v) = Some (or_empty v.(hoursPerWeek)) /\
  value_of_id "hourlyRate" (render v) = Some (or_empty v.(hourlyRate)) /\
  value_of_id "monthlyExpenses" (render v) = Some (or_empty v.(monthlyExpenses)).
Proof. unfold render. destruct (selectedHustle (hustleType v)); cbn; repeat split. Qed.

Lemma or_empty_of_Z (n : Z) : or_empty (of_Z n) = JStr "" <-> n = 0.
Proof.
  unfold or_empty. split.
  - destruct (Z.eq_dec n 0) as [-> | Hn]; [reflexivity |].
    rewrite (Binary64Facts.signed_nonzero_truthy _ _ (Binary64Facts.of_Z_nonzero n Hn)).
    discriminate.
  - intros ->. reflexivity.
Qed.

Lemma expenses_cell (v : HustleInput) :
  option_map textContent (child_at [5; 1; 1; 1; 1]%nat (render v))
  = Some (append "-" (append (fmt v.(monthlyExpenses)) "")).
Proof. reflexivity. Qed.

(** ** Theorems *)

(** C18. In every rendering, the React keys of each list of children are
    pairwise distinct: the six options are keyed by their values and the
    four tips by their indices. *)
Theorem render_keys_unique (v : HustleInput) : keys_ok (render v) = true.
Proof.
  unfold render. destruct (selectedHustle (hustleType v)); vm_compute; reflexivity.
Qed.

(** C19. A numeric input shows an empty field exactly when the stored value
    is [0] ([value={x || ''}]); any other integer is shown as a number. *)
Theorem numeric_inputs_empty_iff_zero (v : HustleInput) (h r e : Z) :
  v.(hoursPerWeek) = of_Z h -> v.(hourlyRate) = of_Z r -> v.(monthlyExpenses) = of_Z e ->
  (value_of_id "hoursPerWeek" (render v) = Some (JStr "") <-> h = 0) /\
  (value_of_id "hourlyRate" (render v) = Some (JStr "") <-> r = 0) /\
  (value_of_id "monthlyExpenses" (render v) = Some (JStr "") <-> e = 0).
Proof.
  intros Hh Hr He. destruct (value_of_inputs v) as (E1 & E2 & E3).
  rewrite E1, E2, E3, Hh, Hr, He.
  split; [| split]; rewrite <- or_empty_of_Z; split; congruence.
Qed.

Lemma numeric_inputs_empty_iff_zero_witness :
  (on_event (InputHours "") initialValues).(hoursPerWeek) = of_Z 0 /\
  (on_event (InputHours "") initialValues).(hourlyRate) = of_Z 20 /\
  (on_event (InputHours "") initialValues).(monthlyExpenses) = of_Z 50 /\
  value_of_id "hoursPerWeek" (render (on_event (InputHours "") initialValues)) = Some (JStr "").
Proof.
  split; [reflexivity | split; [reflexivity | split; [reflexivity |]]].
  apply (numeric_inputs_empty_iff_zero _ 0 20 50); reflexivity.
Defined.

(** C20. The breakdown table prefixes the expense amount with a literal
    minus sign (line 137); the amount of a negative expense already carries
    its own, so a typed [-50] is shown as ["--$50"]. *)
Theorem expenses_negative_double_minus (v : HustleInput) (e : Z) :
  v.(monthlyExpenses) = of_Z e -> e < 0 -> Z.abs e <= 2 ^ 53 ->
  option_map textContent (child_at [5; 1; 1; 1; 1]%nat (render v))
  = Some (append "--$" (group_digits (digits_of_N (Z.to_N (Z.abs e))))).
Proof.
  intros He Hneg Hb. rewrite expenses_cell, He.
  rewrite (fmt_amount _ _ _ (amount_of_Z e Hb)), string_append_empty_r.
  replace (e <? 0)%Z with true by (symmetry; apply Z.ltb_lt; exact Hneg). reflexivity.
Qed.

Lemma expenses_negative_double_minus_witness :
  option_map textContent (child_at [5; 1; 1; 1; 1]%nat (render (on_event (InputExpenses "-50") initialValues)))
  = Some "--$50".
Proof.
  rewrite (expenses_negative_double_minus _ (-50)); [reflexivity | reflexivity | lia | lia].
Defined.

End View.
