(* ===== verification/Page.v ===== *)
(** * From typed text to the amounts on the page

    This file composes the components along the path one edit takes
    through [App]: the text a number input reports is parsed by the handler
    ([ParseInt.parse_field], lines 66, 70, 74) and stored by [handleChange]
    ([AppState.on_event]); the next render derives the figures
    ([Income.derive]) and prints them with [fmt] in eight places of the tree
    ([View.render]): the hero amount, the three result cells and four cells
    of the breakdown table.  The theorem says that after the user types the
    decimal text of integers in the widgets' ranges into the three inputs,
    from any state, each of those eight places shows the specification's
    exact figure rounded to whole dollars ([Refinement.shown_amounts]).  The
    second goes the other way: the text React writes into a number input
    for a stored safe integer ([View.attr_text], Number::toString) is read
    back by the input's handler as the stored value.  The third reads the
    inline styles: when expenses exceed the gross, the three net cells
    print a negative amount in the same green as a positive one. *)

From Stdlib Require Import ZArith Lia List String QArith.
From S2P Require Import Prelude JsNumber ParseInt NumberString HustleTypes Income AppState Format Display Refinement View.
Import ListNotations.
Open Scope Z_scope.

Module Page.
Import Binary64 ParseInt Income AppState Format IncomeSpec Refinement View.

(** The paths, in [render]'s tree, of the elements that print a figure:
    the hero amount (line 84), the Weekly, Annual and Net/Month cells
    (lines 91, 95, 99), and the Gross and Net rows of the breakdown table
    (lines 132-133 and 142-143). *)
Definition result_paths : list (list nat) :=
  [[2; 0; 1]; [2; 2; 0; 1]; [2; 2; 1; 1]; [2; 2; 2; 1];
   [5; 1; 1; 0; 1]; [5; 1; 1; 0; 2]; [5; 1; 1; 2; 1]; [5; 1; 1; 2; 2]]%nat.

(** The figure each of those elements prints, in the same order. *)
Definition shown_figures {A : Type} (d : DerivedIncome A) : list A :=
  [monthlyGross d; weeklyIncome d; annualGross d; monthlyNet d;
   monthlyGross d; annualGross d; monthlyNet d; annualNet d].

(** The three edits of the numeric inputs with the given texts. *)
Definition type_inputs (th tr te : string) : list event :=
  [InputHours th; InputRate tr; InputExpenses te].

(** The elements that print the net figures: the Net/Month cell (line 99)
    and the two cells of the Net Income row (lines 142-143). *)
Definition net_paths : list (list nat) := [[2; 2; 2; 1]; [5; 1; 1; 2; 1]; [5; 1; 1; 2; 2]]%nat.

Lemma result_texts (v : HustleInput) :
  map (fun p => option_map textContent (child_at p (render v))) result_paths
  = map (fun x => Some (fmt x ++ "")%string) (shown_figures (derive v)).
Proof. unfold render. destruct (HustleTypes.HustleTypes.selectedHustle (hustleType v)); reflexivity. Qed.

(** The text React writes for a number input holding a safe integer reads
    back, through the handler, as that integer. *)
Lemma field_text_roundtrip (n : Z) : Z.abs n < 2 ^ 53 ->
  parse_field (attr_text (or_empty (of_Z n))) = of_Z n.
Proof.
  intros Hb. destruct (Z.eq_dec n 0) as [-> | Hn]; [reflexivity |].
  unfold or_empty. rewrite (Binary64Facts.signed_nonzero_truthy _ _ (Binary64Facts.of_Z_nonzero n Hn)).
  cbn [attr_text]. rewrite NumberString.toString_safe by exact Hb. apply parse_field_decimal.
Qed.

Lemma typed_state (s : HustleInput) (h r e : Z) :
  run (type_inputs (decimal_of_Z h) (decimal_of_Z r) (decimal_of_Z e)) s
  = int_input h s.(hustleType) r e.
Proof. cbn. rewrite !parse_field_decimal. reflexivity. Qed.

Lemma net_cells (v : HustleInput) :
  map (fun p => option_map textContent (child_at p (render v))) net_paths
  = [Some (fmt (monthlyNet (derive v)) ++ ""); Some (fmt (monthlyNet (derive v)) ++ "");
     Some (fmt (annualNet (derive v)) ++ "")]%string /\
  map (fun p => css_at p "color" (render v)) net_paths
  = repeat (Some (JStr green)) 3.
Proof. unfold render. destruct (HustleTypes.HustleTypes.selectedHustle (hustleType v)); split; reflexivity. Qed.

(** The exact net figures' numerators have the sign of [433 h r - 100 e]. *)
Lemma net_q_num (h r e : Z) :
  Qnum (monthlyNet (spec_derived h r e)) = 433 * h * r - 100 * e /\
  Qnum (annualNet (spec_derived h r e)) = (433 * h * r - 100 * e) * 12.
Proof.
  unfold spec_derived. cbn [monthlyNet annualNet].
  unfold Qmult, Qminus, Qplus, Qopp, inject_Z. cbn [Qnum Qden]. split; lia.
Qed.

(** ** Theorems *)

(** C2. End to end: from any state, after the user types the decimal text
    of an integer number of hours in 0-80, of an integer rate in 0-500 and
    of an integer monthly expense in 0-10000 into the three inputs, each of
    the eight places of the rendered page that prints an amount shows the
    corresponding figure of the specification's formulas (spec.md section
    3) computed exactly, rounded to whole dollars half away from zero, sign
    included. *)
Theorem typed_inputs_shown (s : HustleInput) (h r e : Z) :
  0 <= h <= 80 -> 0 <= r <= 500 -> 0 <= e <= 10000 ->
  map (fun p => option_map textContent
         (child_at p (render (run (type_inputs (decimal_of_Z h) (decimal_of_Z r) (decimal_of_Z e)) s))))
    result_paths
  = map (fun x => Some (fmt_q x)) (shown_figures (spec_derived h r e)).
Proof.
  intros Hh Hr He. rewrite typed_state, result_texts.
  destruct (shown_amounts h r e (hustleType s) Hh Hr He) as (S1 & S2 & S3 & S4 & S5).
  cbv zeta in S1, S2, S3, S4, S5. cbn [shown_figures map].
  rewrite !string_append_empty_r, S1, S2, S3, S4, S5. reflexivity.
Qed.

Lemma typed_inputs_shown_witness :
  (0 <= 40 <= 80 /\ 0 <= 25 <= 500 /\ 0 <= 0 <= 10000) /\
  map (fun p => option_map textContent
         (child_at p (render (run (type_inputs (decimal_of_Z 40) (decimal_of_Z 25) (decimal_of_Z 0))
                                 AppState.initialValues))))
    result_paths
  = map (fun x => Some (fmt_q x)) (shown_figures (spec_derived 40 25 0)).
Proof.
  split; [lia |]. apply (typed_inputs_shown AppState.initialValues 40 25 0); lia.
Defined.

(** C22. Display/parse round trip of the number inputs: when the stored
    hours, rate and expenses are safe integers (magnitude below [2^53]),
    the text React writes as each input's [value] ([String(x || '')], the
    empty text for 0) is read back by that input's handler
    ([parseInt(text) || 0]) as exactly the stored value. *)
Theorem input_text_roundtrip (v : HustleInput) (h r e : Z) :
  v.(hoursPerWeek) = of_Z h -> v.(hourlyRate) = of_Z r -> v.(monthlyExpenses) = of_Z e ->
  Z.abs h < 2 ^ 53 -> Z.abs r < 2 ^ 53 -> Z.abs e < 2 ^ 53 ->
  option_map (fun a => parse_field (attr_text a)) (value_of_id "hoursPerWeek" (render v))
    = Some v.(hoursPerWeek) /\
  option_map (fun a => parse_field (attr_text a)) (value_of_id "hourlyRate" (render v))
    = Some v.(hourlyRate) /\
  option_map (fun a => parse_field (attr_text a)) (value_of_id "monthlyExpenses" (render v))
    = Some v.(monthlyExpenses).
Proof.
  intros Hh Hr He Bh Br Be. destruct (value_of_inputs v) as (E1 & E2 & E3).
  rewrite E1, E2, E3. cbn [option_map]. rewrite Hh, Hr, He, !field_text_roundtrip by assumption.
  repeat split.
Qed.

Lemma input_text_roundtrip_witness :
  (AppState.initialValues.(hoursPerWeek) = of_Z 10 /\ AppState.initialValues.(hourlyRate) = of_Z 20 /\
   AppState.initialValues.(monthlyExpenses) = of_Z 50 /\
   Z.abs 10 < 2 ^ 53 /\ Z.abs 20 < 2 ^ 53 /\ Z.abs 50 < 2 ^ 53) /\
  option_map (fun a => parse_field (attr_text a)) (value_of_id "hoursPerWeek" (render AppState.initialValues))
    = Some AppState.initialValues.(hoursPerWeek).
Proof.
  split; [repeat split; reflexivity |].
  apply (input_text_roundtrip AppState.initialValues 10 20 50); reflexivity.
Defined.

(** C26. Presentation of a negative net: when the expenses exceed the
    monthly gross ([433 h r < 100 e], inputs in the widgets' ranges), the
    Net/Month cell and both cells of the Net Income row print a negative
    amount (["-$..."]) in the same green ([#16A34A]) as a positive one; no
    style of the page depends on the sign of a figure. *)
Theorem negative_net_green (h r e : Z) (t : string) :
  0 <= h <= 80 -> 0 <= r <= 500 -> 0 <= e <= 10000 -> 433 * h * r < 100 * e ->
  map (fun p => css_at p "color" (render (int_input h t r e))) net_paths
  = repeat (Some (JStr green)) 3 /\
  Forall (fun o => exists rest, o = Some ("-$" ++ rest)%string)
    (map (fun p => option_map textContent (child_at p (render (int_input h t r e)))) net_paths).
Proof.
  intros Hh Hr He Hneg. destruct (net_cells (int_input h t r e)) as [T C].
  split; [exact C |]. rewrite T.
  destruct (shown_amounts h r e t Hh Hr He) as (_ & _ & _ & S4 & S5). cbv zeta in S4, S5.
  rewrite !string_append_empty_r, S4, S5. unfold fmt_q.
  destruct (net_q_num h r e) as [N1 N2]. rewrite N1, N2.
  replace (433 * h * r - 100 * e <? 0) with true by (symmetry; apply Z.ltb_lt; lia).
  replace ((433 * h * r - 100 * e) * 12 <? 0) with true by (symmetry; apply Z.ltb_lt; lia).
  repeat constructor; eexists; reflexivity.
Qed.

Lemma negative_net_green_witness :
  (0 <= 10 <= 80 /\ 0 <= 20 <= 500 /\ 0 <= 1000 <= 10000 /\ 433 * 10 * 20 < 100 * 1000) /\
  map (fun p => css_at p "color" (render (int_input 10 "rideshare" 20 1000))) net_paths
  = repeat (Some (JStr green)) 3 /\
  Forall (fun o => exists rest, o = Some ("-$" ++ rest)%string)
    (map (fun p => option_map textContent (child_at p (render (int_input 10 "rideshare" 20 1000)))) net_paths).
Proof. split; [lia | apply negative_net_green; lia]. Defined.

End Page.

